(** * Movies API: a shallow embedding of [backend/main.py]

    The development follows the three source files of the backend:

    - [backend/models.py]: the request and response shapes
      ([MovieCreate], [MovieUpdate], [Movie]);
    - [backend/database.py]: the two tables created by [init_db] and the
      connection returned by [get_db];
    - [backend/main.py]: the dependency [get_current_user] and the seven
      route handlers.

    Handlers are written in a state-and-exception monad [M] over a [world]
    made of the committed database, the write lock of its file, the ambient
    clock and entropy, and the trace of storage events.  A connection
    carries the working copy of the database of its transaction; only
    [commit] publishes it, and a connection that wrote holds the write lock
    until it commits or is closed. *)

From Stdlib Require Import ZArith Floats.PrimFloat.
From stdpp Require Import base option list strings.

Open Scope string_scope.
Open Scope list_scope.
Open Scope Z_scope.

(** ** Values bound to SQL parameters *)

Inductive sql_value : Type :=
  | NULL
  | INTEGER (z : Z)
  | REAL (f : float)
  | TEXT (s : string).

Definition opt_text (o : option string) : sql_value :=
  match o with Some s => TEXT s | None => NULL end.
Definition opt_integer (o : option Z) : sql_value :=
  match o with Some z => INTEGER z | None => NULL end.
Definition opt_real (o : option float) : sql_value :=
  match o with Some f => REAL f | None => NULL end.

(** An INTEGER of SQLite is signed and 64 bits wide; [sqlite3] refuses to
    bind a Python [int] outside that range. *)
Definition INT64_MIN : Z := -9223372036854775808.
Definition INT64_MAX : Z := 9223372036854775807.

Definition in_int64 (z : Z) : bool := (INT64_MIN <=? z) && (z <=? INT64_MAX).

Definition bindable (v : sql_value) : bool :=
  match v with
  | INTEGER z => in_int64 z
  | NULL | REAL _ | TEXT _ => true
  end.

(** An [Optional[int]] that can be bound. *)
Definition fits (o : option Z) : bool :=
  match o with Some z => in_int64 z | None => true end.

(** A REAL as the table keeps it: a NaN is stored as NULL, and a float that
    is a whole number is kept as an integer and read back as a float, which
    loses the sign of negative zero. *)
Definition stored_real (f : float) : option float :=
  if PrimFloat.is_nan f then None
  else if PrimFloat.eqb f PrimFloat.zero then Some PrimFloat.zero
  else Some f.

Definition stored (v : option float) : option float :=
  match v with Some f => stored_real f | None => None end.

(** ** models.py *)

(** A field of a JSON request body: left out, or sent with a value that may
    be [null].  Pydantic records which fields were sent
    ([model_fields_set]); [unset] is a field outside that set. *)
Inductive field (T : Type) : Type :=
  | unset
  | given (v : option T).
Arguments unset {T}.
Arguments given {T} v.

(** The body of [POST /api/movies] as received, before validation. *)
Record MovieCreate_body : Type := {
  body_title : field string;
  body_director : field string;
  body_year : field Z;
  body_genre : field string;
  body_rating : field float;
  body_description : field string
}.

(** [class MovieCreate(BaseModel)]: [title: str], the rest
    [Optional[...] = None]. *)
Record MovieCreate : Type := {
  mc_title : string;
  mc_director : option string;
  mc_year : option Z;
  mc_genre : option string;
  mc_rating : option float;
  mc_description : option string
}.

(** [class MovieUpdate(BaseModel)]: six [Optional[...] = None] fields, each
    of which remembers whether the request set it. *)
Record MovieUpdate : Type := {
  mu_title : field string;
  mu_director : field string;
  mu_year : field Z;
  mu_genre : field string;
  mu_rating : field float;
  mu_description : field string
}.

(** [class Movie(BaseModel)], the response shape. *)
Record Movie : Type := {
  id : Z;
  title : string;
  director : option string;
  year : option Z;
  genre : option string;
  rating : option float;
  description : option string;
  user_id : Z
}.

(** The names imported from [auth]: shapes only, the functions are
    parameters of the [Backend] section below.  [User.id] is [user_ident],
    [TokenData.username] is [td_username]. *)
Record UserCreate : Type := { uc_username : string; uc_password : string }.
Record User : Type := { user_ident : Z; user_username : string }.
Record TokenData : Type := { td_username : option string }.
Record Token : Type := { access_token : string; token_type : string }.
Record HTTPAuthorizationCredentials : Type := { credentials : string }.

(** ** Exceptions and outcomes *)

Inductive exn : Type :=
  | HTTPException (status_code : Z) (detail : string)
  | RequestValidationError (loc : list string) (type_ : string)
  | IntegrityError (msg : string)
  | OverflowError (msg : string)
  | OperationalError (msg : string)
  | TypeError (msg : string).

Definition HTTP_401_UNAUTHORIZED : Z := 401.
Definition HTTP_201_CREATED : Z := 201.
Definition HTTP_204_NO_CONTENT : Z := 204.

(** The error kinds of the specification, read off the exception that
    reaches the transport. *)
Inductive error_kind : Type :=
  | Conflict | Unauthorized | NotFound | Validation | Fault.

Definition kind_of (e : exn) : error_kind :=
  match e with
  | HTTPException 400 _ => Conflict
  | HTTPException 401 _ => Unauthorized
  | HTTPException 404 _ => NotFound
  | HTTPException _ _ => Fault
  | RequestValidationError _ _ => Validation
  | IntegrityError _ => Fault
  | OverflowError _ => Fault
  | OperationalError _ => Fault
  | TypeError _ => Fault
  end.

Inductive outcome (A : Type) : Type :=
  | Ok (a : A)
  | Raise (e : exn).
Arguments Ok {A} a.
Arguments Raise {A} e.

(** ** database.py: the schema of [init_db] *)

(** A row of [users]. *)
Record user_row : Type := {
  u_id : Z;
  u_username : string;
  u_hashed_password : string;
  u_created_at : Z
}.

(** A row of [movies].  [title] is [TEXT NOT NULL]; the five columns after
    it are nullable.  [user_id] is always bound to [current_user.id] by the
    only INSERT of the program. *)
Record movie_row : Type := {
  m_id : Z;
  m_title : string;
  m_director : option string;
  m_year : option Z;
  m_genre : option string;
  m_rating : option float;
  m_description : option string;
  m_user_id : Z;
  m_created_at : Z
}.

(** The two tables, each with the counter that [AUTOINCREMENT] keeps in
    [sqlite_sequence]. *)
Record database : Type := {
  users : list user_row;
  users_seq : Z;
  movies : list movie_row;
  movies_seq : Z
}.

(** What [init_db] leaves on a fresh file. *)
Definition init_db : database :=
  {| users := []; users_seq := 0; movies := []; movies_seq := 0 |}.

(** [AUTOINCREMENT]: one more than the largest rowid that ever existed. *)
Definition next_rowid (seq : Z) (ids : list Z) : Z :=
  1 + foldr Z.max seq ids.

(** When the largest rowid that ever existed is the largest possible one,
    the table takes no more rows. *)
Definition new_rowid (seq : Z) (ids : list Z) : outcome Z :=
  if in_int64 (next_rowid seq ids) then Ok (next_rowid seq ids)
  else Raise (OperationalError "database or disk is full").

(** *** Statements *)

(** The conjuncts [col = ?] of the WHERE clauses over [movies]. *)
Inductive condition : Type :=
  | id_eq (v : Z)
  | user_id_eq (v : Z).

Definition condition_column (c : condition) : string :=
  match c with id_eq _ => "id" | user_id_eq _ => "user_id" end.

Definition condition_param (c : condition) : sql_value :=
  match c with id_eq v => INTEGER v | user_id_eq v => INTEGER v end.

Definition holds (c : condition) (r : movie_row) : bool :=
  match c with
  | id_eq v => Z.eqb (m_id r) v
  | user_id_eq v => Z.eqb (m_user_id r) v
  end.

Definition matches (where_ : list condition) (r : movie_row) : bool :=
  forallb (fun c => holds c r) where_.

(** One entry [key = ?] of a SET clause with the value bound to it. *)
Inductive assignment : Type :=
  | set_title (v : option string)
  | set_director (v : option string)
  | set_year (v : option Z)
  | set_genre (v : option string)
  | set_rating (v : option float)
  | set_description (v : option string).

Definition key (a : assignment) : string :=
  match a with
  | set_title _ => "title"
  | set_director _ => "director"
  | set_year _ => "year"
  | set_genre _ => "genre"
  | set_rating _ => "rating"
  | set_description _ => "description"
  end.

Definition bound_value (a : assignment) : sql_value :=
  match a with
  | set_title v => opt_text v
  | set_director v => opt_text v
  | set_year v => opt_integer v
  | set_genre v => opt_text v
  | set_rating v => opt_real v
  | set_description v => opt_text v
  end.

Inductive statement : Type :=
  | SELECT_users (columns : string) (username : string)
  | INSERT_users (username hashed_password : string)
  | SELECT_movies (columns : string) (where_ : list condition)
  | INSERT_movies (values : MovieCreate) (owner : Z)
  | UPDATE_movies (set_ : list assignment) (where_ : list condition)
  | DELETE_movies (where_ : list condition).

(** The text of the clauses as the source writes them. *)
Definition where_clause (where_ : list condition) : string :=
  String.concat " AND " (map (fun c => condition_column c +:+ " = ?") where_).

Definition set_clause (set_ : list assignment) : string :=
  String.concat ", " (map (fun a => key a +:+ " = ?") set_).

Definition sql (st : statement) : string :=
  match st with
  | SELECT_users columns _ =>
      "SELECT " +:+ columns +:+ " FROM users WHERE username = ?"
  | INSERT_users _ _ =>
      "INSERT INTO users (username, hashed_password) VALUES (?, ?)"
  | SELECT_movies columns where_ =>
      "SELECT " +:+ columns +:+ " FROM movies WHERE " +:+ where_clause where_
  | INSERT_movies _ _ =>
      "INSERT INTO movies (title, director, year, genre, rating, description, user_id) VALUES (?, ?, ?, ?, ?, ?, ?)"
  | UPDATE_movies set_ where_ =>
      "UPDATE movies SET " +:+ set_clause set_ +:+ " WHERE " +:+ where_clause where_
  | DELETE_movies where_ => "DELETE FROM movies WHERE " +:+ where_clause where_
  end.

Definition parameters (st : statement) : list sql_value :=
  match st with
  | SELECT_users _ u => [TEXT u]
  | INSERT_users u h => [TEXT u; TEXT h]
  | SELECT_movies _ where_ => map condition_param where_
  | INSERT_movies v owner =>
      [TEXT (mc_title v); opt_text (mc_director v); opt_integer (mc_year v);
       opt_text (mc_genre v); opt_real (mc_rating v);
       opt_text (mc_description v); INTEGER owner]
  | UPDATE_movies set_ where_ =>
      map bound_value set_ ++ map condition_param where_
  | DELETE_movies where_ => map condition_param where_
  end.

(** Binding the parameters, which [sqlite3] does before the statement is
    stepped. *)
Definition bind (st : statement) : outcome unit :=
  if forallb bindable (parameters st) then Ok tt
  else Raise (OverflowError "Python int too large to convert to SQLite INTEGER").

(** The statements that write, for which [sqlite3] opens a transaction and
    SQLite takes the write lock of the file. *)
Definition writes (st : statement) : bool :=
  match st with
  | INSERT_users _ _ | INSERT_movies _ _ | UPDATE_movies _ _ | DELETE_movies _ => true
  | SELECT_users _ _ | SELECT_movies _ _ => false
  end.

(** A constraint failure undoes the statement alone and leaves its
    transaction open; any other failure rolls the transaction back. *)
Definition keeps_transaction (e : exn) : bool :=
  match e with IntegrityError _ => true | _ => false end.

(** *** Executing a statement on a working copy *)

(** What the cursor holds after [execute]. *)
Record cursor : Type := {
  fetched_users : list user_row;
  fetched_movies : list movie_row;
  rowcount : Z;
  lastrowid : Z
}.

(** One SET entry applied to one row; [title] is [NOT NULL]. *)
Definition assign (a : assignment) (r : movie_row) : outcome movie_row :=
  match a with
  | set_title None => Raise (IntegrityError "NOT NULL constraint failed: movies.title")
  | set_title (Some s) =>
      Ok {| m_id := m_id r; m_title := s; m_director := m_director r;
            m_year := m_year r; m_genre := m_genre r; m_rating := m_rating r;
            m_description := m_description r; m_user_id := m_user_id r;
            m_created_at := m_created_at r |}
  | set_director v =>
      Ok {| m_id := m_id r; m_title := m_title r; m_director := v;
            m_year := m_year r; m_genre := m_genre r; m_rating := m_rating r;
            m_description := m_description r; m_user_id := m_user_id r;
            m_created_at := m_created_at r |}
  | set_year v =>
      Ok {| m_id := m_id r; m_title := m_title r; m_director := m_director r;
            m_year := v; m_genre := m_genre r; m_rating := m_rating r;
            m_description := m_description r; m_user_id := m_user_id r;
            m_created_at := m_created_at r |}
  | set_genre v =>
      Ok {| m_id := m_id r; m_title := m_title r; m_director := m_director r;
            m_year := m_year r; m_genre := v; m_rating := m_rating r;
            m_description := m_description r; m_user_id := m_user_id r;
            m_created_at := m_created_at r |}
  | set_rating v =>
      Ok {| m_id := m_id r; m_title := m_title r; m_director := m_director r;
            m_year := m_year r; m_genre := m_genre r; m_rating := stored v;
            m_description := m_description r; m_user_id := m_user_id r;
            m_created_at := m_created_at r |}
  | set_description v =>
      Ok {| m_id := m_id r; m_title := m_title r; m_director := m_director r;
            m_year := m_year r; m_genre := m_genre r; m_rating := m_rating r;
            m_description := v; m_user_id := m_user_id r;
            m_created_at := m_created_at r |}
  end.

(** The whole SET clause applied to one row, left to right. *)
Fixpoint assign_all (set_ : list assignment) (r : movie_row) : outcome movie_row :=
  match set_ with
  | [] => Ok r
  | a :: rest =>
      match assign a r with
      | Ok r' => assign_all rest r'
      | Raise e => Raise e
      end
  end.

(** UPDATE over the table: rows that match are rewritten, a constraint
    failure aborts the statement. *)
Fixpoint update_rows (set_ : list assignment) (where_ : list condition)
    (rows : list movie_row) : outcome (list movie_row) :=
  match rows with
  | [] => Ok []
  | r :: rest =>
      if matches where_ r then
        match assign_all set_ r with
        | Ok r' =>
            match update_rows set_ where_ rest with
            | Ok rest' => Ok (r' :: rest')
            | Raise e => Raise e
            end
        | Raise e => Raise e
        end
      else
        match update_rows set_ where_ rest with
        | Ok rest' => Ok (r :: rest')
        | Raise e => Raise e
        end
  end.

Definition has_username (u : string) (r : user_row) : bool :=
  String.eqb (u_username r) u.

(** [step now st db]: the effect of one statement, its parameters bound, on
    the working copy [db]; [now] is CURRENT_TIMESTAMP. *)
Definition step (now : Z) (st : statement) (db : database)
    : outcome (database * cursor) :=
  match st with
  | SELECT_users _ u =>
      Ok (db, {| fetched_users := List.filter (has_username u) (users db);
                 fetched_movies := []; rowcount := -1; lastrowid := 0 |})
  | INSERT_users u h =>
      if existsb (has_username u) (users db) then
        Raise (IntegrityError "UNIQUE constraint failed: users.username")
      else
        match new_rowid (users_seq db) (map u_id (users db)) with
        | Raise e => Raise e
        | Ok rowid =>
            Ok ({| users := users db ++
                     [{| u_id := rowid; u_username := u; u_hashed_password := h;
                         u_created_at := now |}];
                   users_seq := rowid;
                   movies := movies db; movies_seq := movies_seq db |},
                {| fetched_users := []; fetched_movies := [];
                   rowcount := 1; lastrowid := rowid |})
        end
  | SELECT_movies _ where_ =>
      Ok (db, {| fetched_users := [];
                 fetched_movies := List.filter (matches where_) (movies db);
                 rowcount := -1; lastrowid := 0 |})
  | INSERT_movies v owner =>
      match new_rowid (movies_seq db) (map m_id (movies db)) with
      | Raise e => Raise e
      | Ok rowid =>
          Ok ({| users := users db; users_seq := users_seq db;
                 movies := movies db ++
                   [{| m_id := rowid; m_title := mc_title v;
                       m_director := mc_director v; m_year := mc_year v;
                       m_genre := mc_genre v; m_rating := stored (mc_rating v);
                       m_description := mc_description v; m_user_id := owner;
                       m_created_at := now |}];
                 movies_seq := rowid |},
              {| fetched_users := []; fetched_movies := [];
                 rowcount := 1; lastrowid := rowid |})
      end
  | UPDATE_movies set_ where_ =>
      match update_rows set_ where_ (movies db) with
      | Ok rows =>
          Ok ({| users := users db; users_seq := users_seq db;
                 movies := rows; movies_seq := movies_seq db |},
              {| fetched_users := []; fetched_movies := [];
                 rowcount := Z.of_nat (length (List.filter (matches where_) (movies db)));
                 lastrowid := 0 |})
      | Raise e => Raise e
      end
  | DELETE_movies where_ =>
      Ok ({| users := users db; users_seq := users_seq db;
             movies := List.filter (fun r => negb (matches where_ r)) (movies db);
             movies_seq := movies_seq db |},
          {| fetched_users := []; fetched_movies := [];
             rowcount := Z.of_nat (length (List.filter (matches where_) (movies db)));
             lastrowid := 0 |})
  end.

(** [run_statement now st db]: one statement, bound and stepped, on a
    database that no other connection is writing. *)
Definition run_statement (now : Z) (st : statement) (db : database)
    : outcome (database * cursor) :=
  match bind st with
  | Ok _ => step now st db
  | Raise e => Raise e
  end.

(** ** The world and the monad of handlers *)

(** What a handler meets in its surroundings without being passed it: the
    clock (token expiry, CURRENT_TIMESTAMP), the entropy of the salt, and
    whether the interpreter has by now reclaimed the connections that
    earlier requests left open.  A connection nobody closed is closed when
    it is reclaimed, which rolls its transaction back. *)
Record environment : Type := { clock : Z; entropy : Z; finalized : bool }.

Inductive event : Type :=
  | ev_connect
  | ev_execute (st : statement)
  | ev_commit
  | ev_close.

(** [w_locked]: some connection holds the write lock of the database file,
    so that a write by any other connection fails. *)
Record world : Type := {
  w_db : database;
  w_env : environment;
  w_trace : list event;
  w_locked : bool
}.

Definition M (A : Type) : Type := world -> outcome A * world.

#[global] Instance M_ret : MRet M := fun A a w => (Ok a, w).
#[global] Instance M_bind : MBind M := fun A B f m w =>
  match m w with
  | (Ok a, w') => f a w'
  | (Raise e, w') => (Raise e, w')
  end.

Definition raise {A : Type} (e : exn) : M A := fun w => (Raise e, w).

Definition ask : M environment := fun w => (Ok (w_env w), w).

Definition emit (ev : event) (w : world) : world :=
  {| w_db := w_db w; w_env := w_env w; w_trace := w_trace w ++ [ev];
     w_locked := w_locked w |}.

Definition set_locked (b : bool) (w : world) : world :=
  {| w_db := w_db w; w_env := w_env w; w_trace := w_trace w; w_locked := b |}.

(** A [sqlite3] connection: the working copy of its open transaction, and
    whether that transaction has written, in which case the connection holds
    the write lock. *)
Record connection : Type := { working : database; writing : bool }.

(** [get_db()] *)
Definition get_db : M connection :=
  fun w => (Ok {| working := w_db w; writing := false |}, emit ev_connect w).

(** [cursor.execute(sql, params)]; the connection is returned with its
    working copy advanced.  The parameters are bound first.  A statement
    that writes then needs the write lock: it fails when another connection
    holds it, and takes it otherwise.  When a constraint fails while the
    statement is stepped, the transaction stays open and keeps the lock;
    when the table is full, the transaction is rolled back and the lock
    released. *)
Definition execute (conn : connection) (st : statement) : M (connection * cursor) :=
  fun w =>
    let w := emit (ev_execute st) w in
    match bind st with
    | Raise e => (Raise e, w)
    | Ok _ =>
        if writes st then
          if negb (writing conn) && w_locked w then
            (Raise (OperationalError "database is locked"), w)
          else
            match step (clock (w_env w)) st (working conn) with
            | Ok (db, cur) =>
                (Ok ({| working := db; writing := true |}, cur), set_locked true w)
            | Raise e => (Raise e, set_locked (keeps_transaction e) w)
            end
        else
          match step (clock (w_env w)) st (working conn) with
          | Ok (db, cur) =>
              (Ok ({| working := db; writing := writing conn |}, cur), w)
          | Raise e => (Raise e, w)
          end
    end.

(** [conn.commit()]: the transaction, if one is open, is published and the
    lock released; the connection is returned with no transaction open. *)
Definition commit (conn : connection) : M connection :=
  fun w =>
    (Ok {| working := working conn; writing := false |},
     emit ev_commit
       (if writing conn then
          {| w_db := working conn; w_env := w_env w; w_trace := w_trace w;
             w_locked := false |}
        else w)).

(** [conn.close()]: what was not committed is rolled back and dropped with
    [conn], and the lock released if [conn] held it. *)
Definition close (conn : connection) : M unit :=
  fun w => (Ok tt, emit ev_close (if writing conn then set_locked false w else w)).

(** [cursor.fetchone()] *)
Definition fetchone_user (cur : cursor) : option user_row := head (fetched_users cur).
Definition fetchone (cur : cursor) : option movie_row := head (fetched_movies cur).
(** [cursor.fetchall()] *)
Definition fetchall (cur : cursor) : list movie_row := fetched_movies cur.

(** [dict(movie)] read through [response_model=Movie]. *)
Definition dict (r : movie_row) : Movie :=
  {| id := m_id r; title := m_title r; director := m_director r;
     year := m_year r; genre := m_genre r; rating := m_rating r;
     description := m_description r; user_id := m_user_id r |}.

(** ** main.py *)

(** The column list the movie queries select. *)
Definition movie_columns : string :=
  "id, title, director, year, genre, rating, description, user_id".

(** [timedelta(minutes=m)], in seconds. *)
Definition timedelta_minutes (m : Z) : Z := m * 60.

(** [MovieUpdate.model_dump(exclude_unset=True)]: the fields that were set,
    in declaration order, each as the SET entry it becomes. *)
Definition dump_field {T : Type} (mk : option T -> assignment) (f : field T)
    : list assignment :=
  match f with
  | unset => []
  | given v => [mk v]
  end.

Definition model_dump_exclude_unset (movie_update : MovieUpdate) : list assignment :=
  dump_field set_title (mu_title movie_update) ++
  dump_field set_director (mu_director movie_update) ++
  dump_field set_year (mu_year movie_update) ++
  dump_field set_genre (mu_genre movie_update) ++
  dump_field set_rating (mu_rating movie_update) ++
  dump_field set_description (mu_description movie_update).

Section Backend.

(** The functions imported from [auth] are parameters.  Token functions
    read the clock and the password hash draws a salt; both are passed
    explicitly, from the environment of the world. *)
Variable decode_access_token : Z -> string -> option TokenData.
Variable verify_password : string -> string -> bool.
Variable get_password_hash : Z -> string -> string.
Variable create_access_token : Z -> list (string * string) -> Z -> string.
Variable ACCESS_TOKEN_EXPIRE_MINUTES : Z.

Definition get_current_user (credentials_ : HTTPAuthorizationCredentials) : M User :=
  let token := credentials credentials_ in
  env ← ask;
  let token_data := decode_access_token (clock env) token in
  match token_data with
  | None | Some {| td_username := None |} =>
      raise (HTTPException HTTP_401_UNAUTHORIZED "Invalid authentication credentials")
  | Some {| td_username := Some username |} =>
      conn ← get_db;
      '(conn, cursor) ← execute conn (SELECT_users "id, username" username);
      let user_row := fetchone_user cursor in
      close conn;;
      match user_row with
      | None => raise (HTTPException 404 "User not found")
      | Some user_row =>
          mret {| user_ident := u_id user_row; user_username := u_username user_row |}
      end
  end.

Definition register (user : UserCreate) : M Token :=
  conn ← get_db;
  '(conn, cursor) ← execute conn (SELECT_users "id" (uc_username user));
  match fetchone_user cursor with
  | Some _ =>
      close conn;;
      raise (HTTPException 400 "Username already registered")
  | None =>
      env ← ask;
      let hashed_password := get_password_hash (entropy env) (uc_password user) in
      '(conn, cursor) ← execute conn (INSERT_users (uc_username user) hashed_password);
      conn ← commit conn;
      close conn;;
      let access_token_expires := timedelta_minutes ACCESS_TOKEN_EXPIRE_MINUTES in
      let access_token :=
        create_access_token (clock env) [("sub", uc_username user)] access_token_expires in
      mret {| access_token := access_token; token_type := "bearer" |}
  end.

Definition login (user : UserCreate) : M Token :=
  conn ← get_db;
  '(conn, cursor) ← execute conn (SELECT_users "hashed_password" (uc_username user));
  let user_row := fetchone_user cursor in
  close conn;;
  match user_row with
  | None => raise (HTTPException 401 "Incorrect username or password")
  | Some user_row =>
      if negb (verify_password (uc_password user) (u_hashed_password user_row)) then
        raise (HTTPException 401 "Incorrect username or password")
      else
        env ← ask;
        let access_token_expires := timedelta_minutes ACCESS_TOKEN_EXPIRE_MINUTES in
        let access_token :=
          create_access_token (clock env) [("sub", uc_username user)] access_token_expires in
        mret {| access_token := access_token; token_type := "bearer" |}
  end.

Definition get_movies (current_user : User) : M (list Movie) :=
  conn ← get_db;
  '(conn, cursor) ← execute conn
    (SELECT_movies movie_columns [user_id_eq (user_ident current_user)]);
  let movies := fetchall cursor in
  close conn;;
  mret (map dict movies).

Definition create_movie (movie : MovieCreate) (current_user : User) : M Movie :=
  conn ← get_db;
  '(conn, cursor) ← execute conn (INSERT_movies movie (user_ident current_user));
  conn ← commit conn;
  let movie_id := lastrowid cursor in
  close conn;;
  mret {| id := movie_id;
          title := mc_title movie;
          director := mc_director movie;
          year := mc_year movie;
          genre := mc_genre movie;
          rating := mc_rating movie;
          description := mc_description movie;
          user_id := user_ident current_user |}.

Definition get_movie (movie_id : Z) (current_user : User) : M Movie :=
  conn ← get_db;
  '(conn, cursor) ← execute conn
    (SELECT_movies movie_columns [id_eq movie_id; user_id_eq (user_ident current_user)]);
  let movie := fetchone cursor in
  close conn;;
  match movie with
  | None => raise (HTTPException 404 "Movie not found")
  | Some movie => mret (dict movie)
  end.

Definition update_movie (movie_id : Z) (movie_update : MovieUpdate)
    (current_user : User) : M Movie :=
  conn ← get_db;
  '(conn, cursor) ← execute conn
    (SELECT_movies "*" [id_eq movie_id; user_id_eq (user_ident current_user)]);
  let existing_movie := fetchone cursor in
  match existing_movie with
  | None =>
      close conn;;
      raise (HTTPException 404 "Movie not found")
  | Some _ =>
      let update_data := model_dump_exclude_unset movie_update in
      conn ← match update_data with
             | [] => mret conn
             | _ :: _ =>
                 '(conn, cursor) ← execute conn
                   (UPDATE_movies update_data
                      [id_eq movie_id; user_id_eq (user_ident current_user)]);
                 conn ← commit conn;
                 mret conn
             end;
      '(conn, cursor) ← execute conn (SELECT_movies movie_columns [id_eq movie_id]);
      let updated_movie := fetchone cursor in
      close conn;;
      match updated_movie with
      | None => raise (TypeError "'NoneType' object is not iterable")
      | Some updated_movie => mret (dict updated_movie)
      end
  end.

Definition delete_movie (movie_id : Z) (current_user : User) : M unit :=
  conn ← get_db;
  '(conn, cursor) ← execute conn
    (DELETE_movies [id_eq movie_id; user_id_eq (user_ident current_user)]);
  if rowcount cursor =? 0 then
    close conn;;
    raise (HTTPException 404 "Movie not found")
  else
    conn ← commit conn;
    close conn;;
    mret tt.

(** *** The routes *)

(** Modelled from the spec: the dependency [security = HTTPBearer()] is the
    transport framework's, not this repository's.  It hands the bearer
    token of the Authorization header to [get_current_user]; for a request
    without one the specification (4.3, 6) gives Unauthorized. *)
Definition security (authorization : option string) : M HTTPAuthorizationCredentials :=
  match authorization with
  | None => raise (HTTPException HTTP_401_UNAUTHORIZED "Not authenticated")
  | Some token => mret {| credentials := token |}
  end.

(** A field declared [Optional[...] = None]: left out, it is [None]. *)
Definition default_None {T : Type} (f : field T) : option T :=
  match f with unset => None | given v => v end.

(** Validation of a request body against [MovieCreate]: [title: str] is
    required and not nullable, and any string passes, for the field carries
    no constraint; the other fields default to [None]. *)
Definition MovieCreate_validate (body : MovieCreate_body) : M MovieCreate :=
  match body_title body with
  | unset => raise (RequestValidationError ["body"; "title"] "missing")
  | given None => raise (RequestValidationError ["body"; "title"] "string_type")
  | given (Some title) =>
      mret {| mc_title := title;
              mc_director := default_None (body_director body);
              mc_year := default_None (body_year body);
              mc_genre := default_None (body_genre body);
              mc_rating := default_None (body_rating body);
              mc_description := default_None (body_description body) |}
  end.

Inductive request : Type :=
  | POST_register (user : UserCreate)
  | POST_login (user : UserCreate)
  | GET_movies (authorization : option string)
  | POST_movies (authorization : option string) (body : MovieCreate_body)
  | GET_movie (authorization : option string) (movie_id : Z)
  | PUT_movie (authorization : option string) (movie_id : Z) (body : MovieUpdate)
  | DELETE_movie (authorization : option string) (movie_id : Z).

Inductive response : Type :=
  | token_response (t : Token)
  | movies_response (l : list Movie)
  | movie_response (status : Z) (m : Movie)
  | empty_response (status : Z).

(** [Depends(get_current_user)] over [Depends(security)]. *)
Definition current_user_of (authorization : option string) : M User :=
  credentials_ ← security authorization;
  get_current_user credentials_.

(** One request through its route: dependencies first, then the body,
    then the handler. *)
Definition app (req : request) : M response :=
  match req with
  | POST_register user => t ← register user; mret (token_response t)
  | POST_login user => t ← login user; mret (token_response t)
  | GET_movies authorization =>
      current_user ← current_user_of authorization;
      l ← get_movies current_user;
      mret (movies_response l)
  | POST_movies authorization body =>
      current_user ← current_user_of authorization;
      movie ← MovieCreate_validate body;
      m ← create_movie movie current_user;
      mret (movie_response HTTP_201_CREATED m)
  | GET_movie authorization movie_id =>
      current_user ← current_user_of authorization;
      m ← get_movie movie_id current_user;
      mret (movie_response 200 m)
  | PUT_movie authorization movie_id body =>
      current_user ← current_user_of authorization;
      m ← update_movie movie_id body current_user;
      mret (movie_response 200 m)
  | DELETE_movie authorization movie_id =>
      current_user ← current_user_of authorization;
      delete_movie movie_id current_user;;
      mret (empty_response HTTP_204_NO_CONTENT)
  end.

(** A request served under the clock and entropy of its moment.  If by then
    the connections left open were reclaimed, the lock one of them held is
    free again. *)
Definition at_ (env : environment) (w : world) : world :=
  {| w_db := w_db w; w_env := env; w_trace := w_trace w;
     w_locked := w_locked w && negb (finalized env) |}.

Definition serve (env : environment) (req : request) (w : world) : outcome response * world :=
  app req (at_ env w).

(** A history of requests, served one after the other. *)
Fixpoint serve_all (history : list (environment * request)) (w : world) : world :=
  match history with
  | [] => w
  | (env, req) :: rest => serve_all rest (snd (serve env req w))
  end.

End Backend.

(** ** A concrete [auth] for running the handlers

    Tokens are the username behind a fixed prefix and hashes are the
    password behind another; enough to execute the routes on examples. *)

Definition demo_token_prefix : string := "token:".

Definition demo_decode_access_token (now : Z) (token : string) : option TokenData :=
  if String.prefix demo_token_prefix token then
    Some {| td_username :=
              Some (String.substring (String.length demo_token_prefix)
                      (String.length token - String.length demo_token_prefix) token) |}
  else None.

Definition demo_get_password_hash (salt : Z) (password : string) : string :=
  "hash:" +:+ password.

Definition demo_verify_password (plain hashed : string) : bool :=
  String.eqb ("hash:" +:+ plain) hashed.

Definition demo_create_access_token (now : Z) (data : list (string * string)) (expires : Z)
    : string :=
  match data with
  | (_, username) :: _ => demo_token_prefix +:+ username
  | [] => ""
  end.

Definition demo_app : request -> M response :=
  app demo_decode_access_token demo_verify_password demo_get_password_hash
      demo_create_access_token 30.

Definition demo_serve_all : list (environment * request) -> world -> world :=
  serve_all demo_decode_access_token demo_verify_password demo_get_password_hash
      demo_create_access_token 30.

Definition demo_serve : environment -> request -> world -> outcome response * world :=
  serve demo_decode_access_token demo_verify_password demo_get_password_hash
      demo_create_access_token 30.

Definition demo_current_user_of : option string -> M User :=
  current_user_of demo_decode_access_token.

Definition demo_login : UserCreate -> M Token :=
  login demo_verify_password demo_create_access_token 30.

Definition fresh_world : world :=
  {| w_db := init_db; w_env := {| clock := 0; entropy := 0; finalized := false |};
     w_trace := []; w_locked := false |}.

(** ** Notions used by the statements *)

(** Events appended in order. *)
Definition emits (evs : list event) (w : world) : world :=
  fold_left (fun w ev => emit ev w) evs w.

(** The constraints the schema declares. *)
Definition movies_pk (db : database) : Prop := NoDup (map m_id (movies db)).
Definition users_unique (db : database) : Prop := NoDup (map u_username (users db)).
(** No rowid of [movies] is beyond the AUTOINCREMENT counter. *)
Definition ids_bounded (db : database) : Prop :=
  forall r, In r (movies db) -> m_id r <= movies_seq db.

Definition well_formed (db : database) : Prop :=
  movies_pk db /\ users_unique db /\ ids_bounded db.

(** The rowids and the owners the tables hold are SQLite INTEGERs. *)
Definition users_fit (db : database) : Prop :=
  forall u, In u (users db) -> in_int64 (u_id u) = true.
Definition movies_fit (db : database) : Prop :=
  forall r, In r (movies db) -> in_int64 (m_id r) = true /\ in_int64 (m_user_id r) = true.
Definition keys_fit (db : database) : Prop := movies_fit db /\ users_fit db.

(** A table that can still issue a rowid. *)
Definition room_for_movie (db : database) : Prop :=
  in_int64 (next_rowid (movies_seq db) (map m_id (movies db))) = true.
Definition room_for_user (db : database) : Prop :=
  in_int64 (next_rowid (users_seq db) (map u_id (users db))) = true.

(** A rating that the table keeps as it was sent. *)
Definition kept_exactly (v : option float) : Prop := stored v = v.

(** [owners_kept db db']: every movie of [db'] either has the owner that the
    movie of the same id has in [db], or has an id that [db] never issued. *)
Definition owners_kept (db db' : database) : Prop :=
  movies_seq db <= movies_seq db' /\
  forall r', In r' (movies db') ->
    (exists r, In r (movies db) /\ m_id r = m_id r' /\ m_user_id r = m_user_id r')
    \/ movies_seq db < m_id r'.

(** The caller owns no movie of this id: there is none, or it is another
    user's. *)
Definition absent (db : database) (movie_id : Z) : Prop :=
  forall r, In r (movies db) -> m_id r <> movie_id.
Definition foreign (db : database) (movie_id : Z) (caller : User) : Prop :=
  exists r, In r (movies db) /\ m_id r = movie_id /\ m_user_id r <> user_ident caller.

(** The record a sparse update is meant to leave: a field that was set takes
    the value sent (a rating as the table keeps it), a field that was not
    keeps its value. *)
Definition pick {T : Type} (f : field T) (old : option T) : option T :=
  match f with unset => old | given v => v end.

Definition pick_real (f : field float) (old : option float) : option float :=
  match f with unset => old | given v => stored v end.

Definition patched (movie_update : MovieUpdate) (r : movie_row) : movie_row :=
  {| m_id := m_id r;
     m_title := match mu_title movie_update with
                | given (Some s) => s
                | _ => m_title r
                end;
     m_director := pick (mu_director movie_update) (m_director r);
     m_year := pick (mu_year movie_update) (m_year r);
     m_genre := pick (mu_genre movie_update) (m_genre r);
     m_rating := pick_real (mu_rating movie_update) (m_rating r);
     m_description := pick (mu_description movie_update) (m_description r);
     m_user_id := m_user_id r;
     m_created_at := m_created_at r |}.

(** The table after the movie [r] alone has been rewritten by a request. *)
Definition replaced (movie_update : MovieUpdate) (r x : movie_row) : movie_row :=
  if Z.eqb (m_id x) (m_id r) then patched movie_update r else x.

(** A computation that leaves the committed database, the environment and
    the write lock alone. *)
Definition reads_only {A : Type} (m : M A) : Prop :=
  forall w, w_env (snd (m w)) = w_env w /\ w_db (snd (m w)) = w_db w /\
            w_locked (snd (m w)) = w_locked w.

(** A computation that commits at most the effect of one statement run on
    the database it started from. *)
Definition commits_one {A : Type} (m : M A) : Prop :=
  forall w,
    w_env (snd (m w)) = w_env w /\
    (w_db (snd (m w)) = w_db w \/
     exists st cur,
       run_statement (clock (w_env w)) st (w_db w) = Ok (w_db (snd (m w)), cur)).

(** The Authorization header of a request to a protected route. *)
Definition authorization_of (req : request) : option (option string) :=
  match req with
  | POST_register _ | POST_login _ => None
  | GET_movies a | POST_movies a _ | GET_movie a _ | PUT_movie a _ _
  | DELETE_movie a _ => Some a
  end.

(** A request carries no usable token: the header is missing, or
    [decode_access_token] returns [None] (malformed, expired or tampered
    token), or the decoded claims name nobody. *)
Definition token_rejected (decode_access_token : Z -> string -> option TokenData)
    (now : Z) (authorization : option string) : bool :=
  match authorization with
  | None => true
  | Some token =>
      match decode_access_token now token with
      | None => true
      | Some {| td_username := None |} => true
      | Some {| td_username := Some _ |} => false
      end
  end.

(** *** Worlds used as examples *)

Definition alice : User := {| user_ident := 1; user_username := "alice" |}.
Definition bob : User := {| user_ident := 2; user_username := "bob" |}.

Definition dune : movie_row :=
  {| m_id := 1; m_title := "Dune"; m_director := Some "Denis Villeneuve";
     m_year := Some 2021; m_genre := Some "Sci-Fi"; m_rating := Some 8.5%float;
     m_description := None; m_user_id := 1; m_created_at := 10 |}.

(** Two registered users, one movie owned by the first. *)
Definition two_users : database :=
  {| users := [ {| u_id := 1; u_username := "alice";
                   u_hashed_password := "hash:pw1"; u_created_at := 1 |};
                {| u_id := 2; u_username := "bob";
                   u_hashed_password := "hash:pw2"; u_created_at := 2 |} ];
     users_seq := 2;
     movies := [dune];
     movies_seq := 1 |}.

Definition two_users_world : world :=
  {| w_db := two_users; w_env := {| clock := 20; entropy := 3; finalized := false |};
     w_trace := []; w_locked := false |}.

Definition only_rating (f : float) : MovieUpdate :=
  {| mu_title := unset; mu_director := unset; mu_year := unset;
     mu_genre := unset; mu_rating := given (Some f); mu_description := unset |}.

Definition no_fields : MovieUpdate :=
  {| mu_title := unset; mu_director := unset; mu_year := unset;
     mu_genre := unset; mu_rating := unset; mu_description := unset |}.

Definition null_title : MovieUpdate :=
  {| mu_title := given None; mu_director := unset; mu_year := unset;
     mu_genre := unset; mu_rating := unset; mu_description := unset |}.

Definition empty_title_body : MovieCreate_body :=
  {| body_title := given (Some ""); body_director := unset; body_year := unset;
     body_genre := unset; body_rating := unset; body_description := unset |}.

(** A movie with all six fields supplied. *)
Definition full_movie (rating_ : float) : MovieCreate :=
  {| mc_title := "Dune"; mc_director := Some "Denis Villeneuve"; mc_year := Some 2021;
     mc_genre := Some "Sci-Fi"; mc_rating := Some rating_;
     mc_description := Some "Spice" |}.

(** The first integer that is no SQLite INTEGER. *)
Definition TOO_BIG : Z := 9223372036854775808.

(** The same database with its write lock held by a connection that an
    earlier request left open. *)
Definition locked_world : world := set_locked true two_users_world.

(** ** frontend/app.py

    The client functions and the login page.  A browser holds the session
    state, what the page has shown, and whether the backend can be reached;
    a request that is delivered is served by [app] on the world, and its
    outcome comes back as the response the transport makes of it. *)

Module frontend.

(** What a session key holds; the source annotates [str] where [None] and
    [True] are stored too. *)
Inductive py : Type :=
  | py_None
  | py_bool (b : bool)
  | py_str (s : string).

(** [str(v)], as an f-string formats it. *)
Definition str (v : py) : string :=
  match v with
  | py_None => "None"
  | py_bool true => "True"
  | py_bool false => "False"
  | py_str s => s
  end.

(** Truth of a [str] in a condition. *)
Definition nonempty (s : string) : bool := negb (String.eqb s "").

(** Truth of a session value in a condition. *)
Definition truthy (v : py) : bool :=
  match v with
  | py_None => false
  | py_bool b => b
  | py_str s => nonempty s
  end.

(** [len(s)] of a [str] held as its UTF-8 bytes: the bytes that begin a
    code point. *)
Definition continuation (c : Ascii.ascii) : bool :=
  let n := Z.of_N (Ascii.N_of_ascii c) in (128 <=? n) && (n <? 192).

Fixpoint len (s : string) : Z :=
  match s with
  | EmptyString => 0
  | String c rest => (if continuation c then 0 else 1) + len rest
  end.

(** *** Responses *)

Inductive json : Type :=
  | j_token (t : Token)
  | j_movie (m : Movie)
  | j_movies (l : list Movie)
  | j_detail (detail : string)
  | j_validation (loc : list string) (type_ : string).

Inductive body : Type :=
  | json_body (j : json)
  | empty_body
  | error_page.

Record Response : Type := { status_code : Z; content : body }.

(** What the transport sends back for the outcome of a route: the record
    under the status of the route, [{"detail": ...}] under the status of an
    [HTTPException], 422 for a validation error, and the plain page
    "Internal Server Error" for an exception no handler catches. *)
Definition respond (o : outcome response) : Response :=
  match o with
  | Ok (token_response t) => {| status_code := 200; content := json_body (j_token t) |}
  | Ok (movies_response l) => {| status_code := 200; content := json_body (j_movies l) |}
  | Ok (movie_response status m) =>
      {| status_code := status; content := json_body (j_movie m) |}
  | Ok (empty_response status) => {| status_code := status; content := empty_body |}
  | Raise (HTTPException status detail) =>
      {| status_code := status; content := json_body (j_detail detail) |}
  | Raise (RequestValidationError loc type_) =>
      {| status_code := 422; content := json_body (j_validation loc type_) |}
  | Raise (IntegrityError _) | Raise (OverflowError _) | Raise (OperationalError _)
  | Raise (TypeError _) =>
      {| status_code := 500; content := error_page |}
  end.

(** A number JSON can carry: neither a NaN nor an infinity.  The bodies
    below are taken to be sent as they are, so what is stated of a request
    or an answer with a rating is stated for such numbers. *)
Definition json_number (v : option float) : bool :=
  match v with Some f => PrimFloat.is_finite f | None => true end.

(** [response.json()]: the body, or the message of the decoding error. *)
Definition response_json (r : Response) : string + json :=
  match content r with
  | json_body j => inr j
  | empty_body | error_page => inl "Expecting value: line 1 column 1 (char 0)"
  end.

(** [j["access_token"]]: the value, or the message of the error raised. *)
Definition access_token_of (j : json) : string + string :=
  match j with
  | j_token t => inr (access_token t)
  | j_movies _ => inl "list indices must be integers or slices, not str"
  | j_movie _ | j_detail _ | j_validation _ _ => inl "'access_token'"
  end.

(** The credentials that reach [get_current_user] from the header
    [f"Bearer {token}"]: what follows the scheme, none when that is
    empty. *)
Definition Authorization (token : py) : option string :=
  if nonempty (str token) then Some (str token) else None.

(** *** The browser *)

(** [st.session_state]; a key that was never set is [None] here. *)
Record session : Type := {
  ss_token : option py;
  ss_username : option py;
  ss_movies : option (list Movie)
}.

Inductive shown : Type :=
  | st_title (s : string)
  | st_tabs (labels : list string)
  | st_subheader (s : string)
  | st_text_input (label : string)
  | st_button (label : string)
  | st_success (s : string)
  | st_error (s : string)
  | st_warning (s : string).

Record browser : Type := {
  session_state : session;
  screen : list shown;
  network : option string
}.

(** A script run either goes on or is cut short by [st.rerun()]. *)
Inductive flow (A : Type) : Type :=
  | done (a : A)
  | rerun.
Arguments done {A} a.
Arguments rerun {A}.

Definition UI (A : Type) : Type := browser * world -> flow A * (browser * world).

#[global] Instance UI_ret : MRet UI := fun A a s => (done a, s).
#[global] Instance UI_bind : MBind UI := fun A B f m s =>
  match m s with
  | (done a, s') => f a s'
  | (rerun, s') => (rerun, s')
  end.

Definition show (x : shown) : UI unit :=
  fun '(b, w) =>
    (done tt, ({| session_state := session_state b; screen := screen b ++ [x];
                  network := network b |}, w)).

(** Several things shown in a row. *)
Definition shows (l : list shown) (b : browser) : browser :=
  {| session_state := session_state b; screen := screen b ++ l; network := network b |}.

(** [st.rerun()] *)
Definition st_rerun {A : Type} : UI A := fun s => (rerun, s).

Definition set_session (f : session -> session) : UI unit :=
  fun '(b, w) =>
    (done tt, ({| session_state := f (session_state b); screen := screen b;
                  network := network b |}, w)).

(** What [requests.get/post/put/delete] gives: a response, or an exception
    with its message. *)
Inductive sent : Type :=
  | Delivered (response : Response)
  | RequestException (message : string).

(** [init_session_state()] *)
Definition init_session_state : UI unit :=
  set_session (fun ss =>
    {| ss_token := match ss_token ss with None => Some py_None | Some v => Some v end;
       ss_username := match ss_username ss with None => Some py_None | Some v => Some v end;
       ss_movies := match ss_movies ss with None => Some [] | Some l => Some l end |}).

(** The widgets of the login page, as one script run reads them. *)
Record login_page : Type := {
  login_username : string;
  login_password : string;
  login_clicked : bool;
  reg_username : string;
  reg_password : string;
  reg_password_confirm : string;
  register_clicked : bool
}.

Section Client.

Variable decode_access_token : Z -> string -> option TokenData.
Variable verify_password : string -> string -> bool.
Variable get_password_hash : Z -> string -> string.
Variable create_access_token : Z -> list (string * string) -> Z -> string.
Variable ACCESS_TOKEN_EXPIRE_MINUTES : Z.
(** [response.text] of a JSON body is the serialisation the transport
    made. *)
Variable dumps : json -> string.

Definition text (r : Response) : string :=
  match content r with
  | json_body j => dumps j
  | empty_body => ""
  | error_page => "Internal Server Error"
  end.

(** One HTTP exchange with the backend at [API_URL]. *)
Definition requests (req : request) : UI sent :=
  fun '(b, w) =>
    match network b with
    | Some message => (done (RequestException message), (b, w))
    | None =>
        let '(o, w') :=
          app decode_access_token verify_password get_password_hash
            create_access_token ACCESS_TOKEN_EXPIRE_MINUTES req w in
        (done (Delivered (respond o)), (b, w'))
    end.

Definition login (username password : string) : UI (option string) :=
  sent ← requests (POST_login {| uc_username := username; uc_password := password |});
  match sent with
  | Delivered response =>
      if status_code response =? 200 then
        match response_json response with
        | inr j =>
            match access_token_of j with
            | inr t => mret (Some t)
            | inl e => show (st_error ("Login error: " +:+ e));; mret None
            end
        | inl e => show (st_error ("Login error: " +:+ e));; mret None
        end
      else mret None
  | RequestException e =>
      show (st_error ("Login error: " +:+ e));; mret None
  end.

(** The [timeout=5] of [register] is left out: a response that is delivered
    is taken to arrive within it.  SQLite waits as long for a lock, so what
    is stated of [register] below is stated for a database that is not
    locked. *)
Definition register (username password : string) : UI bool :=
  sent ← requests (POST_register {| uc_username := username; uc_password := password |});
  match sent with
  | Delivered response =>
      if (status_code response =? 200) || (status_code response =? 201) then
        mret true
      else
        (if status_code response =? 400 then
           show (st_error "Username already exists")
         else
           show (st_error ("Register failed: " +:+ text response)));;
        mret false
  | RequestException e =>
      show (st_error ("Registration error: " +:+ e));; mret false
  end.

Definition get_movies (token : py) : UI json :=
  sent ← requests (GET_movies (Authorization token));
  match sent with
  | Delivered response =>
      if status_code response =? 200 then
        match response_json response with
        | inr j => mret j
        | inl e => show (st_error ("Error fetching movies: " +:+ e));; mret (j_movies [])
        end
      else mret (j_movies [])
  | RequestException e =>
      show (st_error ("Error fetching movies: " +:+ e));; mret (j_movies [])
  end.

Definition create_movie (token : py) (movie_data : MovieCreate_body) : UI bool :=
  sent ← requests (POST_movies (Authorization token) movie_data);
  match sent with
  | Delivered response => mret (status_code response =? 201)
  | RequestException e =>
      show (st_error ("Error creating movie: " +:+ e));; mret false
  end.

Definition update_movie (token : py) (movie_id : Z) (movie_data : MovieUpdate) : UI bool :=
  sent ← requests (PUT_movie (Authorization token) movie_id movie_data);
  match sent with
  | Delivered response => mret (status_code response =? 200)
  | RequestException e =>
      show (st_error ("Error updating movie: " +:+ e));; mret false
  end.

Definition delete_movie (token : py) (movie_id : Z) : UI bool :=
  sent ← requests (DELETE_movie (Authorization token) movie_id);
  match sent with
  | Delivered response => mret (status_code response =? 204)
  | RequestException e =>
      show (st_error ("Error deleting movie: " +:+ e));; mret false
  end.

(** The block [with tab1:] of [show_login_page]. *)
Definition login_tab (page : login_page) : UI unit :=
  show (st_subheader "Login");;
  show (st_text_input "Username");;
  let username := login_username page in
  show (st_text_input "Password");;
  let password := login_password page in
  show (st_button "Login");;
  if login_clicked page then
    if nonempty username && nonempty password then
      token ← login username password;
      match token with
      | Some token =>
          if nonempty token then
            set_session (fun ss =>
              {| ss_token := Some (py_str token); ss_username := ss_username ss;
                 ss_movies := ss_movies ss |});;
            set_session (fun ss =>
              {| ss_token := ss_token ss; ss_username := Some (py_str username);
                 ss_movies := ss_movies ss |});;
            show (st_success "Logged in successfully!");;
            st_rerun
          else show (st_error "Invalid username or password")
      | None => show (st_error "Invalid username or password")
      end
    else show (st_warning "Please enter username and password")
  else mret tt.

(** The block [with tab2:] of [show_login_page]. *)
Definition register_tab (page : login_page) : UI unit :=
  show (st_subheader "Register");;
  show (st_text_input "Username");;
  show (st_text_input "Password");;
  show (st_text_input "Confirm Password");;
  show (st_button "Register");;
  if register_clicked page then
    if nonempty (reg_username page) && nonempty (reg_password page)
       && nonempty (reg_password_confirm page) then
      if negb (String.eqb (reg_password page) (reg_password_confirm page)) then
        show (st_error "Passwords do not match")
      else if len (reg_password page) <? 4 then
        show (st_error "Password must be at least 4 characters")
      else
        register (reg_username page) (reg_password page) ≫= fun token : bool =>
        if token then
          set_session (fun ss =>
            {| ss_token := Some (py_bool token); ss_username := ss_username ss;
               ss_movies := ss_movies ss |});;
          set_session (fun ss =>
            {| ss_token := ss_token ss; ss_username := Some (py_str (reg_username page));
               ss_movies := ss_movies ss |});;
          show (st_success "Registered successfully!");;
          st_rerun
        else mret tt
    else show (st_warning "Please fill in all fields")
  else mret tt.

Definition show_login_page (page : login_page) : UI unit :=
  show (st_title "Movie Manager");;
  show (st_tabs ["Login"; "Register"]);;
  login_tab page;;
  register_tab page.

End Client.

End frontend.

(** *** A browser for the examples *)

Definition demo_dumps (j : frontend.json) : string :=
  match j with
  | frontend.j_detail detail => detail
  | _ => "json"
  end.

Definition demo_browser : frontend.browser :=
  {| frontend.session_state :=
       {| frontend.ss_token := Some frontend.py_None;
          frontend.ss_username := Some frontend.py_None;
          frontend.ss_movies := Some [] |};
     frontend.screen := [];
     frontend.network := None |}.

Definition demo_login_page : frontend.login_page -> frontend.UI unit :=
  frontend.show_login_page demo_decode_access_token demo_verify_password
    demo_get_password_hash demo_create_access_token 30 demo_dumps.

Definition demo_client_get_movies : frontend.py -> frontend.UI frontend.json :=
  frontend.get_movies demo_decode_access_token demo_verify_password
    demo_get_password_hash demo_create_access_token 30.

Definition demo_client_delete_movie : frontend.py -> Z -> frontend.UI bool :=
  frontend.delete_movie demo_decode_access_token demo_verify_password
    demo_get_password_hash demo_create_access_token 30.

Definition demo_client_register : string -> string -> frontend.UI bool :=
  frontend.register demo_decode_access_token demo_verify_password
    demo_get_password_hash demo_create_access_token 30 demo_dumps.

(** The login tab filled in and its button pressed. *)
Definition login_as (username password : string) : frontend.login_page :=
  {| frontend.login_username := username; frontend.login_password := password;
     frontend.login_clicked := true;
     frontend.reg_username := ""; frontend.reg_password := "";
     frontend.reg_password_confirm := ""; frontend.register_clicked := false |}.

(** The register tab filled in and its button pressed. *)
Definition register_as (username password confirm : string) : frontend.login_page :=
  {| frontend.login_username := ""; frontend.login_password := "";
     frontend.login_clicked := false;
     frontend.reg_username := username; frontend.reg_password := password;
     frontend.reg_password_confirm := confirm; frontend.register_clicked := true |}.

(** ** Further notions: footprints, failures, retired ids *)

(** A computation that commits at most the effect of one statement, and
    only a statement that [P] allows. *)
Definition commits_only {A : Type} (P : statement -> Prop) (m : M A) : Prop :=
  forall w,
    w_env (snd (m w)) = w_env w /\
    (w_db (snd (m w)) = w_db w \/
     exists st cur,
       P st /\
       run_statement (clock (w_env w)) st (w_db w) = Ok (w_db (snd (m w)), cur)).

(** A computation whose failures leave the committed database as it was. *)
Definition fails_clean {A : Type} (m : M A) : Prop :=
  forall w e w', m w = (Raise e, w') -> w_db w' = w_db w.

(** Whether a computation returned. *)
Definition succeeded {A : Type} (o : outcome A) : bool :=
  match o with Ok _ => true | Raise _ => false end.

(** The status a route answers with when it returns. *)
Definition success_status (req : request) : Z :=
  match req with
  | POST_movies _ _ => 201
  | DELETE_movie _ _ => 204
  | _ => 200
  end.

(** The statements that write to [movies] on behalf of one user. *)
Definition writes_for (uid : Z) (st : statement) : Prop :=
  match st with
  | INSERT_movies _ owner => owner = uid
  | UPDATE_movies _ where_ => In (user_id_eq uid) where_
  | DELETE_movies where_ => In (user_id_eq uid) where_
  | _ => False
  end.

(** The user a request is served for: the one its token resolves to. *)
Definition caller_of (decode_access_token : Z -> string -> option TokenData)
    (req : request) (w : world) : option User :=
  match authorization_of req with
  | Some authorization =>
      match fst (current_user_of decode_access_token authorization w) with
      | Ok u => Some u
      | Raise _ => None
      end
  | None => None
  end.

(** What a route may commit for the caller its token resolves to: one
    statement of its own kind, bound to the id of that caller. *)
Definition footprint (req : request) (caller : option User) (st : statement) : Prop :=
  match req, st with
  | POST_register user, INSERT_users username _ => username = uc_username user
  | POST_movies _ _, INSERT_movies _ owner =>
      exists u, caller = Some u /\ owner = user_ident u
  | PUT_movie _ movie_id body, UPDATE_movies set_ where_ =>
      set_ = model_dump_exclude_unset body /\
      exists u, caller = Some u /\
                where_ = [id_eq movie_id; user_id_eq (user_ident u)]
  | DELETE_movie _ movie_id, DELETE_movies where_ =>
      exists u, caller = Some u /\
                where_ = [id_eq movie_id; user_id_eq (user_ident u)]
  | _, _ => False
  end.

(** A request that carries an integer SQLite cannot hold. *)
Definition oversized (req : request) : Prop :=
  match req with
  | POST_movies _ body => fits (default_None (body_year body)) = false
  | GET_movie _ movie_id | DELETE_movie _ movie_id => in_int64 movie_id = false
  | PUT_movie _ movie_id body =>
      in_int64 movie_id = false \/ fits (default_None (mu_year body)) = false
  | POST_register _ | POST_login _ | GET_movies _ => False
  end.

(** The routes that write. *)
Definition writing_route (req : request) : Prop :=
  match req with
  | POST_register _ | POST_movies _ _ | PUT_movie _ _ _ | DELETE_movie _ _ => True
  | POST_login _ | GET_movies _ | GET_movie _ _ => False
  end.

(** The exceptions a route lets through to the transport, served on the
    world [w]. *)
Definition expected (req : request) (w : world) (e : exn) : Prop :=
  match e with
  | HTTPException 400 detail =>
      detail = "Username already registered" /\ exists user, req = POST_register user
  | HTTPException 401 detail =>
      (detail = "Incorrect username or password" /\ exists user, req = POST_login user)
      \/ exists a, authorization_of req = Some a
  | HTTPException 404 detail =>
      exists a, authorization_of req = Some a
  | HTTPException _ _ => False
  | RequestValidationError _ _ =>
      exists a body, req = POST_movies a body /\
                     (body_title body = unset \/ body_title body = given None)
  | IntegrityError msg =>
      msg = "NOT NULL constraint failed: movies.title" /\
      exists a movie_id body, req = PUT_movie a movie_id body /\
                              mu_title body = given None
  | OverflowError _ => oversized req
  | OperationalError msg =>
      (msg = "database is locked" /\ w_locked w = true /\ writing_route req) \/
      (msg = "database or disk is full" /\
       ((exists user, req = POST_register user) /\ ~ room_for_user (w_db w) \/
        (exists a body, req = POST_movies a body) /\ ~ room_for_movie (w_db w)))
  | TypeError _ => False
  end.

(** Every movie is owned by a registered user. *)
Definition owners_exist (db : database) : Prop :=
  forall r, In r (movies db) -> exists u, In u (users db) /\ u_id u = m_user_id r.

(** User ids are distinct and none is beyond the AUTOINCREMENT counter. *)
Definition users_pk (db : database) : Prop :=
  NoDup (map u_id (users db)) /\ forall u, In u (users db) -> u_id u <= users_seq db.

(** An id the table issued once and holds no more. *)
Definition retired (db : database) (movie_id : Z) : Prop :=
  movie_id <= movies_seq db /\ forall r, In r (movies db) -> m_id r <> movie_id.

(** * Properties *)

(** ** Lists and clauses *)

Arguments matches : simpl never.
Arguments next_rowid : simpl never.

Lemma matches_owned (movie_id uid : Z) (r : movie_row) :
  matches [id_eq movie_id; user_id_eq uid] r = true <->
  m_id r = movie_id /\ m_user_id r = uid.
Proof.
  unfold matches; simpl.
  rewrite !andb_true_iff, !Z.eqb_eq. tauto.
Qed.

Lemma matches_id (movie_id : Z) (r : movie_row) :
  matches [id_eq movie_id] r = true <-> m_id r = movie_id.
Proof.
  unfold matches; simpl. rewrite andb_true_iff, Z.eqb_eq. tauto.
Qed.

Lemma matches_owner (uid : Z) (r : movie_row) :
  matches [user_id_eq uid] r = true <-> m_user_id r = uid.
Proof.
  unfold matches; simpl. rewrite andb_true_iff, Z.eqb_eq. tauto.
Qed.

Lemma filter_none {A : Type} (f : A -> bool) (l : list A) :
  (forall x, In x l -> f x = false) -> List.filter f l = [].
Proof.
  induction l as [|a l IH]; intros H; simpl; [reflexivity|].
  rewrite (H a) by (left; reflexivity).
  apply IH. intros x Hx. apply H. right; exact Hx.
Qed.

Lemma filter_no_match {A : Type} (f : A -> bool) (l : list A) :
  List.filter f l = [] -> forall x, In x l -> f x = false.
Proof.
  intros Hnil x Hx. destruct (f x) eqn:E; [|reflexivity].
  assert (Hin : In x (List.filter f l)) by (apply filter_In; auto).
  rewrite Hnil in Hin. destruct Hin.
Qed.

Lemma next_rowid_above (seq : Z) (ids : list Z) :
  seq < next_rowid seq ids /\ forall x, In x ids -> x < next_rowid seq ids.
Proof.
  unfold next_rowid. induction ids as [|a ids [IH1 IH2]]; simpl.
  - split; [lia|]. intros x [].
  - split; [lia|]. intros x [->|Hx]; [lia|]. specialize (IH2 x Hx). lia.
Qed.

(** Under the primary key, two rows of the table with one id are one row. *)
Lemma pk_same_row (rows : list movie_row) (r r' : movie_row) :
  NoDup (map m_id rows) -> In r rows -> In r' rows -> m_id r = m_id r' -> r = r'.
Proof.
  induction rows as [|a rows IH]; simpl; intros Hnd Hr Hr' Hid; [destruct Hr|].
  inversion Hnd as [|? ? Hnotin Hnd']; subst.
  destruct Hr as [->|Hr], Hr' as [->|Hr']; auto.
  - exfalso. apply Hnotin. rewrite Hid. apply list_elem_of_In, in_map, Hr'.
  - exfalso. apply Hnotin. rewrite <- Hid. apply list_elem_of_In, in_map, Hr.
Qed.

Lemma pk_select (where_ : list condition) (rows : list movie_row) (r : movie_row) :
  NoDup (map m_id rows) -> In r rows -> matches where_ r = true ->
  (forall x, matches where_ x = true -> m_id x = m_id r) ->
  List.filter (matches where_) rows = [r].
Proof.
  intros Hnd Hr Hm Hid. induction rows as [|a rows IH]; simpl; [destruct Hr|].
  inversion Hnd as [|? ? Hnotin Hnd']; subst.
  destruct Hr as [->|Hr].
  - rewrite Hm. f_equal. apply filter_none. intros x Hx.
    destruct (matches where_ x) eqn:E; [|reflexivity].
    apply Hid in E. exfalso. apply Hnotin. rewrite <- E.
    apply list_elem_of_In, in_map, Hx.
  - destruct (matches where_ a) eqn:E.
    + apply Hid in E. exfalso. apply Hnotin. rewrite E.
      apply list_elem_of_In, in_map, Hr.
    + apply IH; assumption.
Qed.

Lemma pk_select_id (rows : list movie_row) (r : movie_row) :
  NoDup (map m_id rows) -> In r rows ->
  List.filter (matches [id_eq (m_id r)]) rows = [r].
Proof.
  intros Hnd Hr. apply pk_select; auto.
  - apply matches_id. reflexivity.
  - intros x Hx. apply matches_id in Hx. exact Hx.
Qed.

Lemma pk_select_owned (rows : list movie_row) (r : movie_row) :
  NoDup (map m_id rows) -> In r rows ->
  List.filter (matches [id_eq (m_id r); user_id_eq (m_user_id r)]) rows = [r].
Proof.
  intros Hnd Hr. apply pk_select; auto.
  - apply matches_owned. auto.
  - intros x Hx. apply matches_owned in Hx. tauto.
Qed.

Lemma not_owned_no_rows (db : database) (movie_id : Z) (caller : User) :
  movies_pk db ->
  absent db movie_id \/ foreign db movie_id caller ->
  List.filter (matches [id_eq movie_id; user_id_eq (user_ident caller)]) (movies db) = [].
Proof.
  intros Hpk Hcase. apply filter_none. intros x Hx.
  destruct (matches _ x) eqn:E; [|reflexivity].
  apply matches_owned in E. destruct E as [Eid Eown].
  destruct Hcase as [Habs|(r & Hr & Hid & Hown)].
  - exfalso. exact (Habs x Hx Eid).
  - assert (x = r) by (apply (pk_same_row (movies db)); auto; congruence).
    subst x. contradiction.
Qed.

Lemma w_trace_emits (evs : list event) (w : world) :
  w_trace (emits evs w) = w_trace w ++ evs.
Proof.
  revert w. induction evs as [|ev evs IH]; intros w; simpl.
  - symmetry. apply app_nil_r.
  - unfold emits in *. simpl. rewrite IH. simpl.
    rewrite <- app_assoc. reflexivity.
Qed.

Lemma w_db_emits (evs : list event) (w : world) : w_db (emits evs w) = w_db w.
Proof.
  revert w. induction evs as [|ev evs IH]; intros w; [reflexivity|].
  unfold emits in *. simpl. rewrite IH. reflexivity.
Qed.

(** ** What each movie handler computes *)

Arguments in_int64 : simpl never.
Arguments stored : simpl never.

Local Abbreviation too_large :=
  (OverflowError "Python int too large to convert to SQLite INTEGER").
Local Abbreviation is_locked := (OperationalError "database is locked").
Local Abbreviation is_full := (OperationalError "database or disk is full").
Local Abbreviation not_found := (HTTPException 404 "Movie not found").

Ltac run_handler :=
  unfold mbind, M_bind, mret, M_ret, raise, get_db, execute, commit, close, bind,
    fetchone, fetchone_user, fetchall, ask; simpl.

Lemma world_ext (w w' : world) :
  w_db w = w_db w' -> w_env w = w_env w' -> w_trace w = w_trace w' ->
  w_locked w = w_locked w' -> w = w'.
Proof. destruct w, w'; simpl; intros; subst; reflexivity. Qed.

Lemma w_env_emits (evs : list event) (w : world) : w_env (emits evs w) = w_env w.
Proof.
  revert w. induction evs as [|ev evs IH]; intros w; [reflexivity|].
  unfold emits in *. simpl. rewrite IH. reflexivity.
Qed.

Lemma w_locked_emits (evs : list event) (w : world) :
  w_locked (emits evs w) = w_locked w.
Proof.
  revert w. induction evs as [|ev evs IH]; intros w; [reflexivity|].
  unfold emits in *. simpl. rewrite IH. reflexivity.
Qed.

(** A world is what its four parts are. *)
Lemma world_is (w' w : world) (evs : list event) :
  w_db w' = w_db w -> w_env w' = w_env w -> w_trace w' = w_trace w ++ evs ->
  w_locked w' = w_locked w -> w' = emits evs w.
Proof.
  intros Hd He Ht Hl. apply world_ext.
  - rewrite w_db_emits. exact Hd.
  - rewrite w_env_emits. exact He.
  - rewrite w_trace_emits. exact Ht.
  - rewrite w_locked_emits. exact Hl.
Qed.

Lemma in_int64_bounds (z : Z) :
  in_int64 z = true <-> INT64_MIN <= z <= INT64_MAX.
Proof.
  unfold in_int64. rewrite andb_true_iff, !Z.leb_le. tauto.
Qed.

(** *** Reading *)

Lemma get_movies_run (u : User) (w : world) :
  let query := SELECT_movies movie_columns [user_id_eq (user_ident u)] in
  get_movies u w =
  if in_int64 (user_ident u) then
    (Ok (map dict (List.filter (matches [user_id_eq (user_ident u)]) (movies (w_db w)))),
     emits [ev_connect; ev_execute query; ev_close] w)
  else (Raise too_large, emits [ev_connect; ev_execute query] w).
Proof.
  unfold get_movies. run_handler. destruct (in_int64 _); reflexivity.
Qed.

Lemma get_movie_run (movie_id : Z) (u : User) (w : world) :
  let owned := [id_eq movie_id; user_id_eq (user_ident u)] in
  get_movie movie_id u w =
  if in_int64 movie_id && in_int64 (user_ident u) then
    (match head (List.filter (matches owned) (movies (w_db w))) with
     | Some r => Ok (dict r)
     | None => Raise not_found
     end,
     emits [ev_connect; ev_execute (SELECT_movies movie_columns owned); ev_close] w)
  else
    (Raise too_large,
     emits [ev_connect; ev_execute (SELECT_movies movie_columns owned)] w).
Proof.
  unfold get_movie. run_handler.
  destruct (in_int64 movie_id), (in_int64 (user_ident u)); simpl; try reflexivity.
  destruct (head _); reflexivity.
Qed.

(** *** Deleting *)

Lemma delete_movie_overflow (movie_id : Z) (u : User) (w : world) :
  in_int64 movie_id && in_int64 (user_ident u) = false ->
  delete_movie movie_id u w =
  (Raise too_large,
   emits [ev_connect;
          ev_execute (DELETE_movies [id_eq movie_id; user_id_eq (user_ident u)])] w).
Proof.
  intros H. unfold delete_movie. run_handler.
  destruct (in_int64 movie_id), (in_int64 (user_ident u)); simpl in *;
    try discriminate H; reflexivity.
Qed.

Lemma delete_movie_locked (movie_id : Z) (u : User) (w : world) :
  in_int64 movie_id = true -> in_int64 (user_ident u) = true ->
  w_locked w = true ->
  delete_movie movie_id u w =
  (Raise is_locked,
   emits [ev_connect;
          ev_execute (DELETE_movies [id_eq movie_id; user_id_eq (user_ident u)])] w).
Proof.
  intros Hid Hu Hl. unfold delete_movie. run_handler.
  rewrite Hid, Hu, Hl. reflexivity.
Qed.

Lemma delete_movie_none (movie_id : Z) (u : User) (w : world) :
  in_int64 movie_id = true -> in_int64 (user_ident u) = true ->
  w_locked w = false ->
  List.filter (matches [id_eq movie_id; user_id_eq (user_ident u)]) (movies (w_db w)) = [] ->
  delete_movie movie_id u w =
  (Raise not_found,
   emits [ev_connect;
          ev_execute (DELETE_movies [id_eq movie_id; user_id_eq (user_ident u)]);
          ev_close] w).
Proof.
  intros Hid Hu Hl Hnil. unfold delete_movie. run_handler.
  rewrite Hid, Hu, Hl, Hnil. simpl. f_equal.
  apply world_ext; simpl; auto.
Qed.

Lemma delete_movie_some (movie_id : Z) (u : User) (w : world) (r0 : movie_row) :
  let owned := [id_eq movie_id; user_id_eq (user_ident u)] in
  in_int64 movie_id = true -> in_int64 (user_ident u) = true ->
  w_locked w = false ->
  head (List.filter (matches owned) (movies (w_db w))) = Some r0 ->
  exists w',
    delete_movie movie_id u w = (Ok tt, w') /\
    w_db w' = {| users := users (w_db w); users_seq := users_seq (w_db w);
                 movies := List.filter (fun r => negb (matches owned r)) (movies (w_db w));
                 movies_seq := movies_seq (w_db w) |} /\
    w_env w' = w_env w /\
    w_locked w' = false /\
    w_trace w' = w_trace w ++
      [ev_connect; ev_execute (DELETE_movies owned); ev_commit; ev_close].
Proof.
  intros owned Hid Hu Hl Hsome. subst owned. unfold delete_movie. run_handler.
  rewrite Hid, Hu, Hl. simpl.
  destruct (List.filter _ (movies (w_db w))) as [|x l]; [discriminate|].
  simpl length. replace (Z.of_nat (S (length l)) =? 0) with false
    by (symmetry; apply Z.eqb_neq; lia).
  eexists. split; [reflexivity|]. simpl. repeat split.
  rewrite <- !app_assoc. reflexivity.
Qed.

(** Whatever [delete_movie] does, it raises or returns, and when it raises
    the database is as it was. *)
Lemma delete_movie_cases (movie_id : Z) (u : User) (w : world) :
  let owned := [id_eq movie_id; user_id_eq (user_ident u)] in
  (in_int64 movie_id && in_int64 (user_ident u) = false /\
   delete_movie movie_id u w =
     (Raise too_large, emits [ev_connect; ev_execute (DELETE_movies owned)] w)) \/
  (w_locked w = true /\
   delete_movie movie_id u w =
     (Raise is_locked, emits [ev_connect; ev_execute (DELETE_movies owned)] w)) \/
  (w_locked w = false /\
   delete_movie movie_id u w =
     (Raise not_found,
      emits [ev_connect; ev_execute (DELETE_movies owned); ev_close] w)) \/
  (in_int64 movie_id = true /\ in_int64 (user_ident u) = true /\ w_locked w = false /\
   exists r0 w',
     head (List.filter (matches owned) (movies (w_db w))) = Some r0 /\
     delete_movie movie_id u w = (Ok tt, w') /\
     w_db w' = {| users := users (w_db w); users_seq := users_seq (w_db w);
                  movies := List.filter (fun r => negb (matches owned r)) (movies (w_db w));
                  movies_seq := movies_seq (w_db w) |} /\
     w_env w' = w_env w /\ w_locked w' = false).
Proof.
  intros owned. subst owned.
  destruct (in_int64 movie_id) eqn:Hid; [|left; split; [reflexivity|];
    apply delete_movie_overflow; rewrite Hid; reflexivity].
  destruct (in_int64 (user_ident u)) eqn:Hu; [|left; split; [reflexivity|];
    apply delete_movie_overflow; rewrite Hid, Hu; reflexivity].
  destruct (w_locked w) eqn:Hl.
  - right; left. split; [reflexivity|]. apply delete_movie_locked; assumption.
  - destruct (head (List.filter (matches [id_eq movie_id; user_id_eq (user_ident u)])
                      (movies (w_db w)))) as [r0|] eqn:Hsome.
    + right; right; right. repeat (split; [reflexivity|]).
      destruct (delete_movie_some _ _ _ _ Hid Hu Hl Hsome) as (w' & H1 & H2 & H3 & H4 & _).
      exists r0, w'. auto.
    + right; right; left. split; [reflexivity|].
      apply delete_movie_none; try assumption.
      destruct (List.filter _ _); [reflexivity|discriminate].
Qed.

(** *** Updating: the first query *)

Lemma update_movie_overflow (movie_id : Z) (movie_update : MovieUpdate) (u : User)
    (w : world) :
  in_int64 movie_id && in_int64 (user_ident u) = false ->
  update_movie movie_id movie_update u w =
  (Raise too_large,
   emits [ev_connect;
          ev_execute (SELECT_movies "*" [id_eq movie_id; user_id_eq (user_ident u)])] w).
Proof.
  intros H. unfold update_movie. run_handler.
  destruct (in_int64 movie_id), (in_int64 (user_ident u)); simpl in *;
    try discriminate H; reflexivity.
Qed.

Lemma update_movie_none (movie_id : Z) (movie_update : MovieUpdate) (u : User) (w : world) :
  in_int64 movie_id = true -> in_int64 (user_ident u) = true ->
  List.filter (matches [id_eq movie_id; user_id_eq (user_ident u)]) (movies (w_db w)) = [] ->
  update_movie movie_id movie_update u w =
  (Raise not_found,
   emits [ev_connect;
          ev_execute (SELECT_movies "*" [id_eq movie_id; user_id_eq (user_ident u)]);
          ev_close] w).
Proof.
  intros Hid Hu Hnil. unfold update_movie. run_handler.
  rewrite Hid, Hu, Hnil. reflexivity.
Qed.

(** *** Creating *)

Section Creating.

Variables (movie : MovieCreate) (u : User) (w : world).

Let insert := INSERT_movies movie (user_ident u).

Lemma create_movie_overflow :
  fits (mc_year movie) && in_int64 (user_ident u) = false ->
  create_movie movie u w = (Raise too_large, emits [ev_connect; ev_execute insert] w).
Proof.
  intros H. unfold create_movie. run_handler.
  destruct (mc_director movie), (mc_genre movie), (mc_rating movie),
    (mc_description movie); simpl;
    destruct (mc_year movie) as [y|]; simpl in *;
    try destruct (in_int64 y); simpl in *;
    destruct (in_int64 (user_ident u)); simpl in *; try discriminate H; reflexivity.
Qed.

Lemma create_movie_locked :
  fits (mc_year movie) = true -> in_int64 (user_ident u) = true ->
  w_locked w = true ->
  create_movie movie u w = (Raise is_locked, emits [ev_connect; ev_execute insert] w).
Proof.
  intros Hy Hu Hl. unfold create_movie. run_handler.
  destruct (mc_director movie), (mc_genre movie), (mc_rating movie),
    (mc_description movie); simpl;
    destruct (mc_year movie) as [y|]; simpl in *;
    rewrite ?Hy, Hu, Hl; reflexivity.
Qed.

Lemma create_movie_full :
  fits (mc_year movie) = true -> in_int64 (user_ident u) = true ->
  w_locked w = false ->
  ~ room_for_movie (w_db w) ->
  exists w',
    create_movie movie u w = (Raise is_full, w') /\
    w_db w' = w_db w /\ w_env w' = w_env w /\ w_locked w' = false.
Proof.
  intros Hy Hu Hl Hfull. unfold room_for_movie in Hfull.
  apply not_true_is_false in Hfull.
  unfold create_movie. run_handler. unfold new_rowid.
  destruct (mc_director movie), (mc_genre movie), (mc_rating movie),
    (mc_description movie); simpl;
    destruct (mc_year movie) as [y|]; simpl in *;
    rewrite ?Hy, Hu, Hl, Hfull; simpl; eexists; repeat split.
Qed.

Lemma create_movie_run :
  fits (mc_year movie) = true -> in_int64 (user_ident u) = true ->
  w_locked w = false ->
  room_for_movie (w_db w) ->
  let rowid := next_rowid (movies_seq (w_db w)) (map m_id (movies (w_db w))) in
  let row := {| m_id := rowid; m_title := mc_title movie;
                m_director := mc_director movie; m_year := mc_year movie;
                m_genre := mc_genre movie; m_rating := stored (mc_rating movie);
                m_description := mc_description movie;
                m_user_id := user_ident u;
                m_created_at := clock (w_env w) |} in
  let created := {| id := rowid; title := mc_title movie;
                    director := mc_director movie; year := mc_year movie;
                    genre := mc_genre movie; rating := mc_rating movie;
                    description := mc_description movie;
                    user_id := user_ident u |} in
  exists w',
    create_movie movie u w = (Ok created, w') /\
    w_db w' = {| users := users (w_db w); users_seq := users_seq (w_db w);
                 movies := movies (w_db w) ++ [row]; movies_seq := rowid |} /\
    w_env w' = w_env w /\
    w_locked w' = false /\
    w_trace w' = w_trace w ++ [ev_connect; ev_execute insert; ev_commit; ev_close].
Proof.
  intros Hy Hu Hl Hroom rowid row created. unfold room_for_movie in Hroom.
  unfold create_movie. run_handler. unfold new_rowid.
  destruct (mc_director movie), (mc_genre movie), (mc_rating movie),
    (mc_description movie); simpl;
    destruct (mc_year movie) as [y|]; simpl in *;
    rewrite ?Hy, Hu, Hl, Hroom; simpl; eexists;
    (split; [reflexivity|]); simpl; repeat split;
    rewrite <- !app_assoc; reflexivity.
Qed.

(** [create_movie] returns only in the last of these cases. *)
Lemma create_movie_returned (created : Movie) (w' : world) :
  create_movie movie u w = (Ok created, w') ->
  fits (mc_year movie) = true /\ in_int64 (user_ident u) = true /\
  w_locked w = false /\ room_for_movie (w_db w).
Proof.
  intros H.
  destruct (fits (mc_year movie) && in_int64 (user_ident u)) eqn:Hb.
  - apply andb_true_iff in Hb. destruct Hb as [Hy Hu].
    destruct (w_locked w) eqn:Hl.
    + rewrite (create_movie_locked Hy Hu Hl) in H. discriminate H.
    + destruct (in_int64 (next_rowid (movies_seq (w_db w)) (map m_id (movies (w_db w)))))
        eqn:Hroom; [auto|].
      assert (Hfull : ~ room_for_movie (w_db w))
        by (unfold room_for_movie; rewrite Hroom; discriminate).
      destruct (create_movie_full Hy Hu Hl Hfull) as (w1 & Hrun & _).
      rewrite Hrun in H. discriminate H.
  - rewrite (create_movie_overflow Hb) in H. discriminate H.
Qed.

End Creating.

Lemma select_new_row (rows : list movie_row) (seq : Z) (row : movie_row) :
  m_id row = next_rowid seq (map m_id rows) ->
  List.filter (matches [id_eq (m_id row); user_id_eq (m_user_id row)]) (rows ++ [row])
  = [row].
Proof.
  intros Hid. rewrite List.filter_app. rewrite filter_none.
  - simpl. replace (matches _ row) with true; [reflexivity|].
    symmetry. apply matches_owned. split; reflexivity.
  - intros x Hx. destruct (matches _ x) eqn:E; [|reflexivity].
    apply matches_owned in E. destruct E as [E _].
    destruct (next_rowid_above seq (map m_id rows)) as [_ Hlt].
    specialize (Hlt (m_id x) (in_map m_id _ _ Hx)). lia.
Qed.

(** ** Ownership *)


(** C2, as the code has it.  For every caller and every id that is an
    integer SQLite can hold, when the table has no movie of that id and when
    it has one that another user owns, [get_movie] and [update_movie] raise
    one and the same 404 "Movie not found", and so does [delete_movie]
    unless an earlier request left the database locked, in which case it is
    refused with "database is locked" in both cases alike; each runs a
    single statement before raising, and the WHERE clause of that statement
    is the one predicate [id = ? AND user_id = ?] bound to the id and to the
    caller. *)
Theorem not_found_indistinguishable (w : world) (movie_id : Z) (caller : User)
    (movie_update : MovieUpdate) :
  movies_pk (w_db w) ->
  absent (w_db w) movie_id \/ foreign (w_db w) movie_id caller ->
  in_int64 movie_id = true ->
  in_int64 (user_ident caller) = true ->
  let owned := [id_eq movie_id; user_id_eq (user_ident caller)] in
  get_movie movie_id caller w =
    (Raise (HTTPException 404 "Movie not found"),
     emits [ev_connect; ev_execute (SELECT_movies movie_columns owned); ev_close] w) /\
  update_movie movie_id movie_update caller w =
    (Raise (HTTPException 404 "Movie not found"),
     emits [ev_connect; ev_execute (SELECT_movies "*" owned); ev_close] w) /\
  delete_movie movie_id caller w =
    (if w_locked w then
       (Raise (OperationalError "database is locked"),
        emits [ev_connect; ev_execute (DELETE_movies owned)] w)
     else
       (Raise (HTTPException 404 "Movie not found"),
        emits [ev_connect; ev_execute (DELETE_movies owned); ev_close] w)) /\
  kind_of (HTTPException 404 "Movie not found") = NotFound /\
  where_clause owned = "id = ? AND user_id = ?" /\
  map condition_param owned = [INTEGER movie_id; INTEGER (user_ident caller)].
Proof.
  intros Hpk Hcase Hid Hu owned. subst owned.
  pose proof (not_owned_no_rows _ _ _ Hpk Hcase) as Hnil.
  split; [|split; [|split; [|split; [|split]]]]; try reflexivity.
  - rewrite get_movie_run, Hid, Hu, Hnil. reflexivity.
  - apply update_movie_none; assumption.
  - destruct (w_locked w) eqn:Hl.
    + apply delete_movie_locked; assumption.
    + apply delete_movie_none; assumption.
Qed.

(** C2, as stated, fails for an id that is no SQLite INTEGER: no movie has
    that id, and the three handlers raise [OverflowError] while binding it,
    a fault and not NotFound. *)
Lemma not_found_big_id_counterexample :
  absent (w_db two_users_world) TOO_BIG /\
  fst (get_movie TOO_BIG bob two_users_world) =
    Raise (OverflowError "Python int too large to convert to SQLite INTEGER") /\
  fst (update_movie TOO_BIG no_fields bob two_users_world) =
    Raise (OverflowError "Python int too large to convert to SQLite INTEGER") /\
  fst (delete_movie TOO_BIG bob two_users_world) =
    Raise (OverflowError "Python int too large to convert to SQLite INTEGER") /\
  kind_of (OverflowError "Python int too large to convert to SQLite INTEGER") <> NotFound.
Proof.
  split; [intros r [<-|[]]; vm_compute; discriminate|].
  split; [reflexivity|]. split; [reflexivity|]. split; [reflexivity|].
  discriminate.
Qed.

(** ** Creation *)

(** C7, as the code has it.  When the year submitted is an integer SQLite
    can hold, the caller's id is one, the database is not locked and the
    table can issue a rowid, [create_movie] returns a record whose six
    fields are the submitted ones, whose id is the rowid the table assigned
    and whose [user_id] is the caller's id; [get_movie] on that id, by the
    same caller, returns that record with the rating as the table keeps it,
    hence the same record when the rating is kept exactly. *)
Theorem create_then_get (movie : MovieCreate) (caller : User) (w : world) :
  fits (mc_year movie) = true ->
  in_int64 (user_ident caller) = true ->
  w_locked w = false ->
  room_for_movie (w_db w) ->
  exists created w' w'',
    create_movie movie caller w = (Ok created, w') /\
    get_movie (id created) caller w' =
      (Ok {| id := id created; title := title created; director := director created;
             year := year created; genre := genre created;
             rating := stored (rating created);
             description := description created; user_id := user_id created |}, w'') /\
    (kept_exactly (mc_rating movie) ->
       get_movie (id created) caller w' = (Ok created, w'')) /\
    title created = mc_title movie /\
    director created = mc_director movie /\
    year created = mc_year movie /\
    genre created = mc_genre movie /\
    rating created = mc_rating movie /\
    description created = mc_description movie /\
    id created = next_rowid (movies_seq (w_db w)) (map m_id (movies (w_db w))) /\
    user_id created = user_ident caller.
Proof.
  intros Hy Hu Hl Hroom.
  destruct (create_movie_run movie caller w Hy Hu Hl Hroom) as (w' & Hrun & Hdb & _).
  eexists. exists w'. eexists. split; [exact Hrun|].
  assert (Hget : get_movie (next_rowid (movies_seq (w_db w)) (map m_id (movies (w_db w))))
                   caller w' =
                 (Ok {| id := next_rowid (movies_seq (w_db w)) (map m_id (movies (w_db w)));
                        title := mc_title movie; director := mc_director movie;
                        year := mc_year movie; genre := mc_genre movie;
                        rating := stored (mc_rating movie);
                        description := mc_description movie;
                        user_id := user_ident caller |},
                  emits [ev_connect;
                         ev_execute (SELECT_movies movie_columns
                                       [id_eq (next_rowid (movies_seq (w_db w))
                                                 (map m_id (movies (w_db w))));
                                        user_id_eq (user_ident caller)]);
                         ev_close] w')).
  { rewrite get_movie_run, Hu. unfold room_for_movie in Hroom. rewrite Hroom, Hdb.
    cbn [movies andb].
    match goal with |- context [List.filter _ (_ ++ [?row])] =>
      pose proof (select_new_row (movies (w_db w)) (movies_seq (w_db w)) row eq_refl) as Hsel
    end.
    cbn [m_id m_user_id] in Hsel. rewrite Hsel. reflexivity. }
  cbn [id title director year genre rating description user_id].
  split; [exact Hget|]. split; [|repeat split].
  intros Hkept. rewrite Hget. unfold kept_exactly in Hkept. rewrite Hkept. reflexivity.
Qed.

Lemma create_then_get_witness :
  fits (mc_year (full_movie 8.5%float)) = true /\
  in_int64 (user_ident alice) = true /\
  w_locked two_users_world = false /\
  room_for_movie (w_db two_users_world) /\
  kept_exactly (mc_rating (full_movie 8.5%float)) /\
  exists created w' w'',
    create_movie (full_movie 8.5%float) alice two_users_world = (Ok created, w') /\
    get_movie (id created) alice w' = (Ok created, w'') /\
    created = {| id := 2; title := "Dune"; director := Some "Denis Villeneuve";
                 year := Some 2021; genre := Some "Sci-Fi"; rating := Some 8.5%float;
                 description := Some "Spice"; user_id := 1 |}.
Proof.
  assert (Hkept : kept_exactly (mc_rating (full_movie 8.5%float))) by reflexivity.
  split; [reflexivity|]. split; [reflexivity|]. split; [reflexivity|].
  split; [reflexivity|]. split; [exact Hkept|].
  destruct (create_then_get (full_movie 8.5%float) alice two_users_world
              eq_refl eq_refl eq_refl eq_refl)
    as (created & w' & w'' & Hrun & _ & Hget & Ht & Hd & Hy & Hg & Hr & Hde & Hid & Hown).
  exists created, w', w''. split; [exact Hrun|]. split; [exact (Hget Hkept)|].
  destruct created; simpl in *. subst. reflexivity.
Defined.

(** C7, as stated, fails for a rating that is not a number: the movie is
    created with all six fields supplied, and [get_movie] on the returned id
    yields a record whose rating is null. *)
Lemma create_then_get_nan_counterexample :
  let first := create_movie (full_movie PrimFloat.nan) alice two_users_world in
  let created :=
    {| id := 2; title := "Dune"; director := Some "Denis Villeneuve";
       year := Some 2021; genre := Some "Sci-Fi"; rating := Some PrimFloat.nan;
       description := Some "Spice"; user_id := 1 |} in
  let got :=
    {| id := 2; title := "Dune"; director := Some "Denis Villeneuve";
       year := Some 2021; genre := Some "Sci-Fi"; rating := None;
       description := Some "Spice"; user_id := 1 |} in
  fst first = Ok created /\
  fst (get_movie (id created) alice (snd first)) = Ok got /\
  rating got <> mc_rating (full_movie PrimFloat.nan) /\
  got <> created.
Proof.
  split; [vm_compute; reflexivity|]. split; [vm_compute; reflexivity|].
  split; discriminate.
Qed.

Lemma two_users_pk : movies_pk two_users.
Proof.
  unfold movies_pk; simpl. apply NoDup_cons. split; [|apply NoDup_nil; exact I].
  intros H; inversion H.
Defined.


Lemma not_found_indistinguishable_witness :
  movies_pk (w_db two_users_world) /\
  foreign (w_db two_users_world) 1 bob /\
  absent (w_db two_users_world) 7 /\
  fst (get_movie 1 bob two_users_world) = fst (get_movie 7 bob two_users_world) /\
  fst (update_movie 1 no_fields bob two_users_world) =
    fst (update_movie 7 no_fields bob two_users_world) /\
  fst (delete_movie 1 bob two_users_world) = fst (delete_movie 7 bob two_users_world) /\
  fst (delete_movie 1 bob locked_world) = fst (delete_movie 7 bob locked_world).
Proof.
  assert (Hforeign : foreign (w_db two_users_world) 1 bob).
  { exists dune. split; [left; reflexivity|]. split; [reflexivity|]. simpl; lia. }
  assert (Habsent : absent (w_db two_users_world) 7).
  { intros r [<-|[]]. simpl; lia. }
  split; [exact two_users_pk|]. split; [exact Hforeign|]. split; [exact Habsent|].
  destruct (not_found_indistinguishable two_users_world 1 bob no_fields
              two_users_pk (or_intror Hforeign) eq_refl eq_refl) as (G1 & U1 & D1 & _).
  destruct (not_found_indistinguishable two_users_world 7 bob no_fields
              two_users_pk (or_introl Habsent) eq_refl eq_refl) as (G7 & U7 & D7 & _).
  destruct (not_found_indistinguishable locked_world 1 bob no_fields
              two_users_pk (or_intror Hforeign) eq_refl eq_refl) as (_ & _ & L1 & _).
  destruct (not_found_indistinguishable locked_world 7 bob no_fields
              two_users_pk (or_introl Habsent) eq_refl eq_refl) as (_ & _ & L7 & _).
  rewrite G1, G7, U1, U7, D1, D7, L1, L7. repeat split.
Defined.

(** ** Updates *)

Lemma assign_keeps (a : assignment) (r r' : movie_row) :
  assign a r = Ok r' ->
  m_id r' = m_id r /\ m_user_id r' = m_user_id r /\ m_created_at r' = m_created_at r.
Proof.
  destruct a as [[s|]|v|v|v|v|v]; simpl; intros H; inversion H; subst; simpl; auto.
Qed.

Lemma assign_all_keeps (set_ : list assignment) (r r' : movie_row) :
  assign_all set_ r = Ok r' ->
  m_id r' = m_id r /\ m_user_id r' = m_user_id r /\ m_created_at r' = m_created_at r.
Proof.
  revert r. induction set_ as [|a set_ IH]; simpl; intros r H.
  - inversion H; subst; auto.
  - destruct (assign a r) as [r1|e] eqn:E; [|discriminate].
    apply assign_keeps in E. apply IH in H.
    destruct E as (E1 & E2 & E3), H as (H1 & H2 & H3).
    repeat split; congruence.
Qed.

(** The SET clause built from a request writes the fields that were set and
    no other, unless it binds NULL to [title]. *)
Lemma assign_all_dump (movie_update : MovieUpdate) (r : movie_row) :
  mu_title movie_update <> given None ->
  assign_all (model_dump_exclude_unset movie_update) r = Ok (patched movie_update r).
Proof.
  destruct movie_update as [t d y g ra de], r; intros Ht.
  destruct t as [|[s|]]; [| |contradiction];
    destruct d, y, g, ra, de; reflexivity.
Qed.

Lemma assign_all_null_title (movie_update : MovieUpdate) (r : movie_row) :
  mu_title movie_update = given None ->
  assign_all (model_dump_exclude_unset movie_update) r =
  Raise (IntegrityError "NOT NULL constraint failed: movies.title").
Proof.
  destruct movie_update as [t d y g ra de]; simpl; intros ->. reflexivity.
Qed.

Lemma dump_empty_patched (movie_update : MovieUpdate) (r : movie_row) :
  model_dump_exclude_unset movie_update = [] -> patched movie_update r = r.
Proof.
  destruct movie_update as [t d y g ra de], r.
  destruct t, d, y, g, ra, de; simpl; intros H; try discriminate H; reflexivity.
Qed.

Lemma update_rows_map (set_ : list assignment) (where_ : list condition)
    (f : movie_row -> movie_row) (rows : list movie_row) :
  (forall x, In x rows -> matches where_ x = true -> assign_all set_ x = Ok (f x)) ->
  update_rows set_ where_ rows =
  Ok (map (fun x => if matches where_ x then f x else x) rows).
Proof.
  induction rows as [|a rows IH]; intros H; simpl; [reflexivity|].
  rewrite IH by (intros x Hx; apply H; right; exact Hx).
  destruct (matches where_ a) eqn:E; [|reflexivity].
  rewrite (H a) by (auto; left; reflexivity). reflexivity.
Qed.

Lemma update_rows_fails (set_ : list assignment) (where_ : list condition)
    (e : exn) (rows : list movie_row) (r : movie_row) :
  In r rows -> matches where_ r = true ->
  (forall x, assign_all set_ x = Raise e) ->
  update_rows set_ where_ rows = Raise e.
Proof.
  intros Hr Hm Hfail. induction rows as [|a rows IH]; [destruct Hr|]. simpl.
  destruct (matches where_ a) eqn:E.
  - rewrite Hfail. reflexivity.
  - destruct Hr as [->|Hr]; [congruence|]. rewrite (IH Hr). reflexivity.
Qed.

(** Every row after an UPDATE is a row from before it, with the same id and
    the same owner, at the same position. *)
Lemma update_rows_keeps (set_ : list assignment) (where_ : list condition)
    (rows rows' : list movie_row) :
  update_rows set_ where_ rows = Ok rows' ->
  Forall2 (fun r r' => m_id r' = m_id r /\ m_user_id r' = m_user_id r) rows rows'.
Proof.
  revert rows'. induction rows as [|a rows IH]; simpl; intros rows' H.
  - inversion H; subst. constructor.
  - destruct (matches where_ a).
    + destruct (assign_all set_ a) as [a'|] eqn:Ea; [|discriminate].
      destruct (update_rows set_ where_ rows) as [rest|]; [|discriminate].
      inversion H; subst. constructor; [|apply IH; reflexivity].
      apply assign_all_keeps in Ea. tauto.
    + destruct (update_rows set_ where_ rows) as [rest|]; [|discriminate].
      inversion H; subst. constructor; [auto|apply IH; reflexivity].
Qed.

Lemma matches_same_key (where_ : list condition) (x y : movie_row) :
  m_id y = m_id x -> m_user_id y = m_user_id x ->
  matches where_ y = matches where_ x.
Proof.
  intros Hi Hu. unfold matches.
  induction where_ as [|c where_ IH]; simpl; [reflexivity|].
  rewrite IH. f_equal. destruct c; simpl; [rewrite Hi|rewrite Hu]; reflexivity.
Qed.

Lemma select_map (g : movie_row -> movie_row) (where_ : list condition)
    (rows : list movie_row) :
  (forall x, m_id (g x) = m_id x /\ m_user_id (g x) = m_user_id x) ->
  List.filter (matches where_) (map g rows) =
  map g (List.filter (matches where_) rows).
Proof.
  intros Hg. induction rows as [|a rows IH]; simpl; [reflexivity|].
  rewrite (matches_same_key where_ a (g a)) by apply Hg.
  destruct (matches where_ a); simpl; rewrite IH; reflexivity.
Qed.

Lemma owned_select_some (rows : list movie_row) (r : movie_row) (uid : Z) :
  In r rows -> m_user_id r = uid ->
  exists r0, head (List.filter (matches [id_eq (m_id r); user_id_eq uid]) rows) = Some r0.
Proof.
  intros Hr Hu.
  assert (Hin : In r (List.filter (matches [id_eq (m_id r); user_id_eq uid]) rows)).
  { apply filter_In. split; [exact Hr|]. apply matches_owned. auto. }
  destruct (List.filter _ rows) as [|r0 l]; [destruct Hin|].
  exists r0. reflexivity.
Qed.

(** What the UPDATE binds: the values of the SET clause, then the id and the
    caller. *)
Lemma bound_update (set_ : list assignment) (movie_id uid : Z) :
  forallb bindable (map bound_value set_ ++
                    map condition_param [id_eq movie_id; user_id_eq uid])
  = forallb bindable (map bound_value set_) && (in_int64 movie_id && in_int64 uid).
Proof.
  rewrite forallb_app. simpl. rewrite andb_true_r. reflexivity.
Qed.

(** Of the values a request can set, only the year can fail to bind. *)
Lemma dump_bindable (movie_update : MovieUpdate) :
  forallb bindable (map bound_value (model_dump_exclude_unset movie_update))
  = fits (default_None (mu_year movie_update)).
Proof.
  assert (Htext : forall (mk : option string -> assignment) (f : field string),
             (forall v, bound_value (mk v) = opt_text v) ->
             forallb bindable (map bound_value (dump_field mk f)) = true).
  { intros mk [|[s|]] Hmk; simpl; rewrite ?Hmk; reflexivity. }
  destruct movie_update as [t d y g ra de]. unfold model_dump_exclude_unset.
  cbn [mu_title mu_director mu_year mu_genre mu_rating mu_description].
  rewrite !map_app, !forallb_app.
  rewrite !Htext by reflexivity.
  destruct y as [|[z|]], ra as [|[f|]]; simpl; rewrite ?andb_true_r; reflexivity.
Qed.

(** [update_movie] when the caller owns a movie of this id and the request
    sets no field: nothing is written. *)
Lemma update_movie_noop (movie_id : Z) (movie_update : MovieUpdate) (u : User)
    (w : world) (r0 : movie_row) :
  let owned := [id_eq movie_id; user_id_eq (user_ident u)] in
  in_int64 movie_id = true -> in_int64 (user_ident u) = true ->
  head (List.filter (matches owned) (movies (w_db w))) = Some r0 ->
  model_dump_exclude_unset movie_update = [] ->
  update_movie movie_id movie_update u w =
  (match head (List.filter (matches [id_eq movie_id]) (movies (w_db w))) with
   | Some r => Ok (dict r)
   | None => Raise (TypeError "'NoneType' object is not iterable")
   end,
   emits [ev_connect; ev_execute (SELECT_movies "*" owned);
          ev_execute (SELECT_movies movie_columns [id_eq movie_id]); ev_close] w).
Proof.
  intros owned Hid Hu Hsome Hdump. subst owned. unfold update_movie. run_handler.
  rewrite Hid, Hu. simpl. rewrite Hsome, Hdump. simpl.
  destruct (head (List.filter (matches [id_eq movie_id]) _)); reflexivity.
Qed.

(** [update_movie] when the caller owns a movie of this id and the request
    sets some field: one UPDATE.  Its values are bound, which fails for a
    year that is no SQLite INTEGER; it needs the write lock, which fails
    when another connection holds it; it is committed if the table accepts
    it; and if the table refuses it, the handler is left without closing the
    connection, which keeps the lock. *)
Lemma update_movie_writes (movie_id : Z) (movie_update : MovieUpdate) (u : User)
    (w : world) (r0 : movie_row) :
  let owned := [id_eq movie_id; user_id_eq (user_ident u)] in
  let update_data := model_dump_exclude_unset movie_update in
  let attempted :=
    [ev_connect; ev_execute (SELECT_movies "*" owned);
     ev_execute (UPDATE_movies update_data owned)] in
  in_int64 movie_id = true -> in_int64 (user_ident u) = true ->
  head (List.filter (matches owned) (movies (w_db w))) = Some r0 ->
  update_data <> [] ->
  if negb (fits (default_None (mu_year movie_update))) then
    update_movie movie_id movie_update u w = (Raise too_large, emits attempted w)
  else if w_locked w then
    update_movie movie_id movie_update u w = (Raise is_locked, emits attempted w)
  else
    match update_rows update_data owned (movies (w_db w)) with
    | Ok rows =>
        exists w',
          update_movie movie_id movie_update u w =
            (match head (List.filter (matches [id_eq movie_id]) rows) with
             | Some r => Ok (dict r)
             | None => Raise (TypeError "'NoneType' object is not iterable")
             end, w') /\
          w_db w' = {| users := users (w_db w); users_seq := users_seq (w_db w);
                       movies := rows; movies_seq := movies_seq (w_db w) |} /\
          w_env w' = w_env w /\
          w_locked w' = false /\
          w_trace w' = w_trace w ++
            attempted ++
            [ev_commit; ev_execute (SELECT_movies movie_columns [id_eq movie_id]);
             ev_close]
    | Raise e =>
        exists w',
          update_movie movie_id movie_update u w = (Raise e, w') /\
          w_db w' = w_db w /\
          w_env w' = w_env w /\
          w_locked w' = keeps_transaction e /\
          w_trace w' = w_trace w ++ attempted
    end.
Proof.
  intros owned update_data attempted Hid Hu Hsome Hne.
  subst owned update_data attempted.
  pose proof (dump_bindable movie_update) as Hbound.
  unfold update_movie. run_handler.
  rewrite Hid, Hu. simpl. rewrite Hsome.
  destruct (model_dump_exclude_unset movie_update) as [|a l] eqn:Hd; [congruence|].
  cbv beta iota.
  change (map bound_value (a :: l) ++ [INTEGER movie_id; INTEGER (user_ident u)])
    with (map bound_value (a :: l) ++
          map condition_param [id_eq movie_id; user_id_eq (user_ident u)]).
  rewrite bound_update, Hbound, Hid, Hu, andb_true_r.
  destruct (fits (default_None (mu_year movie_update))); simpl; [|reflexivity].
  destruct (w_locked w) eqn:Hl; simpl; [reflexivity|].
  destruct (update_rows (a :: l) _ (movies (w_db w))) as [rows|e]; simpl.
  - rewrite ?Hid. simpl. eexists.
    destruct (head (List.filter (matches [id_eq movie_id]) _));
      (split; [reflexivity|]); simpl; repeat split;
      rewrite <- !app_assoc; reflexivity.
  - eexists. split; [reflexivity|]. simpl. repeat split.
    rewrite <- !app_assoc. reflexivity.
Qed.

Lemma patched_keeps (movie_update : MovieUpdate) (r : movie_row) :
  m_id (patched movie_update r) = m_id r /\
  m_user_id (patched movie_update r) = m_user_id r.
Proof. split; reflexivity. Qed.

Lemma replaced_keeps (movie_update : MovieUpdate) (r x : movie_row) :
  m_id (replaced movie_update r x) = m_id x /\
  m_user_id (replaced movie_update r x) = m_user_id x \/
  m_id (replaced movie_update r x) = m_id x /\ m_id x = m_id r.
Proof.
  unfold replaced. destruct (Z.eqb_spec (m_id x) (m_id r)) as [E|E].
  - right. split; [symmetry; exact E|exact E].
  - left. split; reflexivity.
Qed.

(** Under the primary key, rewriting the rows the WHERE clause selects is
    rewriting the movie [r]. *)
Lemma owned_rows_replaced (movie_update : MovieUpdate) (rows : list movie_row)
    (r : movie_row) :
  NoDup (map m_id rows) -> In r rows ->
  map (fun x => if matches [id_eq (m_id r); user_id_eq (m_user_id r)] x
                then patched movie_update x else x) rows
  = map (replaced movie_update r) rows.
Proof.
  intros Hnd Hr. apply map_ext_in. intros x Hx. unfold replaced.
  destruct (Z.eqb_spec (m_id x) (m_id r)) as [E|E].
  - assert (x = r) by (apply (pk_same_row rows); auto). subst x.
    replace (matches _ r) with true; [reflexivity|].
    symmetry. apply matches_owned. auto.
  - destruct (matches _ x) eqn:Em; [|reflexivity].
    apply matches_owned in Em. tauto.
Qed.

Lemma replaced_select (movie_update : MovieUpdate) (where_ : list condition)
    (rows : list movie_row) (r : movie_row) :
  NoDup (map m_id rows) -> In r rows ->
  List.filter (matches where_) rows = [r] ->
  List.filter (matches where_) (map (replaced movie_update r) rows)
  = [patched movie_update r].
Proof.
  intros Hnd Hr Hsel.
  assert (Hsame : map (replaced movie_update r) rows =
                  map (fun x => if Z.eqb (m_id x) (m_id r)
                                then patched movie_update x else x) rows).
  { apply map_ext_in. intros x Hx. unfold replaced.
    destruct (Z.eqb_spec (m_id x) (m_id r)) as [E|E]; [|reflexivity].
    assert (x = r) by (apply (pk_same_row rows); auto). subst x. reflexivity. }
  rewrite Hsame, select_map.
  - rewrite Hsel. simpl. rewrite Z.eqb_refl. reflexivity.
  - intros x. destruct (Z.eqb (m_id x) (m_id r)); split; reflexivity.
Qed.

(** What a request that writes does when the caller owns the movie [r], the
    values bind, the lock is free and [title] is not set to null. *)
Lemma update_movie_rewrites (w : world) (r : movie_row) (caller : User)
    (movie_update : MovieUpdate) :
  movies_pk (w_db w) ->
  In r (movies (w_db w)) ->
  m_user_id r = user_ident caller ->
  in_int64 (m_id r) = true ->
  in_int64 (user_ident caller) = true ->
  mu_title movie_update <> given None ->
  fits (default_None (mu_year movie_update)) = true ->
  w_locked w = false \/ model_dump_exclude_unset movie_update = [] ->
  exists w',
    update_movie (m_id r) movie_update caller w
      = (Ok (dict (patched movie_update r)), w') /\
    w_db w' = {| users := users (w_db w); users_seq := users_seq (w_db w);
                 movies := map (replaced movie_update r) (movies (w_db w));
                 movies_seq := movies_seq (w_db w) |} /\
    w_env w' = w_env w /\
    w_locked w' = w_locked w /\
    (model_dump_exclude_unset movie_update = [] ->
       w_db w' = w_db w /\ patched movie_update r = r).
Proof.
  intros Hpk Hr Hown Hid Hu Ht Hy Hfree. unfold movies_pk in Hpk.
  destruct (owned_select_some _ _ _ Hr Hown) as [r0 Hsome].
  pose proof (pk_select_id _ _ Hpk Hr) as Hsel.
  destruct (model_dump_exclude_unset movie_update) as [|a l] eqn:Hd.
  - (* no field set *)
    pose proof (dump_empty_patched movie_update r Hd) as Hsame.
    assert (Hrows : map (replaced movie_update r) (movies (w_db w)) = movies (w_db w)).
    { rewrite <- (map_id (movies (w_db w))) at 2. apply map_ext_in.
      intros x Hx. unfold replaced.
      destruct (Z.eqb_spec (m_id x) (m_id r)) as [E|E]; [|reflexivity].
      assert (x = r) by (apply (pk_same_row (movies (w_db w))); auto).
      subst x. exact Hsame. }
    eexists. rewrite (update_movie_noop _ _ _ _ _ Hid Hu Hsome Hd), Hsel. cbn [head].
    rewrite Hsame, Hrows. split; [reflexivity|].
    rewrite w_db_emits, w_env_emits, w_locked_emits.
    split; [destruct (w_db w); reflexivity|]. split; [reflexivity|].
    split; [reflexivity|]. intros _. split; reflexivity.
  - (* some field set *)
    destruct Hfree as [Hl|Hnil]; [|discriminate Hnil].
    assert (Hne : model_dump_exclude_unset movie_update <> []) by (rewrite Hd; discriminate).
    pose proof (update_movie_writes (m_id r) movie_update caller w r0 Hid Hu Hsome Hne)
      as Hrun.
    cbv zeta in Hrun. rewrite Hy, Hl in Hrun. cbn [negb] in Hrun.
    rewrite (update_rows_map _ _ (patched movie_update)) in Hrun
      by (intros; apply assign_all_dump; exact Ht).
    rewrite <- Hown in Hrun.
    rewrite (owned_rows_replaced movie_update _ r Hpk Hr) in Hrun.
    rewrite (replaced_select movie_update _ _ r Hpk Hr Hsel) in Hrun.
    destruct Hrun as (w' & Hrun & Hdb & Henv & Hl' & _). cbn [head] in Hrun.
    exists w'. split; [exact Hrun|]. split; [exact Hdb|]. split; [exact Henv|].
    split; [congruence|]. intros Hnil; discriminate Hnil.
Qed.

(** C4, as the code has it.  Let the caller own the movie [r], let the
    request not set [title] to null nor [year] to an integer SQLite cannot
    hold, and let the database not be locked, unless the request sets no
    field.  Then [update_movie] returns the record of [patched movie_update
    r], in which every field the request set has the value sent (a rating as
    the table keeps it) and every other field is the one of [r]; the table
    afterwards is the table before with [r] replaced by that row, every
    other row and the users untouched; a later [get_movie] returns the same
    record; and a request that sets no field leaves the database as it
    was and returns the record of [r]. *)
Theorem sparse_update (w : world) (r : movie_row) (caller : User)
    (movie_update : MovieUpdate) :
  movies_pk (w_db w) ->
  In r (movies (w_db w)) ->
  m_user_id r = user_ident caller ->
  in_int64 (m_id r) = true ->
  in_int64 (user_ident caller) = true ->
  mu_title movie_update <> given None ->
  fits (default_None (mu_year movie_update)) = true ->
  w_locked w = false \/ model_dump_exclude_unset movie_update = [] ->
  exists w',
    update_movie (m_id r) movie_update caller w
      = (Ok (dict (patched movie_update r)), w') /\
    movies (w_db w') = map (replaced movie_update r) (movies (w_db w)) /\
    users (w_db w') = users (w_db w) /\
    (model_dump_exclude_unset movie_update = [] ->
       w_db w' = w_db w /\ patched movie_update r = r) /\
    exists w'',
      get_movie (m_id r) caller w' = (Ok (dict (patched movie_update r)), w'').
Proof.
  intros Hpk Hr Hown Hid Hu Ht Hy Hfree.
  destruct (update_movie_rewrites w r caller movie_update Hpk Hr Hown Hid Hu Ht Hy Hfree)
    as (w' & Hrun & Hdb & _ & _ & Hnoop).
  exists w'. split; [exact Hrun|]. rewrite Hdb. cbn [movies users].
  split; [reflexivity|]. split; [reflexivity|].
  split; [intros Hnil; rewrite <- Hdb; exact (Hnoop Hnil)|].
  pose proof (pk_select_owned _ _ Hpk Hr) as Hsel. rewrite Hown in Hsel.
  eexists. rewrite get_movie_run, Hid, Hu, Hdb. cbn [movies andb].
  rewrite (replaced_select movie_update _ _ r Hpk Hr Hsel). reflexivity.
Qed.

Lemma sparse_update_witness :
  movies_pk (w_db two_users_world) /\
  In dune (movies (w_db two_users_world)) /\
  m_user_id dune = user_ident alice /\
  mu_title (only_rating 9.5%float) <> given None /\
  fits (default_None (mu_year (only_rating 9.5%float))) = true /\
  w_locked two_users_world = false /\
  exists w',
    update_movie 1 (only_rating 9.5%float) alice two_users_world
      = (Ok {| id := 1; title := "Dune"; director := Some "Denis Villeneuve";
               year := Some 2021; genre := Some "Sci-Fi"; rating := Some 9.5%float;
               description := None; user_id := 1 |}, w') /\
    movies (w_db w') = map (replaced (only_rating 9.5%float) dune) [dune] /\
    users (w_db w') = users two_users /\
    (model_dump_exclude_unset (only_rating 9.5%float) = [] ->
       w_db w' = two_users /\ patched (only_rating 9.5%float) dune = dune) /\
    exists w'',
      get_movie 1 alice w'
        = (Ok (dict (patched (only_rating 9.5%float) dune)), w'').
Proof.
  assert (Hin : In dune (movies (w_db two_users_world))) by (left; reflexivity).
  assert (Hown : m_user_id dune = user_ident alice) by reflexivity.
  assert (Ht : mu_title (only_rating 9.5%float) <> given None) by discriminate.
  split; [exact two_users_pk|]. split; [exact Hin|]. split; [exact Hown|].
  split; [exact Ht|]. split; [reflexivity|]. split; [reflexivity|].
  exact (sparse_update two_users_world dune alice (only_rating 9.5%float)
           two_users_pk Hin Hown eq_refl eq_refl Ht eq_refl (or_introl eq_refl)).
Defined.

(** What a request that sets [title] to null does when the caller owns the
    movie, the values bind and the lock is free: the UPDATE is refused, and
    the handler is left with the connection open, holding the lock. *)
Lemma update_movie_null_title (w : world) (r : movie_row) (caller : User)
    (movie_update : MovieUpdate) :
  In r (movies (w_db w)) ->
  m_user_id r = user_ident caller ->
  in_int64 (m_id r) = true ->
  in_int64 (user_ident caller) = true ->
  mu_title movie_update = given None ->
  fits (default_None (mu_year movie_update)) = true ->
  w_locked w = false ->
  let owned := [id_eq (m_id r); user_id_eq (user_ident caller)] in
  exists w',
    update_movie (m_id r) movie_update caller w =
      (Raise (IntegrityError "NOT NULL constraint failed: movies.title"), w') /\
    w_db w' = w_db w /\
    w_env w' = w_env w /\
    w_locked w' = true /\
    w_trace w' = w_trace w ++
      [ev_connect; ev_execute (SELECT_movies "*" owned);
       ev_execute (UPDATE_movies (model_dump_exclude_unset movie_update) owned)].
Proof.
  intros Hr Hown Hid Hu Ht Hy Hl owned. subst owned.
  destruct (owned_select_some _ _ _ Hr Hown) as [r0 Hsome].
  assert (Hne : model_dump_exclude_unset movie_update <> []).
  { destruct movie_update as [t d y g ra de]; simpl in Ht; subst t. discriminate. }
  pose proof (update_movie_writes (m_id r) movie_update caller w r0 Hid Hu Hsome Hne)
    as Hrun.
  cbv zeta in Hrun. rewrite Hy, Hl in Hrun. cbn [negb] in Hrun.
  rewrite (update_rows_fails _ _ (IntegrityError "NOT NULL constraint failed: movies.title")
             _ r Hr) in Hrun.
  - exact Hrun.
  - apply matches_owned. auto.
  - intros x. apply assign_all_null_title. exact Ht.
Qed.

(** C4, as stated, fails when the request sets [title] to null: the caller
    owns the movie, [title] is among the fields present, and [update_movie]
    neither writes it nor returns a record. *)
Lemma sparse_update_null_title_counterexample :
  In dune (movies (w_db two_users_world)) /\
  m_user_id dune = user_ident alice /\
  model_dump_exclude_unset null_title = [set_title None] /\
  fst (update_movie (m_id dune) null_title alice two_users_world) =
    Raise (IntegrityError "NOT NULL constraint failed: movies.title") /\
  ~ (exists m w', update_movie (m_id dune) null_title alice two_users_world = (Ok m, w')).
Proof.
  split; [left; reflexivity|]. split; [reflexivity|]. split; [reflexivity|].
  split; [reflexivity|].
  intros (m & w' & H). vm_compute in H. discriminate H.
Qed.

(** ** What binds *)

Lemma run_statement_step (now : Z) (st : statement) (db : database)
    (x : database * cursor) :
  run_statement now st db = Ok x -> bind st = Ok tt /\ step now st db = Ok x.
Proof.
  unfold run_statement. destruct (bind st) as [[]|e]; [auto|discriminate].
Qed.

Lemma run_statement_bound (now : Z) (st : statement) (db : database) :
  forallb bindable (parameters st) = true -> run_statement now st db = step now st db.
Proof. intros H. unfold run_statement, bind. rewrite H. reflexivity. Qed.

Lemma bind_bound (st : statement) :
  bind st = Ok tt -> forallb bindable (parameters st) = true.
Proof. unfold bind. destruct (forallb _ _); [reflexivity|discriminate]. Qed.

Lemma insert_movies_bound (movie : MovieCreate) (uid : Z) :
  forallb bindable (parameters (INSERT_movies movie uid))
  = fits (mc_year movie) && in_int64 uid.
Proof.
  simpl. destruct (mc_director movie), (mc_year movie), (mc_genre movie),
    (mc_rating movie), (mc_description movie); simpl; rewrite ?andb_true_r; reflexivity.
Qed.

Lemma owned_bound (movie_id uid : Z) :
  forallb bindable (map condition_param [id_eq movie_id; user_id_eq uid])
  = in_int64 movie_id && in_int64 uid.
Proof. simpl. rewrite andb_true_r. reflexivity. Qed.

(** ** What a handler may commit *)

Lemma reads_only_commits {A : Type} (m : M A) : reads_only m -> commits_one m.
Proof. intros H w. destruct (H w) as (He & Hd & _). split; [exact He|left; exact Hd]. Qed.

Lemma reads_only_ret {A : Type} (a : A) : reads_only (mret a).
Proof. intros w. repeat split. Qed.

Lemma reads_only_raise {A : Type} (e : exn) : reads_only (raise (A := A) e).
Proof. intros w. repeat split. Qed.

Lemma reads_only_bind {A B : Type} (m : M A) (k : A -> M B) :
  reads_only m -> (forall a, reads_only (k a)) -> reads_only (m ≫= k).
Proof.
  intros Hm Hk w. unfold mbind, M_bind. specialize (Hm w).
  destruct (m w) as [[a|e] w1]; simpl in *.
  - destruct (Hk a w1) as (He & Hd & Hl). destruct Hm as (He1 & Hd1 & Hl1).
    repeat split; congruence.
  - exact Hm.
Qed.

Lemma commits_only_one {A : Type} (P : statement -> Prop) (m : M A) :
  commits_only P m -> commits_one m.
Proof.
  intros Hm w. destruct (Hm w) as [He [Hd|(st & cur & _ & Hst)]].
  - split; [exact He|left; exact Hd].
  - split; [exact He|right]. exists st, cur. exact Hst.
Qed.

Lemma commits_after_read {A B : Type} (m : M A) (k : A -> M B) :
  reads_only m -> (forall a, commits_one (k a)) -> commits_one (m ≫= k).
Proof.
  intros Hm Hk w. unfold mbind, M_bind. specialize (Hm w).
  destruct (m w) as [[a|e] w1]; simpl in *.
  - destruct Hm as (He1 & Hd1 & _). destruct (Hk a w1) as [He Hd].
    rewrite He1, Hd1 in Hd. split; [congruence|exact Hd].
  - destruct Hm as (He1 & Hd1 & _). split; [exact He1|left; exact Hd1].
Qed.

Lemma commits_then_read {A B : Type} (m : M A) (k : A -> M B) :
  commits_one m -> (forall a, reads_only (k a)) -> commits_one (m ≫= k).
Proof.
  intros Hm Hk w. unfold mbind, M_bind. specialize (Hm w).
  destruct (m w) as [[a|e] w1]; simpl in *.
  - destruct Hm as [He1 Hd1]. destruct (Hk a w1) as (He & Hd & _).
    rewrite He, Hd. split; [exact He1|exact Hd1].
  - exact Hm.
Qed.

Lemma get_movies_reads (u : User) : reads_only (get_movies u).
Proof.
  intros w. rewrite get_movies_run. cbv zeta.
  destruct (in_int64 _); cbn [snd];
    rewrite w_env_emits, w_db_emits, w_locked_emits; auto.
Qed.

Lemma get_movie_reads (movie_id : Z) (u : User) : reads_only (get_movie movie_id u).
Proof.
  intros w. rewrite get_movie_run. cbv zeta.
  destruct (in_int64 movie_id && in_int64 (user_ident u)); cbn [snd];
    rewrite w_env_emits, w_db_emits, w_locked_emits; auto.
Qed.

(** *** The statement each handler commits *)

Lemma create_movie_cases (movie : MovieCreate) (u : User) (w : world) :
  (exists e w',
      create_movie movie u w = (Raise e, w') /\
      w_db w' = w_db w /\ w_env w' = w_env w /\
      (e = too_large /\ fits (mc_year movie) && in_int64 (user_ident u) = false \/
       e = is_locked /\ w_locked w = true \/
       e = is_full /\ w_locked w = false /\ ~ room_for_movie (w_db w))) \/
  (fits (mc_year movie) = true /\ in_int64 (user_ident u) = true /\
   w_locked w = false /\ room_for_movie (w_db w)).
Proof.
  destruct (fits (mc_year movie) && in_int64 (user_ident u)) eqn:Hb.
  - apply andb_true_iff in Hb. destruct Hb as [Hy Hu].
    destruct (w_locked w) eqn:Hl.
    + left. eexists. eexists. rewrite (create_movie_locked movie u w Hy Hu Hl).
      split; [reflexivity|]. rewrite w_db_emits, w_env_emits.
      split; [reflexivity|]. split; [reflexivity|]. right; left. split; reflexivity.
    + destruct (in_int64 (next_rowid (movies_seq (w_db w)) (map m_id (movies (w_db w)))))
        eqn:Hroom; [right; auto|].
      assert (Hfull : ~ room_for_movie (w_db w))
        by (unfold room_for_movie; rewrite Hroom; discriminate).
      destruct (create_movie_full movie u w Hy Hu Hl Hfull) as (w1 & Hrun & Hd & He & _).
      left. exists is_full, w1. split; [exact Hrun|]. split; [exact Hd|].
      split; [exact He|]. right; right. auto.
  - left. eexists. eexists. rewrite (create_movie_overflow movie u w Hb).
    split; [reflexivity|]. rewrite w_db_emits, w_env_emits.
    split; [reflexivity|]. split; [reflexivity|]. left. split; reflexivity.
Qed.

Lemma create_movie_footprint (movie : MovieCreate) (u : User) :
  commits_only (fun st => st = INSERT_movies movie (user_ident u)) (create_movie movie u).
Proof.
  intros w.
  destruct (create_movie_cases movie u w)
    as [(e & w' & Hrun & Hd & He & _)|(Hy & Hu & Hl & Hroom)].
  - rewrite Hrun. cbn [snd]. split; [exact He|left; exact Hd].
  - destruct (create_movie_run movie u w Hy Hu Hl Hroom) as (w' & Hrun & Hdb & Henv & _).
    rewrite Hrun. cbn [snd]. split; [exact Henv|]. right.
    exists (INSERT_movies movie (user_ident u)). eexists. split; [reflexivity|].
    rewrite run_statement_bound by (rewrite insert_movies_bound, Hy, Hu; reflexivity).
    unfold room_for_movie in Hroom. simpl. unfold new_rowid. rewrite Hroom, Hdb.
    reflexivity.
Qed.

Lemma create_movie_commits (movie : MovieCreate) (u : User) :
  commits_one (create_movie movie u).
Proof. exact (commits_only_one _ _ (create_movie_footprint movie u)). Qed.

Lemma delete_movie_footprint (movie_id : Z) (u : User) :
  commits_only (fun st => st = DELETE_movies [id_eq movie_id; user_id_eq (user_ident u)])
    (delete_movie movie_id u).
Proof.
  intros w.
  destruct (delete_movie_cases movie_id u w)
    as [[_ Hrun]|[[_ Hrun]|[[_ Hrun]|(Hid & Hu & Hl & r0 & w' & _ & Hrun & Hdb & He & _)]]];
    rewrite Hrun; cbn [snd];
    try (rewrite w_env_emits, w_db_emits; split; [reflexivity|left; reflexivity]).
  split; [exact He|]. right.
  exists (DELETE_movies [id_eq movie_id; user_id_eq (user_ident u)]).
  eexists. split; [reflexivity|].
  rewrite run_statement_bound
    by (exact (eq_trans (owned_bound movie_id (user_ident u))
                 (eq_trans (f_equal2 andb Hid Hu) eq_refl))).
  simpl. rewrite Hdb. reflexivity.
Qed.

Lemma delete_movie_commits (movie_id : Z) (u : User) :
  commits_one (delete_movie movie_id u).
Proof. exact (commits_only_one _ _ (delete_movie_footprint movie_id u)). Qed.

Lemma head_filter_in {A : Type} (p : A -> bool) (l : list A) (x : A) :
  head (List.filter p l) = Some x -> In x l /\ p x = true.
Proof.
  intros H. apply filter_In. destruct (List.filter p l) as [|y l']; [discriminate|].
  inversion H; subst. left; reflexivity.
Qed.

Lemma in_filter_head {A : Type} (p : A -> bool) (l : list A) (x : A) :
  In x l -> p x = true -> exists y, head (List.filter p l) = Some y.
Proof.
  intros Hin Hp.
  assert (H : In x (List.filter p l)) by (apply filter_In; auto).
  destruct (List.filter p l) as [|y l']; [destruct H|]. exists y. reflexivity.
Qed.

(** All that [update_movie] can do.  It raises, with the database as it was:
    [OverflowError] when the id, the caller or the year does not bind; 404
    when the caller owns no movie of this id; "database is locked" when
    another connection holds the write lock; the NOT NULL [IntegrityError]
    when the request sets [title] to null, and then the lock is left taken.
    Or it returns a record, having committed nothing or its one UPDATE: the
    SELECT that ends it always finds a row, so [dict] is never applied to
    [None]. *)
Lemma update_movie_cases (movie_id : Z) (movie_update : MovieUpdate) (u : User)
    (w : world) :
  let owned := [id_eq movie_id; user_id_eq (user_ident u)] in
  let update_ := UPDATE_movies (model_dump_exclude_unset movie_update) owned in
  (exists e w',
      update_movie movie_id movie_update u w = (Raise e, w') /\
      w_db w' = w_db w /\ w_env w' = w_env w /\
      (e = too_large /\
         (in_int64 movie_id && in_int64 (user_ident u) = false \/
          fits (default_None (mu_year movie_update)) = false) \/
       e = not_found /\ w_locked w' = w_locked w \/
       e = is_locked /\ w_locked w = true \/
       e = IntegrityError "NOT NULL constraint failed: movies.title" /\
         mu_title movie_update = given None /\ w_locked w = false /\
         w_locked w' = true)) \/
  (exists m w',
      update_movie movie_id movie_update u w = (Ok m, w') /\
      w_env w' = w_env w /\ w_locked w' = w_locked w /\
      (w_db w' = w_db w \/
       exists cur, run_statement (clock (w_env w)) update_ (w_db w) = Ok (w_db w', cur))).
Proof.
  intros owned update_. subst owned update_.
  destruct (in_int64 movie_id && in_int64 (user_ident u)) eqn:Hb.
  2:{ left. eexists. eexists. rewrite (update_movie_overflow _ _ _ _ Hb).
      split; [reflexivity|]. rewrite w_db_emits, w_env_emits.
      split; [reflexivity|]. split; [reflexivity|]. left. split; [reflexivity|].
      left; reflexivity. }
  apply andb_true_iff in Hb. destruct Hb as [Hid Hu].
  destruct (head (List.filter (matches [id_eq movie_id; user_id_eq (user_ident u)])
                    (movies (w_db w)))) as [r0|] eqn:Hsome.
  2:{ left. eexists. eexists. rewrite update_movie_none; try assumption.
      - split; [reflexivity|]. rewrite w_db_emits, w_env_emits, w_locked_emits.
        split; [reflexivity|]. split; [reflexivity|]. right; left. split; reflexivity.
      - destruct (List.filter _ _); [reflexivity|discriminate]. }
  destruct (head_filter_in _ _ _ Hsome) as [Hin Hm].
  pose proof Hm as Hm'. apply matches_owned in Hm'. destruct Hm' as [Hrid Hown].
  assert (Hidm : matches [id_eq movie_id] r0 = true) by (apply matches_id; exact Hrid).
  assert (Hcase : model_dump_exclude_unset movie_update = [] \/
                  model_dump_exclude_unset movie_update <> [])
    by (destruct (model_dump_exclude_unset movie_update); [left; reflexivity|right; discriminate]).
  destruct Hcase as [Hd|Hne].
  - right. rewrite (update_movie_noop _ _ _ _ _ Hid Hu Hsome Hd).
    destruct (in_filter_head _ _ _ Hin Hidm) as [y ->]. eexists. eexists.
    split; [reflexivity|]. rewrite w_db_emits, w_env_emits, w_locked_emits.
    split; [reflexivity|]. split; [reflexivity|]. left; reflexivity.
  - pose proof (update_movie_writes movie_id movie_update u w r0 Hid Hu Hsome Hne) as Hrun.
    cbv zeta in Hrun.
    destruct (fits (default_None (mu_year movie_update))) eqn:Hy; cbn [negb] in Hrun.
    2:{ left. eexists. eexists. rewrite Hrun. split; [reflexivity|].
        rewrite w_db_emits, w_env_emits. split; [reflexivity|]. split; [reflexivity|].
        left. split; [reflexivity|]. right; reflexivity. }
    destruct (w_locked w) eqn:Hl.
    { left. eexists. eexists. rewrite Hrun. split; [reflexivity|].
      rewrite w_db_emits, w_env_emits. split; [reflexivity|]. split; [reflexivity|].
      right; right; left. split; reflexivity. }
    destruct (mu_title movie_update) as [|[s|]] eqn:Ht.
    3:{ left.
        rewrite (update_rows_fails _ _
                   (IntegrityError "NOT NULL constraint failed: movies.title") _ r0 Hin Hm)
          in Hrun by (intros x; apply assign_all_null_title; exact Ht).
        destruct Hrun as (w' & Hrun & Hdb & Henv & Hl' & _).
        eexists. exists w'. split; [exact Hrun|]. split; [exact Hdb|].
        split; [exact Henv|]. right; right; right. auto. }
    all: right;
      rewrite (update_rows_map _ _ (patched movie_update)) in Hrun
        by (intros; apply assign_all_dump; rewrite Ht; discriminate);
      rewrite select_map in Hrun by (intros x; destruct (matches _ x); split; reflexivity);
      destruct (in_filter_head _ _ _ Hin Hidm) as [y Hy'];
      destruct (List.filter (matches [id_eq movie_id]) (movies (w_db w))) as [|z l'];
        [discriminate|]; cbn [map head] in Hrun;
      destruct Hrun as (w' & Hrun & Hdb & Henv & Hl' & _);
      eexists; exists w'; (split; [exact Hrun|]); (split; [exact Henv|]);
      (split; [congruence|]); right; eexists;
      rewrite run_statement_bound
        by (cbn [parameters]; rewrite bound_update, dump_bindable, Hy, Hid, Hu; reflexivity);
      simpl;
      rewrite (update_rows_map _ _ (patched movie_update))
        by (intros; apply assign_all_dump; rewrite Ht; discriminate);
      rewrite Hdb; reflexivity.
Qed.

Lemma update_movie_footprint (movie_id : Z) (movie_update : MovieUpdate) (u : User) :
  commits_only
    (fun st => st = UPDATE_movies (model_dump_exclude_unset movie_update)
                      [id_eq movie_id; user_id_eq (user_ident u)])
    (update_movie movie_id movie_update u).
Proof.
  intros w.
  destruct (update_movie_cases movie_id movie_update u w)
    as [(e & w' & Hrun & Hd & He & _)|(m & w' & Hrun & He & _ & [Hd|(cur & Hst)])];
    rewrite Hrun; cbn [snd]; (split; [exact He|]).
  - left; exact Hd.
  - left; exact Hd.
  - right. eexists. exists cur. split; [reflexivity|exact Hst].
Qed.

Lemma update_movie_commits (movie_id : Z) (movie_update : MovieUpdate) (u : User) :
  commits_one (update_movie movie_id movie_update u).
Proof. exact (commits_only_one _ _ (update_movie_footprint movie_id movie_update u)). Qed.

(** ** What a statement may change *)

Lemma run_statement_users (now : Z) (st : statement) (db db' : database) (cur : cursor) :
  run_statement now st db = Ok (db', cur) ->
  forall r, In r (users db) -> In r (users db').
Proof.
  intros H r Hr. apply run_statement_step in H. destruct H as [_ H].
  destruct st; simpl in H.
  - inversion H; subst; exact Hr.
  - destruct (existsb _ _); [discriminate|].
    destruct (new_rowid _ _); [|discriminate]. inversion H; subst; simpl.
    apply in_or_app. left; exact Hr.
  - inversion H; subst; exact Hr.
  - destruct (new_rowid _ _); [|discriminate]. inversion H; subst; exact Hr.
  - destruct (update_rows _ _ _); [|discriminate]. inversion H; subst; exact Hr.
  - inversion H; subst; exact Hr.
Qed.

Lemma owners_kept_refl (db : database) : owners_kept db db.
Proof.
  split; [lia|]. intros r' Hr'. left. exists r'. auto.
Qed.

Lemma owners_kept_trans (a b c : database) :
  owners_kept a b -> owners_kept b c -> owners_kept a c.
Proof.
  intros [Hab Hrows_ab] [Hbc Hrows_bc]. split; [lia|].
  intros r'' Hr''. destruct (Hrows_bc r'' Hr'') as [(r' & Hr' & Hid & Hown)|Hnew].
  - destruct (Hrows_ab r' Hr') as [(r & Hr & Hid' & Hown')|Hnew].
    + left. exists r. repeat split; congruence.
    + right. lia.
  - right. lia.
Qed.

Lemma Forall2_keeps_in (rows rows' : list movie_row) (r' : movie_row) :
  Forall2 (fun r r' => m_id r' = m_id r /\ m_user_id r' = m_user_id r) rows rows' ->
  In r' rows' ->
  exists r, In r rows /\ m_id r = m_id r' /\ m_user_id r = m_user_id r'.
Proof.
  induction 1 as [|x y l l' [Hi Hu] _ IH]; intros Hin; [destruct Hin|].
  destruct Hin as [->|Hin].
  - exists x. split; [left; reflexivity|]. split; congruence.
  - destruct (IH Hin) as (r & Hr & Hrest). exists r. split; [right; exact Hr|exact Hrest].
Qed.

Lemma Forall2_keeps_ids (rows rows' : list movie_row) :
  Forall2 (fun r r' => m_id r' = m_id r /\ m_user_id r' = m_user_id r) rows rows' ->
  map m_id rows' = map m_id rows.
Proof.
  induction 1 as [|x y l l' [Hi Hu] _ IH]; simpl; [reflexivity|].
  rewrite Hi, IH. reflexivity.
Qed.

Lemma new_rowid_is (seq : Z) (ids : list Z) (rowid : Z) :
  new_rowid seq ids = Ok rowid ->
  rowid = next_rowid seq ids /\ in_int64 rowid = true.
Proof.
  unfold new_rowid. destruct (in_int64 _) eqn:E; [|discriminate].
  intros H. inversion H; subst. auto.
Qed.

(** No statement changes the owner of a movie. *)
Lemma run_statement_owners (now : Z) (st : statement) (db db' : database) (cur : cursor) :
  run_statement now st db = Ok (db', cur) -> owners_kept db db'.
Proof.
  intros H. apply run_statement_step in H. destruct H as [_ H].
  destruct st; simpl in H.
  - inversion H; subst. apply owners_kept_refl.
  - destruct (existsb _ _); [discriminate|].
    destruct (new_rowid _ _); [|discriminate]. inversion H; subst.
    split; simpl; [lia|]. intros r' Hr'. left. exists r'. auto.
  - inversion H; subst. apply owners_kept_refl.
  - destruct (new_rowid _ _) as [rowid|] eqn:Hnew; [|discriminate].
    apply new_rowid_is in Hnew. destruct Hnew as [-> _].
    inversion H; subst. clear H.
    destruct (next_rowid_above (movies_seq db) (map m_id (movies db))) as [Hseq _].
    split; simpl; [lia|]. intros r' Hr'. apply in_app_or in Hr'.
    destruct Hr' as [Hr'|[<-|[]]].
    + left. exists r'. auto.
    + right. simpl. exact Hseq.
  - destruct (update_rows _ _ _) as [rows|] eqn:Hu; [|discriminate].
    inversion H; subst. split; simpl; [lia|]. intros r' Hr'. left.
    apply update_rows_keeps in Hu. exact (Forall2_keeps_in _ _ _ Hu Hr').
  - inversion H; subst. split; simpl; [lia|]. intros r' Hr'. left.
    apply filter_In in Hr'. exists r'. tauto.
Qed.

Lemma NoDup_map_filter {A B : Type} (f : A -> B) (p : A -> bool) (l : list A) :
  NoDup (map f l) -> NoDup (map f (List.filter p l)).
Proof.
  induction l as [|a l IH]; simpl; intros H; [exact H|].
  inversion H as [|? ? Hnotin Hnd]; subst.
  destruct (p a); simpl; [|apply IH; exact Hnd].
  apply NoDup_cons. split; [|apply IH; exact Hnd].
  intros Hin. apply Hnotin. apply list_elem_of_In in Hin. apply list_elem_of_In.
  apply in_map_iff in Hin. destruct Hin as (x & Hx & Hin).
  apply filter_In in Hin. apply in_map_iff. exists x. tauto.
Qed.

Lemma NoDup_snoc {A : Type} (l : list A) (x : A) :
  NoDup l -> ~ In x l -> NoDup (l ++ [x]).
Proof.
  intros Hnd Hx. apply NoDup_app. split; [exact Hnd|]. split.
  - intros y Hy Hy'. apply list_elem_of_In in Hy.
    apply list_elem_of_In in Hy'. destruct Hy' as [<-|[]]. exact (Hx Hy).
  - apply NoDup_cons. split; [|apply NoDup_nil; exact I].
    intros H; inversion H.
Qed.

Lemma has_username_iff (u : string) (r : user_row) :
  has_username u r = true <-> u_username r = u.
Proof. unfold has_username. apply String.eqb_eq. Qed.

Lemma existsb_filter_nil {A : Type} (p : A -> bool) (l : list A) :
  existsb p l = false <-> List.filter p l = [].
Proof.
  induction l as [|a l IH]; simpl; [tauto|].
  destruct (p a); simpl; [split; discriminate|exact IH].
Qed.

(** The constraints of the schema hold after every statement that the
    table accepts. *)
Lemma run_statement_well_formed (now : Z) (st : statement) (db db' : database)
    (cur : cursor) :
  run_statement now st db = Ok (db', cur) -> well_formed db -> well_formed db'.
Proof.
  intros H (Hpk & Huniq & Hbound). unfold well_formed, movies_pk, users_unique, ids_bounded in *.
  apply run_statement_step in H. destruct H as [_ H].
  destruct st; simpl in H.
  - inversion H; subst. auto.
  - destruct (existsb _ _) eqn:Hex; [discriminate|].
    destruct (new_rowid _ _); [|discriminate]. inversion H; subst; simpl.
    split; [exact Hpk|]. split; [|exact Hbound].
    rewrite map_app. simpl. apply NoDup_snoc; [exact Huniq|].
    intros Hin. apply in_map_iff in Hin. destruct Hin as (x & Hx & Hin).
    apply existsb_filter_nil in Hex.
    pose proof (filter_no_match _ _ Hex x Hin) as Hno.
    apply has_username_iff in Hx. congruence.
  - inversion H; subst. auto.
  - destruct (new_rowid _ _) as [rowid|] eqn:Hnew; [|discriminate].
    apply new_rowid_is in Hnew. destruct Hnew as [-> _].
    inversion H; subst; simpl. clear H.
    destruct (next_rowid_above (movies_seq db) (map m_id (movies db))) as [Hseq Hids].
    split; [|split; [exact Huniq|]].
    + rewrite map_app. simpl. apply NoDup_snoc; [exact Hpk|].
      intros Hin. specialize (Hids _ Hin). lia.
    + intros r Hr. apply in_app_or in Hr. destruct Hr as [Hr|[<-|[]]].
      * specialize (Hbound r Hr). lia.
      * simpl. lia.
  - destruct (update_rows _ _ _) as [rows|] eqn:Hu; [|discriminate].
    inversion H; subst; simpl. apply update_rows_keeps in Hu.
    split; [|split; [exact Huniq|]].
    + rewrite (Forall2_keeps_ids _ _ Hu). exact Hpk.
    + intros r Hr. destruct (Forall2_keeps_in _ _ _ Hu Hr) as (r0 & Hr0 & Hid & _).
      rewrite <- Hid. apply Hbound. exact Hr0.
  - inversion H; subst; simpl.
    split; [|split; [exact Huniq|]].
    + apply NoDup_map_filter. exact Hpk.
    + intros r Hr. apply filter_In in Hr. apply Hbound. tauto.
Qed.

(** The rowids and the owners stay integers SQLite can hold: a rowid that
    could not be is never issued, and an owner that could not be does not
    bind. *)
Lemma run_statement_keys_fit (now : Z) (st : statement) (db db' : database)
    (cur : cursor) :
  run_statement now st db = Ok (db', cur) -> keys_fit db -> keys_fit db'.
Proof.
  intros H [Hm Hu]. unfold keys_fit, movies_fit, users_fit in *.
  apply run_statement_step in H. destruct H as [Hb H]. apply bind_bound in Hb.
  destruct st; simpl in H.
  - inversion H; subst. auto.
  - destruct (existsb _ _); [discriminate|].
    destruct (new_rowid _ _) as [rowid|] eqn:Hnew; [|discriminate].
    apply new_rowid_is in Hnew. destruct Hnew as [_ Hfit].
    inversion H; subst; simpl. split; [exact Hm|].
    intros u Hin. apply in_app_or in Hin. destruct Hin as [Hin|[<-|[]]]; auto.
  - inversion H; subst. auto.
  - destruct (new_rowid _ _) as [rowid|] eqn:Hnew; [|discriminate].
    apply new_rowid_is in Hnew. destruct Hnew as [_ Hfit].
    inversion H; subst; simpl. split; [|exact Hu].
    rewrite insert_movies_bound in Hb. apply andb_true_iff in Hb.
    intros r Hin. apply in_app_or in Hin. destruct Hin as [Hin|[<-|[]]]; [auto|].
    simpl. tauto.
  - destruct (update_rows _ _ _) as [rows|] eqn:Hupd; [|discriminate].
    inversion H; subst; simpl. split; [|exact Hu].
    apply update_rows_keeps in Hupd. intros r Hr.
    destruct (Forall2_keeps_in _ _ _ Hupd Hr) as (r0 & Hr0 & Hid & Hown).
    rewrite <- Hid, <- Hown. apply Hm. exact Hr0.
  - inversion H; subst; simpl. split; [|exact Hu].
    intros r Hr. apply filter_In in Hr. apply Hm. tauto.
Qed.

Lemma init_db_well_formed : well_formed init_db.
Proof.
  split; [|split].
  - apply NoDup_nil. exact I.
  - apply NoDup_nil. exact I.
  - intros r [].
Qed.

Lemma owners_kept_same (db db' : database) (r r' : movie_row) :
  movies_pk db -> ids_bounded db -> owners_kept db db' ->
  In r (movies db) -> In r' (movies db') -> m_id r' = m_id r ->
  m_user_id r' = m_user_id r.
Proof.
  intros Hpk Hbound [_ Hkept] Hr Hr' Hid.
  destruct (Hkept r' Hr') as [(r0 & Hr0 & Hid0 & Hown0)|Hnew].
  - assert (r0 = r) by (apply (pk_same_row (movies db)); auto; congruence).
    subst r0. symmetry. exact Hown0.
  - specialize (Hbound r Hr). lia.
Qed.

Lemma unique_select_user (rows : list user_row) (r : user_row) :
  NoDup (map u_username rows) -> In r rows ->
  List.filter (has_username (u_username r)) rows = [r].
Proof.
  intros Hnd Hr. induction rows as [|a rows IH]; simpl; [destruct Hr|].
  inversion Hnd as [|? ? Hnotin Hnd']; subst.
  destruct Hr as [->|Hr].
  - replace (has_username (u_username r) r) with true
      by (symmetry; apply has_username_iff; reflexivity).
    f_equal. apply filter_none. intros x Hx.
    destruct (has_username _ x) eqn:E; [|reflexivity].
    apply has_username_iff in E. exfalso. apply Hnotin. rewrite <- E.
    apply list_elem_of_In, in_map, Hx.
  - destruct (has_username _ a) eqn:E.
    + apply has_username_iff in E. exfalso. apply Hnotin. rewrite E.
      apply list_elem_of_In, in_map, Hr.
    + apply IH; assumption.
Qed.

(** ** Routes, for any [auth] *)

Section Routes.

Variable decode_access_token : Z -> string -> option TokenData.
Variable verify_password : string -> string -> bool.
Variable get_password_hash : Z -> string -> string.
Variable create_access_token : Z -> list (string * string) -> Z -> string.
Variable ACCESS_TOKEN_EXPIRE_MINUTES : Z.

Local Abbreviation the_app :=
  (app decode_access_token verify_password get_password_hash create_access_token
     ACCESS_TOKEN_EXPIRE_MINUTES).
Local Abbreviation the_serve :=
  (serve decode_access_token verify_password get_password_hash create_access_token
     ACCESS_TOKEN_EXPIRE_MINUTES).
Local Abbreviation the_serve_all :=
  (serve_all decode_access_token verify_password get_password_hash create_access_token
     ACCESS_TOKEN_EXPIRE_MINUTES).
Local Abbreviation the_register :=
  (register get_password_hash create_access_token ACCESS_TOKEN_EXPIRE_MINUTES).
Local Abbreviation the_login :=
  (login verify_password create_access_token ACCESS_TOKEN_EXPIRE_MINUTES).
Local Abbreviation the_current_user_of := (current_user_of decode_access_token).

Lemma get_current_user_reads (c : HTTPAuthorizationCredentials) :
  reads_only (get_current_user decode_access_token c).
Proof.
  intros w. unfold get_current_user. run_handler.
  destruct (decode_access_token _ _) as [[[username|]]|]; simpl;
    try (repeat split; reflexivity).
  destruct (head _); repeat split; reflexivity.
Qed.

Lemma current_user_of_reads (authorization : option string) :
  reads_only (the_current_user_of authorization).
Proof.
  unfold current_user_of. apply reads_only_bind.
  - destruct authorization; [apply reads_only_ret|apply reads_only_raise].
  - apply get_current_user_reads.
Qed.

Lemma current_user_rejected (authorization : option string) (w : world) :
  token_rejected decode_access_token (clock (w_env w)) authorization = true ->
  exists detail,
    the_current_user_of authorization w =
    (Raise (HTTPException HTTP_401_UNAUTHORIZED detail), w).
Proof.
  unfold token_rejected, current_user_of, security, get_current_user. run_handler.
  destruct authorization as [token|]; simpl.
  - destruct (decode_access_token _ _) as [[[username|]]|]; simpl; intros H;
      try discriminate H; eexists; reflexivity.
  - intros _. eexists; reflexivity.
Qed.

Lemma login_run (user : UserCreate) (w : world) :
  the_login user w =
  (match head (List.filter (has_username (uc_username user)) (users (w_db w))) with
   | None => Raise (HTTPException 401 "Incorrect username or password")
   | Some user_row =>
       if negb (verify_password (uc_password user) (u_hashed_password user_row)) then
         Raise (HTTPException 401 "Incorrect username or password")
       else
         Ok {| access_token :=
                 create_access_token (clock (w_env w)) [("sub", uc_username user)]
                   (timedelta_minutes ACCESS_TOKEN_EXPIRE_MINUTES);
               token_type := "bearer" |}
   end,
   emits [ev_connect;
          ev_execute (SELECT_users "hashed_password" (uc_username user));
          ev_close] w).
Proof.
  unfold login. run_handler.
  destruct (head _) as [row|]; [|reflexivity].
  destruct (verify_password _ _); reflexivity.
Qed.

Lemma login_reads (user : UserCreate) : reads_only (the_login user).
Proof.
  intros w. rewrite login_run. cbn [snd].
  rewrite w_env_emits, w_db_emits, w_locked_emits. auto.
Qed.

Lemma register_taken (user : UserCreate) (w : world) (row : user_row) :
  In row (users (w_db w)) -> u_username row = uc_username user ->
  the_register user w =
  (Raise (HTTPException 400 "Username already registered"),
   emits [ev_connect; ev_execute (SELECT_users "id" (uc_username user)); ev_close] w).
Proof.
  intros Hin Hname. unfold register. run_handler.
  assert (Hsel : In row (List.filter (has_username (uc_username user)) (users (w_db w)))).
  { apply filter_In. split; [exact Hin|]. apply has_username_iff. exact Hname. }
  destruct (List.filter _ _) as [|r0 l]; [destruct Hsel|]. reflexivity.
Qed.

Lemma free_no_rows (username : string) (rows : list user_row) :
  (forall r, In r rows -> u_username r <> username) ->
  List.filter (has_username username) rows = [].
Proof.
  intros Hfree. apply filter_none. intros x Hx.
  destruct (has_username _ x) eqn:E; [|reflexivity].
  apply has_username_iff in E. exfalso. exact (Hfree x Hx E).
Qed.

Lemma register_locked (user : UserCreate) (w : world) :
  (forall r, In r (users (w_db w)) -> u_username r <> uc_username user) ->
  w_locked w = true ->
  the_register user w =
  (Raise is_locked,
   emits [ev_connect; ev_execute (SELECT_users "id" (uc_username user));
          ev_execute (INSERT_users (uc_username user)
                        (get_password_hash (entropy (w_env w)) (uc_password user)))] w).
Proof.
  intros Hfree Hl. pose proof (free_no_rows _ _ Hfree) as Hnil.
  unfold register. run_handler. rewrite Hnil. simpl. rewrite Hl. reflexivity.
Qed.

Lemma register_full (user : UserCreate) (w : world) :
  (forall r, In r (users (w_db w)) -> u_username r <> uc_username user) ->
  w_locked w = false ->
  ~ room_for_user (w_db w) ->
  exists w',
    the_register user w = (Raise is_full, w') /\
    w_db w' = w_db w /\ w_env w' = w_env w /\ w_locked w' = false.
Proof.
  intros Hfree Hl Hfull. pose proof (free_no_rows _ _ Hfree) as Hnil.
  pose proof (proj2 (existsb_filter_nil _ _) Hnil) as Hex.
  unfold room_for_user in Hfull. apply not_true_is_false in Hfull.
  unfold register. run_handler. rewrite Hnil. simpl. rewrite Hl, Hex.
  unfold new_rowid. rewrite Hfull. simpl. eexists. repeat split.
Qed.

Lemma register_free (user : UserCreate) (w : world) :
  (forall r, In r (users (w_db w)) -> u_username r <> uc_username user) ->
  w_locked w = false ->
  room_for_user (w_db w) ->
  let row := {| u_id := next_rowid (users_seq (w_db w)) (map u_id (users (w_db w)));
                u_username := uc_username user;
                u_hashed_password :=
                  get_password_hash (entropy (w_env w)) (uc_password user);
                u_created_at := clock (w_env w) |} in
  exists w',
    the_register user w =
      (Ok {| access_token :=
               create_access_token (clock (w_env w)) [("sub", uc_username user)]
                 (timedelta_minutes ACCESS_TOKEN_EXPIRE_MINUTES);
             token_type := "bearer" |}, w') /\
    w_env w' = w_env w /\
    w_locked w' = false /\
    w_db w' = {| users := users (w_db w) ++ [row]; users_seq := u_id row;
                 movies := movies (w_db w); movies_seq := movies_seq (w_db w) |}.
Proof.
  intros Hfree Hl Hroom row. subst row. pose proof (free_no_rows _ _ Hfree) as Hnil.
  pose proof (proj2 (existsb_filter_nil _ _) Hnil) as Hex.
  unfold room_for_user in Hroom.
  unfold register. run_handler. rewrite Hnil. simpl. rewrite Hl, Hex.
  unfold new_rowid. rewrite Hroom. simpl.
  eexists. split; [reflexivity|]. repeat split.
Qed.

(** All that [register] can do. *)
Lemma register_cases (user : UserCreate) (w : world) :
  (exists e w',
      the_register user w = (Raise e, w') /\
      w_db w' = w_db w /\ w_env w' = w_env w /\
      (e = HTTPException 400 "Username already registered" /\
         (exists row, In row (users (w_db w)) /\ u_username row = uc_username user) \/
       e = is_locked /\ w_locked w = true \/
       e = is_full /\ w_locked w = false /\ ~ room_for_user (w_db w))) \/
  ((forall r, In r (users (w_db w)) -> u_username r <> uc_username user) /\
   w_locked w = false /\ room_for_user (w_db w)).
Proof.
  destruct (List.filter (has_username (uc_username user)) (users (w_db w)))
    as [|row l] eqn:Hsel.
  - assert (Hfree : forall r, In r (users (w_db w)) -> u_username r <> uc_username user).
    { intros r Hr Hname. apply has_username_iff in Hname.
      pose proof (filter_no_match _ _ Hsel r Hr). congruence. }
    destruct (w_locked w) eqn:Hl.
    + left. eexists. eexists. rewrite (register_locked user w Hfree Hl).
      split; [reflexivity|]. rewrite w_db_emits, w_env_emits.
      split; [reflexivity|]. split; [reflexivity|]. right; left. split; reflexivity.
    + destruct (in_int64 (next_rowid (users_seq (w_db w)) (map u_id (users (w_db w)))))
        eqn:Hroom; [right; auto|].
      assert (Hfull : ~ room_for_user (w_db w))
        by (unfold room_for_user; rewrite Hroom; discriminate).
      destruct (register_full user w Hfree Hl Hfull) as (w1 & Hrun & Hd & He & _).
      left. exists is_full, w1. split; [exact Hrun|]. split; [exact Hd|].
      split; [exact He|]. right; right. auto.
  - assert (Hin : In row (List.filter (has_username (uc_username user)) (users (w_db w))))
      by (rewrite Hsel; left; reflexivity).
    apply filter_In in Hin. destruct Hin as [Hin Hname].
    apply has_username_iff in Hname.
    left. eexists. eexists. rewrite (register_taken user w row Hin Hname).
    split; [reflexivity|]. rewrite w_db_emits, w_env_emits.
    split; [reflexivity|]. split; [reflexivity|]. left. split; [reflexivity|].
    exists row. auto.
Qed.

Lemma register_footprint (user : UserCreate) :
  commits_only (fun st => exists h, st = INSERT_users (uc_username user) h)
    (the_register user).
Proof.
  intros w.
  destruct (register_cases user w)
    as [(e & w' & Hrun & Hd & He & _)|(Hfree & Hl & Hroom)].
  - rewrite Hrun. cbn [snd]. split; [exact He|left; exact Hd].
  - destruct (register_free user w Hfree Hl Hroom) as (w' & Hrun & Henv & _ & Hdb).
    rewrite Hrun. cbn [snd]. split; [exact Henv|]. right.
    exists (INSERT_users (uc_username user)
              (get_password_hash (entropy (w_env w)) (uc_password user))).
    eexists. split; [eexists; reflexivity|].
    rewrite run_statement_bound by reflexivity. simpl.
    rewrite (proj2 (existsb_filter_nil _ _) (free_no_rows _ _ Hfree)).
    unfold room_for_user in Hroom. unfold new_rowid. rewrite Hroom, Hdb. reflexivity.
Qed.

Lemma register_commits (user : UserCreate) : commits_one (the_register user).
Proof. exact (commits_only_one _ _ (register_footprint user)). Qed.

(** A registration that returned has left a row of that username and the
    token made from it. *)
Lemma register_returned (user : UserCreate) (w w' : world) (t : Token) :
  the_register user w = (Ok t, w') ->
  t = {| access_token :=
           create_access_token (clock (w_env w)) [("sub", uc_username user)]
             (timedelta_minutes ACCESS_TOKEN_EXPIRE_MINUTES);
         token_type := "bearer" |} /\
  exists row, In row (users (w_db w')) /\ u_username row = uc_username user /\
              u_hashed_password row =
                get_password_hash (entropy (w_env w)) (uc_password user).
Proof.
  intros H.
  destruct (register_cases user w)
    as [(e & w1 & Hrun & _)|(Hfree & Hl & Hroom)].
  - rewrite Hrun in H. discriminate H.
  - destruct (register_free user w Hfree Hl Hroom) as (w1 & Hrun & _ & _ & Hdb).
    rewrite Hrun in H. inversion H; subst. split; [reflexivity|].
    eexists. split; [rewrite Hdb; simpl; apply in_or_app; right; left; reflexivity|].
    split; reflexivity.
Qed.

Lemma validate_reads (body : MovieCreate_body) : reads_only (MovieCreate_validate body).
Proof.
  intros w. unfold MovieCreate_validate.
  destruct (body_title body) as [|[t|]]; repeat split; reflexivity.
Qed.

(** Every route commits at most the effect of one statement. *)
Lemma app_commits (req : request) : commits_one (the_app req).
Proof.
  destruct req; simpl.
  - apply commits_then_read; [apply register_commits|intros; apply reads_only_ret].
  - apply reads_only_commits, reads_only_bind;
      [apply login_reads|intros; apply reads_only_ret].
  - apply reads_only_commits, reads_only_bind; [apply current_user_of_reads|].
    intros u. apply reads_only_bind; [apply get_movies_reads|intros; apply reads_only_ret].
  - apply commits_after_read; [apply current_user_of_reads|]. intros u.
    apply commits_after_read; [apply validate_reads|]. intros movie.
    apply commits_then_read; [apply create_movie_commits|intros; apply reads_only_ret].
  - apply reads_only_commits, reads_only_bind; [apply current_user_of_reads|].
    intros u. apply reads_only_bind; [apply get_movie_reads|intros; apply reads_only_ret].
  - apply commits_after_read; [apply current_user_of_reads|]. intros u.
    apply commits_then_read; [apply update_movie_commits|intros; apply reads_only_ret].
  - apply commits_after_read; [apply current_user_of_reads|]. intros u.
    apply commits_then_read; [apply delete_movie_commits|intros; apply reads_only_ret].
Qed.

Lemma serve_step (env : environment) (req : request) (w : world) :
  let db' := w_db (snd (the_serve env req w)) in
  db' = w_db w \/ exists st cur, run_statement (clock env) st (w_db w) = Ok (db', cur).
Proof.
  unfold serve. destruct (app_commits req (at_ env w)) as [_ H]. exact H.
Qed.

Lemma serve_all_users (history : list (environment * request)) (w : world) (r : user_row) :
  In r (users (w_db w)) -> In r (users (w_db (the_serve_all history w))).
Proof.
  revert w. induction history as [|[env req] history IH]; intros w Hr; [exact Hr|].
  simpl. apply IH.
  destruct (serve_step env req w) as [->|(st & cur & Hst)]; [exact Hr|].
  exact (run_statement_users _ _ _ _ _ Hst r Hr).
Qed.

Lemma serve_all_owners (history : list (environment * request)) (w : world) :
  owners_kept (w_db w) (w_db (the_serve_all history w)).
Proof.
  revert w. induction history as [|[env req] history IH]; intros w;
    [apply owners_kept_refl|].
  simpl. eapply owners_kept_trans; [|apply IH].
  destruct (serve_step env req w) as [->|(st & cur & Hst)]; [apply owners_kept_refl|].
  exact (run_statement_owners _ _ _ _ _ Hst).
Qed.

(** The constraints of the schema hold in every state the routes can
    reach. *)
Lemma serve_all_well_formed (history : list (environment * request)) (w : world) :
  well_formed (w_db w) -> well_formed (w_db (the_serve_all history w)).
Proof.
  revert w. induction history as [|[env req] history IH]; intros w Hwf; [exact Hwf|].
  simpl. apply IH.
  destruct (serve_step env req w) as [->|(st & cur & Hst)]; [exact Hwf|].
  exact (run_statement_well_formed _ _ _ _ _ Hst Hwf).
Qed.

(** The rowids and the owners are integers SQLite can hold in every state
    the routes can reach. *)
Lemma serve_all_keys_fit (history : list (environment * request)) (w : world) :
  keys_fit (w_db w) -> keys_fit (w_db (the_serve_all history w)).
Proof.
  revert w. induction history as [|[env req] history IH]; intros w Hfit; [exact Hfit|].
  simpl. apply IH.
  destruct (serve_step env req w) as [->|(st & cur & Hst)]; [exact Hfit|].
  exact (run_statement_keys_fit _ _ _ _ _ Hst Hfit).
Qed.

Lemma current_user_registered (authorization : option string) (w w1 : world) (u : User) :
  the_current_user_of authorization w = (Ok u, w1) ->
  w_db w1 = w_db w /\ w_env w1 = w_env w /\ w_locked w1 = w_locked w /\
  exists row, In row (users (w_db w)) /\ u_id row = user_ident u /\
              u_username row = user_username u.
Proof.
  intros H. destruct (current_user_of_reads authorization w) as (He & Hd & Hl).
  rewrite H in He, Hd, Hl. simpl in He, Hd, Hl.
  split; [exact Hd|]. split; [exact He|]. split; [exact Hl|].
  unfold current_user_of, security, get_current_user in H. revert H. run_handler.
  destruct authorization as [token|]; simpl; [|discriminate].
  destruct (decode_access_token _ _) as [[[username|]]|]; simpl; try discriminate.
  destruct (head _) as [row|] eqn:Hhead; intros H; inversion H; subst.
  apply head_filter_in in Hhead. exists row. simpl. tauto.
Qed.

(** *** Authentication *)

(** C5. A request to any of the five protected routes whose Authorization
    header is missing, or whose token [decode_access_token] rejects
    (malformed, expired or tampered) or decodes to no username, raises 401
    and leaves the world exactly as it was: no connection is opened, no
    statement is executed, nothing is committed. *)
Theorem unauthorized_before_storage (req : request) (authorization : option string)
    (w : world) :
  authorization_of req = Some authorization ->
  token_rejected decode_access_token (clock (w_env w)) authorization = true ->
  exists detail,
    the_app req w = (Raise (HTTPException HTTP_401_UNAUTHORIZED detail), w) /\
    kind_of (HTTPException HTTP_401_UNAUTHORIZED detail) = Unauthorized /\
    w_trace (snd (the_app req w)) = w_trace w /\
    w_db (snd (the_app req w)) = w_db w.
Proof.
  intros Hreq Hrej.
  destruct (current_user_rejected authorization w Hrej) as [detail Hcur].
  exists detail.
  assert (Hrun : the_app req w = (Raise (HTTPException HTTP_401_UNAUTHORIZED detail), w)).
  { destruct req; simpl in Hreq; inversion Hreq; subst;
      simpl; unfold mbind, M_bind; rewrite Hcur; reflexivity. }
  rewrite Hrun. repeat split.
Qed.

(** C6. A login with a username that is not registered and a login with a
    registered username and a password that does not verify raise the same
    exception, 401 "Incorrect username or password", after the same single
    query; neither changes the database. *)
Theorem login_failures_identical (w1 w2 : world) (user1 user2 : UserCreate)
    (row : user_row) :
  (forall r, In r (users (w_db w1)) -> u_username r <> uc_username user1) ->
  users_unique (w_db w2) ->
  In row (users (w_db w2)) ->
  u_username row = uc_username user2 ->
  verify_password (uc_password user2) (u_hashed_password row) = false ->
  let failure := HTTPException 401 "Incorrect username or password" in
  the_login user1 w1 =
    (Raise failure,
     emits [ev_connect; ev_execute (SELECT_users "hashed_password" (uc_username user1));
            ev_close] w1) /\
  the_login user2 w2 =
    (Raise failure,
     emits [ev_connect; ev_execute (SELECT_users "hashed_password" (uc_username user2));
            ev_close] w2) /\
  fst (the_login user1 w1) = fst (the_login user2 w2) /\
  kind_of failure = Unauthorized.
Proof.
  intros Hfree Huniq Hrow Hname Hbad failure. subst failure.
  assert (H1 : List.filter (has_username (uc_username user1)) (users (w_db w1)) = []).
  { apply filter_none. intros x Hx. destruct (has_username _ x) eqn:E; [|reflexivity].
    apply has_username_iff in E. exfalso. exact (Hfree x Hx E). }
  pose proof (unique_select_user _ _ Huniq Hrow) as H2. rewrite Hname in H2.
  rewrite !login_run, H1, H2. simpl. rewrite Hbad. simpl.
  repeat split.
Qed.

(** *** Registration *)

(** C9. If a registration of a username succeeded, it returned the token
    made from the claims [{"sub": username}], and after any history of
    requests a registration of the same username, whatever the password,
    raises 400 "Username already registered", returns no token and leaves
    the database as it was. *)
Theorem register_twice_conflict (env1 env2 : environment) (user1 user2 : UserCreate)
    (history : list (environment * request)) (w w1 : world) (resp : response) :
  the_serve env1 (POST_register user1) w = (Ok resp, w1) ->
  uc_username user2 = uc_username user1 ->
  resp = token_response
           {| access_token :=
                create_access_token (clock env1) [("sub", uc_username user1)]
                  (timedelta_minutes ACCESS_TOKEN_EXPIRE_MINUTES);
              token_type := "bearer" |} /\
  exists w3,
    the_serve env2 (POST_register user2) (the_serve_all history w1) =
      (Raise (HTTPException 400 "Username already registered"), w3) /\
    kind_of (HTTPException 400 "Username already registered") = Conflict /\
    w_db w3 = w_db (the_serve_all history w1).
Proof.
  intros Hfirst Hname.
  assert (Hreg : exists row,
             In row (users (w_db w1)) /\ u_username row = uc_username user1 /\
             resp = token_response
                      {| access_token :=
                           create_access_token (clock env1) [("sub", uc_username user1)]
                             (timedelta_minutes ACCESS_TOKEN_EXPIRE_MINUTES);
                         token_type := "bearer" |}).
  { unfold serve in Hfirst. simpl in Hfirst. unfold mbind, M_bind in Hfirst.
    destruct (the_register user1 (at_ env1 w)) as [[t|e] w0] eqn:Hrun;
      [|discriminate Hfirst].
    destruct (register_returned _ _ _ _ Hrun) as (-> & row & Hrow & Hn & _).
    inversion Hfirst; subst. exists row. auto. }
  destruct Hreg as (row & Hrow & Hn & Hresp). split; [exact Hresp|].
  pose proof (serve_all_users history w1 row Hrow) as Hstill.
  eexists. unfold serve. simpl. unfold mbind, M_bind.
  rewrite (register_taken user2 (at_ env2 (the_serve_all history w1)) row)
    by (simpl; congruence).
  split; [reflexivity|]. split; [reflexivity|]. rewrite w_db_emits. reflexivity.
Qed.

(** *** Creation through the route *)

(** C3, as the code has it.  For an authenticated caller, [POST /api/movies]
    raises a validation error and creates no record when [title] is missing
    or null.  When [title] is a string, the empty string included, and the
    database is not locked and can issue a rowid: if the year is absent,
    null or an integer SQLite can hold, it returns 201 with the created
    record, in which every field that the request left out or sent as null
    is [None], and adds exactly one row to the table, with these fields (the
    rating as the table keeps it); if the year is an integer SQLite cannot
    hold, binding it raises [OverflowError] and nothing is stored. *)
Theorem create_movie_validation (authorization : option string)
    (body : MovieCreate_body) (caller : User) (w w1 : world) :
  the_current_user_of authorization w = (Ok caller, w1) ->
  match body_title body with
  | unset | given None =>
      exists e,
        the_app (POST_movies authorization body) w = (Raise e, w1) /\
        kind_of e = Validation /\
        w_db w1 = w_db w
  | given (Some t) =>
      users_fit (w_db w) -> w_locked w = false -> room_for_movie (w_db w) ->
      if fits (default_None (body_year body)) then
        exists created row w',
          the_app (POST_movies authorization body) w =
            (Ok (movie_response HTTP_201_CREATED created), w') /\
          title created = t /\
          director created = default_None (body_director body) /\
          year created = default_None (body_year body) /\
          genre created = default_None (body_genre body) /\
          rating created = default_None (body_rating body) /\
          description created = default_None (body_description body) /\
          user_id created = user_ident caller /\
          movies (w_db w') = movies (w_db w) ++ [row] /\
          dict row =
            {| id := id created; title := t; director := director created;
               year := year created; genre := genre created;
               rating := stored (rating created);
               description := description created; user_id := user_ident caller |}
      else
        exists w',
          the_app (POST_movies authorization body) w =
            (Raise (OverflowError "Python int too large to convert to SQLite INTEGER"),
             w') /\
          w_db w' = w_db w
  end.
Proof.
  intros Hcur.
  destruct (current_user_registered authorization w w1 caller Hcur)
    as (Hdb & Henv & Hlock & urow & Hurow & Huid & _).
  destruct (body_title body) as [|[t|]] eqn:Htitle; simpl;
    unfold mbind, M_bind, mret, M_ret, MovieCreate_validate;
    rewrite Hcur, Htitle; cbv beta iota.
  - eexists. split; [reflexivity|]. split; [reflexivity|exact Hdb].
  - intros Hfit Hl Hroom. unfold mret, M_ret. cbv beta iota.
    assert (Hu : in_int64 (user_ident caller) = true)
      by (rewrite <- Huid; apply Hfit; exact Hurow).
    rewrite <- Hlock in Hl. rewrite <- Hdb in Hroom.
    destruct (fits (default_None (body_year body))) eqn:Hy.
    + match goal with |- context [create_movie ?m caller w1] =>
        destruct (create_movie_run m caller w1 Hy Hu Hl Hroom) as (w' & Hrun & Hdb' & _)
      end.
      eexists. eexists. exists w'. rewrite Hrun.
      split; [reflexivity|]. rewrite Hdb', Hdb. simpl.
      repeat split.
    + match goal with |- context [create_movie ?m caller w1] =>
        rewrite (create_movie_overflow m caller w1)
          by (cbn [mc_year]; rewrite Hy; reflexivity)
      end.
      eexists. split; [reflexivity|]. rewrite w_db_emits. exact Hdb.
  - eexists. split; [reflexivity|]. split; [reflexivity|exact Hdb].
Qed.

(** *** Updates through the route *)



(** *** The owner of a movie *)

(** C8. Owner immutability.  A record [create_movie] returns carries the
    caller's id, and the row stored under its id is owned by the caller;
    over any history of requests a movie keeps the owner it has (a row with
    the id of a movie of the table has the owner of that movie); in
    particular [update_movie] changes no owner, for no SET entry it can
    build names the column [user_id]. *)
Theorem owner_immutable (w : world) :
  movies_pk (w_db w) ->
  ids_bounded (w_db w) ->
  (forall movie caller created w',
      create_movie movie caller w = (Ok created, w') ->
      user_id created = user_ident caller /\
      exists row,
        In row (movies (w_db w')) /\ m_id row = id created /\
        m_user_id row = user_ident caller) /\
  (forall history r r',
      In r (movies (w_db w)) ->
      In r' (movies (w_db (the_serve_all history w))) ->
      m_id r' = m_id r -> m_user_id r' = m_user_id r) /\
  (forall movie_id movie_update caller r r',
      In r (movies (w_db w)) ->
      In r' (movies (w_db (snd (update_movie movie_id movie_update caller w)))) ->
      m_id r' = m_id r -> m_user_id r' = m_user_id r) /\
  (forall a : assignment, key a <> "user_id").
Proof.
  intros Hpk Hbound. split; [|split; [|split]].
  - intros movie caller created w' Hret.
    destruct (create_movie_returned movie caller w created w' Hret)
      as (Hy & Hu & Hl & Hroom).
    destruct (create_movie_run movie caller w Hy Hu Hl Hroom) as (w2 & Hrun & Hdb & _).
    rewrite Hrun in Hret. inversion Hret; subst. split; [reflexivity|].
    eexists. rewrite Hdb. cbn [movies].
    split; [apply in_or_app; right; left; reflexivity|split; reflexivity].
  - intros history r r' Hr Hr' Hid.
    exact (owners_kept_same _ _ r r' Hpk Hbound (serve_all_owners history w) Hr Hr' Hid).
  - intros movie_id movie_update caller r r' Hr Hr' Hid.
    refine (owners_kept_same _ _ r r' Hpk Hbound _ Hr Hr' Hid).
    destruct (update_movie_commits movie_id movie_update caller w)
      as [_ [->|(st & cur & Hst)]]; [apply owners_kept_refl|].
    exact (run_statement_owners _ _ _ _ _ Hst).
  - intros a. destruct a; discriminate.
Qed.

End Routes.

(** ** The statements at work on the example worlds *)

Lemma two_users_unique : users_unique two_users.
Proof.
  unfold users_unique; simpl.
  apply (bool_decide_unpack _). vm_compute. exact I.
Defined.

Lemma two_users_bounded : ids_bounded two_users.
Proof.
  intros r [<-|[]]. simpl. lia.
Defined.

Lemma two_users_fit : keys_fit two_users.
Proof.
  split.
  - intros r [<-|[]]. split; reflexivity.
  - intros u [<-|[<-|[]]]; reflexivity.
Defined.

Lemma unauthorized_before_storage_witness :
  authorization_of (DELETE_movie (Some "expired") 1) = Some (Some "expired") /\
  token_rejected demo_decode_access_token (clock (w_env two_users_world))
    (Some "expired") = true /\
  exists detail,
    demo_app (DELETE_movie (Some "expired") 1) two_users_world =
      (Raise (HTTPException HTTP_401_UNAUTHORIZED detail), two_users_world) /\
    kind_of (HTTPException HTTP_401_UNAUTHORIZED detail) = Unauthorized /\
    w_trace (snd (demo_app (DELETE_movie (Some "expired") 1) two_users_world)) = [] /\
    w_db (snd (demo_app (DELETE_movie (Some "expired") 1) two_users_world)) = two_users.
Proof.
  split; [reflexivity|]. split; [reflexivity|].
  exact (unauthorized_before_storage demo_decode_access_token demo_verify_password
           demo_get_password_hash demo_create_access_token 30
           (DELETE_movie (Some "expired") 1) (Some "expired") two_users_world
           eq_refl eq_refl).
Defined.

Lemma login_failures_identical_witness :
  let carol := {| uc_username := "carol"; uc_password := "pw1" |} in
  let alice_wrong := {| uc_username := "alice"; uc_password := "guess" |} in
  let failure := HTTPException 401 "Incorrect username or password" in
  (forall r, In r (users two_users) -> u_username r <> "carol") /\
  users_unique two_users /\
  demo_verify_password "guess" "hash:pw1" = false /\
  fst (demo_login carol two_users_world) = Raise failure /\
  fst (demo_login alice_wrong two_users_world) = Raise failure.
Proof.
  intros carol alice_wrong failure.
  assert (Hfree : forall r, In r (users (w_db two_users_world)) ->
                            u_username r <> uc_username carol).
  { intros r [<-|[<-|[]]]; simpl; discriminate. }
  assert (Hrow : In {| u_id := 1; u_username := "alice";
                       u_hashed_password := "hash:pw1"; u_created_at := 1 |}
                   (users (w_db two_users_world))) by (left; reflexivity).
  split; [exact Hfree|]. split; [exact two_users_unique|]. split; [reflexivity|].
  destruct (login_failures_identical demo_verify_password demo_create_access_token 30
              two_users_world two_users_world carol alice_wrong _
              Hfree two_users_unique Hrow eq_refl eq_refl) as (H1 & H2 & _).
  unfold demo_login. rewrite H1, H2. split; reflexivity.
Defined.

Lemma register_twice_conflict_witness :
  let env := {| clock := 5; entropy := 7; finalized := false |} in
  let later := {| clock := 9; entropy := 8; finalized := false |} in
  let first := {| uc_username := "alice"; uc_password := "pw1" |} in
  let second := {| uc_username := "alice"; uc_password := "pw2" |} in
  let history := [(later, POST_login first); (later, GET_movies (Some "token:alice"))] in
  let w1 := snd (demo_serve env (POST_register first) fresh_world) in
  let token := {| access_token := "token:alice"; token_type := "bearer" |} in
  demo_serve env (POST_register first) fresh_world = (Ok (token_response token), w1) /\
  exists w3,
    demo_serve later (POST_register second) (demo_serve_all history w1) =
      (Raise (HTTPException 400 "Username already registered"), w3) /\
    kind_of (HTTPException 400 "Username already registered") = Conflict /\
    w_db w3 = w_db (demo_serve_all history w1).
Proof.
  intros env later first second history w1 token.
  assert (Hfirst : demo_serve env (POST_register first) fresh_world
                   = (Ok (token_response token), w1)) by reflexivity.
  split; [exact Hfirst|].
  exact (proj2 (register_twice_conflict demo_decode_access_token demo_verify_password
                  demo_get_password_hash demo_create_access_token 30
                  env later first second history fresh_world w1 (token_response token)
                  Hfirst eq_refl)).
Defined.

Lemma create_movie_validation_witness :
  let w1 := snd (demo_current_user_of (Some "token:alice") two_users_world) in
  demo_current_user_of (Some "token:alice") two_users_world = (Ok alice, w1) /\
  users_fit two_users /\
  w_locked two_users_world = false /\
  room_for_movie two_users /\
  exists created row w',
    demo_app (POST_movies (Some "token:alice") empty_title_body) two_users_world =
      (Ok (movie_response HTTP_201_CREATED created), w') /\
    title created = "" /\
    director created = None /\ year created = None /\ genre created = None /\
    rating created = None /\ description created = None /\
    user_id created = 1 /\
    movies (w_db w') = [dune; row] /\
    dict row = {| id := id created; title := ""; director := director created;
                  year := year created; genre := genre created;
                  rating := stored (rating created);
                  description := description created; user_id := 1 |}.
Proof.
  intros w1.
  assert (Hcur : demo_current_user_of (Some "token:alice") two_users_world
                 = (Ok alice, w1)) by reflexivity.
  assert (Hroom : room_for_movie (w_db two_users_world)) by reflexivity.
  split; [exact Hcur|]. split; [exact (proj2 two_users_fit)|].
  split; [reflexivity|]. split; [exact Hroom|].
  exact (create_movie_validation demo_decode_access_token demo_verify_password
           demo_get_password_hash demo_create_access_token 30
           (Some "token:alice") empty_title_body alice two_users_world w1 Hcur
           (proj2 two_users_fit) eq_refl Hroom).
Defined.

(** C3, as stated, fails on a title that is the empty string: the request
    is not rejected, and a record with that title is created. *)
Lemma create_movie_empty_title_counterexample :
  body_title empty_title_body = given (Some "") /\
  fst (demo_app (POST_movies (Some "token:alice") empty_title_body) two_users_world) =
    Ok (movie_response HTTP_201_CREATED
          {| id := 2; title := ""; director := None; year := None; genre := None;
             rating := None; description := None; user_id := 1 |}) /\
  movies (w_db (snd (demo_app (POST_movies (Some "token:alice") empty_title_body)
                       two_users_world))) =
    [dune;
     {| m_id := 2; m_title := ""; m_director := None; m_year := None;
        m_genre := None; m_rating := None; m_description := None;
        m_user_id := 1; m_created_at := 20 |}] /\
  ~ (exists e w',
        demo_app (POST_movies (Some "token:alice") empty_title_body) two_users_world =
          (Raise e, w') /\ kind_of e = Validation).
Proof.
  split; [reflexivity|]. split; [reflexivity|]. split; [reflexivity|].
  intros (e & w' & H & _). vm_compute in H. discriminate H.
Qed.


Lemma owner_immutable_witness :
  movies_pk two_users /\ ids_bounded two_users /\
  forall history r',
    In r' (movies (w_db (demo_serve_all history two_users_world))) ->
    m_id r' = 1 -> m_user_id r' = 1.
Proof.
  split; [exact two_users_pk|]. split; [exact two_users_bounded|].
  intros history r' Hr' Hid.
  destruct (owner_immutable demo_decode_access_token demo_verify_password
              demo_get_password_hash demo_create_access_token 30
              two_users_world two_users_pk two_users_bounded) as (_ & Hkeep & _).
  exact (Hkeep history dune r' (or_introl eq_refl) Hr' Hid).
Defined.

(** ** The statements as the source writes them *)

Example sql_of_get_movie :
  sql (SELECT_movies movie_columns [id_eq 1; user_id_eq 2]) =
  "SELECT id, title, director, year, genre, rating, description, user_id FROM movies WHERE id = ? AND user_id = ?".
Proof. reflexivity. Qed.

Example sql_of_update_rating :
  sql (UPDATE_movies (model_dump_exclude_unset (only_rating 9.5%float))
         [id_eq 1; user_id_eq 1]) =
  "UPDATE movies SET rating = ? WHERE id = ? AND user_id = ?" /\
  parameters (UPDATE_movies (model_dump_exclude_unset (only_rating 9.5%float))
                [id_eq 1; user_id_eq 1]) =
  [REAL 9.5%float; INTEGER 1; INTEGER 1].
Proof. split; reflexivity. Qed.

Example sql_of_delete :
  sql (DELETE_movies [id_eq 1; user_id_eq 2]) =
  "DELETE FROM movies WHERE id = ? AND user_id = ?".
Proof. reflexivity. Qed.

(** ** A session

    Register alice, fail to register her again, log in, create "Dune", list,
    update its rating alone, delete it, and look for it. *)

Example session :
  let env := {| clock := 5; entropy := 7; finalized := false |} in
  let alice_pw1 := {| uc_username := "alice"; uc_password := "pw1" |} in
  let alice_pw2 := {| uc_username := "alice"; uc_password := "pw2" |} in
  let bearer := Some "token:alice" in
  let dune_body :=
    {| body_title := given (Some "Dune"); body_director := unset; body_year := unset;
       body_genre := unset; body_rating := unset; body_description := unset |} in
  let created :=
    {| id := 1; title := "Dune"; director := None; year := None; genre := None;
       rating := None; description := None; user_id := 1 |} in
  let rated :=
    {| id := 1; title := "Dune"; director := None; year := None; genre := None;
       rating := Some 9.5%float; description := None; user_id := 1 |} in
  let w1 := snd (demo_serve env (POST_register alice_pw1) fresh_world) in
  let w2 := snd (demo_serve env (POST_movies bearer dune_body) w1) in
  let w3 := snd (demo_serve env (PUT_movie bearer 1 (only_rating 9.5%float)) w2) in
  let w4 := snd (demo_serve env (DELETE_movie bearer 1) w3) in
  fst (demo_serve env (POST_register alice_pw1) fresh_world) =
    Ok (token_response {| access_token := "token:alice"; token_type := "bearer" |}) /\
  fst (demo_serve env (POST_register alice_pw2) w1) =
    Raise (HTTPException 400 "Username already registered") /\
  fst (demo_serve env (POST_login alice_pw1) w1) =
    Ok (token_response {| access_token := "token:alice"; token_type := "bearer" |}) /\
  fst (demo_serve env (POST_movies bearer dune_body) w1) =
    Ok (movie_response 201 created) /\
  fst (demo_serve env (GET_movies bearer) w2) = Ok (movies_response [created]) /\
  fst (demo_serve env (PUT_movie bearer 1 (only_rating 9.5%float)) w2) =
    Ok (movie_response 200 rated) /\
  fst (demo_serve env (GET_movie bearer 1) w3) = Ok (movie_response 200 rated) /\
  fst (demo_serve env (DELETE_movie bearer 1) w3) = Ok (empty_response 204) /\
  fst (demo_serve env (GET_movie bearer 1) w4) =
    Raise (HTTPException 404 "Movie not found") /\
  fst (demo_serve env (POST_movies bearer dune_body) w4) =
    Ok (movie_response 201
          {| id := 2; title := "Dune"; director := None; year := None; genre := None;
             rating := None; description := None; user_id := 1 |}).
Proof. vm_compute. repeat split. Qed.

(** * Further properties of the handlers *)

(** ** Failures leave the database alone *)

Lemma fails_clean_ret {A : Type} (a : A) : fails_clean (mret a).
Proof. intros w e w' H. discriminate H. Qed.

Lemma fails_clean_after_read {A B : Type} (m : M A) (k : A -> M B) :
  reads_only m -> (forall a, fails_clean (k a)) -> fails_clean (m ≫= k).
Proof.
  intros Hm Hk w e w' H. unfold mbind, M_bind in H. specialize (Hm w).
  destruct (m w) as [[a|e1] w1]; simpl in Hm.
  - rewrite (Hk a w1 e w' H). tauto.
  - inversion H; subst. tauto.
Qed.

Lemma fails_clean_then_ret {A B : Type} (m : M A) (f : A -> B) :
  fails_clean m -> fails_clean (m ≫= fun a => mret (f a)).
Proof.
  intros Hm w e w' H. unfold mbind, M_bind in H.
  destruct (m w) as [[a|e1] w1] eqn:Hrun.
  - discriminate H.
  - inversion H; subst. exact (Hm w e w' Hrun).
Qed.

Lemma reads_only_fails_clean {A : Type} (m : M A) : reads_only m -> fails_clean m.
Proof.
  intros Hm w e w' H. destruct (Hm w) as (_ & Hd & _). rewrite H in Hd. exact Hd.
Qed.

Lemma create_movie_fails_clean (movie : MovieCreate) (u : User) :
  fails_clean (create_movie movie u).
Proof.
  intros w e w' H.
  destruct (create_movie_cases movie u w)
    as [(e1 & w1 & Hrun & Hd & _)|(Hy & Hu & Hl & Hroom)].
  - rewrite Hrun in H. inversion H; subst. exact Hd.
  - destruct (create_movie_run movie u w Hy Hu Hl Hroom) as (w1 & Hrun & _).
    rewrite Hrun in H. discriminate H.
Qed.

Lemma update_movie_fails_clean (movie_id : Z) (movie_update : MovieUpdate) (u : User) :
  fails_clean (update_movie movie_id movie_update u).
Proof.
  intros w e w' H.
  destruct (update_movie_cases movie_id movie_update u w)
    as [(e1 & w1 & Hrun & Hd & _)|(m & w1 & Hrun & _)].
  - rewrite Hrun in H. inversion H; subst. exact Hd.
  - rewrite Hrun in H. discriminate H.
Qed.

Lemma delete_movie_fails_clean (movie_id : Z) (u : User) :
  fails_clean (delete_movie movie_id u).
Proof.
  intros w e w' H.
  destruct (delete_movie_cases movie_id u w)
    as [[_ Hrun]|[[_ Hrun]|[[_ Hrun]|(_ & _ & _ & r0 & w1 & _ & Hrun & _)]]];
    rewrite Hrun in H; inversion H; subst; reflexivity.
Qed.

(** ** The statement each handler commits *)

Lemma commits_only_weaken {A : Type} (P Q : statement -> Prop) (m : M A) :
  (forall st, P st -> Q st) -> commits_only P m -> commits_only Q m.
Proof.
  intros HPQ Hm w. destruct (Hm w) as [He [Hd|(st & cur & HP & Hst)]].
  - split; [exact He|left; exact Hd].
  - split; [exact He|right]. exists st, cur. auto.
Qed.

Lemma commits_only_then_read {A B : Type} (P : statement -> Prop) (m : M A)
    (k : A -> M B) :
  commits_only P m -> (forall a, reads_only (k a)) -> commits_only P (m ≫= k).
Proof.
  intros Hm Hk w. unfold mbind, M_bind. specialize (Hm w).
  destruct (m w) as [[a|e] w1]; simpl in *.
  - destruct Hm as [He1 Hd1]. destruct (Hk a w1) as (He & Hd & _).
    rewrite He, Hd. split; [exact He1|exact Hd1].
  - exact Hm.
Qed.

Lemma commits_only_after_read {A B : Type} (P : statement -> Prop) (m : M A)
    (k : A -> M B) :
  reads_only m -> (forall a, commits_only P (k a)) -> commits_only P (m ≫= k).
Proof.
  intros Hm Hk w. unfold mbind, M_bind. specialize (Hm w).
  destruct (m w) as [[a|e] w1]; simpl in *.
  - destruct Hm as (He1 & Hd1 & _). destruct (Hk a w1) as [He Hd].
    rewrite He1, Hd1 in Hd. split; [congruence|exact Hd].
  - destruct Hm as (He1 & Hd1 & _). split; [exact He1|left; exact Hd1].
Qed.

(** ** One user's writes and another user's rows *)

Lemma matches_in (where_ : list condition) (c : condition) (r : movie_row) :
  In c where_ -> matches where_ r = true -> holds c r = true.
Proof.
  unfold matches. intros Hin Hm. rewrite forallb_forall in Hm. exact (Hm c Hin).
Qed.

Lemma matches_other_owner (where_ : list condition) (uid : Z) (r : movie_row) :
  In (user_id_eq uid) where_ -> m_user_id r <> uid -> matches where_ r = false.
Proof.
  intros Hin Hne. destruct (matches where_ r) eqn:E; [|reflexivity].
  apply (matches_in _ _ _ Hin) in E. simpl in E. apply Z.eqb_eq in E. contradiction.
Qed.

Lemma matches_owner_in (where_ : list condition) (uid : Z) (r : movie_row) :
  In (user_id_eq uid) where_ -> matches where_ r = true -> m_user_id r = uid.
Proof.
  intros Hin Hm. apply (matches_in _ _ _ Hin) in Hm. simpl in Hm.
  apply Z.eqb_eq. exact Hm.
Qed.

Lemma update_rows_other_owner (set_ : list assignment) (mine theirs : list condition)
    (a b : Z) (rows rows' : list movie_row) :
  In (user_id_eq a) mine -> In (user_id_eq b) theirs -> a <> b ->
  update_rows set_ mine rows = Ok rows' ->
  List.filter (matches theirs) rows' = List.filter (matches theirs) rows.
Proof.
  intros Ha Hb Hab. revert rows'.
  induction rows as [|x rows IH]; simpl; intros rows' H.
  - inversion H; subst. reflexivity.
  - destruct (matches mine x) eqn:Em.
    + destruct (assign_all set_ x) as [x'|] eqn:Ex; [|discriminate].
      destruct (update_rows set_ mine rows) as [rest|]; [|discriminate].
      inversion H; subst. simpl.
      pose proof (matches_owner_in _ _ _ Ha Em) as Hown.
      apply assign_all_keeps in Ex. destruct Ex as (_ & Hown' & _).
      rewrite (matches_other_owner theirs b x') by (auto; congruence).
      rewrite (matches_other_owner theirs b x) by (auto; congruence).
      apply IH. reflexivity.
    + destruct (update_rows set_ mine rows) as [rest|]; [|discriminate].
      inversion H; subst. simpl. rewrite (IH rest eq_refl). reflexivity.
Qed.

Lemma delete_rows_other_owner (mine theirs : list condition) (a b : Z)
    (rows : list movie_row) :
  In (user_id_eq a) mine -> In (user_id_eq b) theirs -> a <> b ->
  List.filter (matches theirs) (List.filter (fun r => negb (matches mine r)) rows)
  = List.filter (matches theirs) rows.
Proof.
  intros Ha Hb Hab. induction rows as [|x rows IH]; simpl; [reflexivity|].
  destruct (matches mine x) eqn:Em; simpl.
  - pose proof (matches_owner_in _ _ _ Ha Em) as Hown.
    rewrite (matches_other_owner theirs b x) by (auto; congruence). exact IH.
  - rewrite IH. reflexivity.
Qed.

(** A statement written for one user leaves untouched what any query
    bound to another user selects, and the users. *)
Lemma writes_for_other_owner (now a b : Z) (st : statement) (db db' : database)
    (cur : cursor) (theirs : list condition) :
  writes_for a st -> a <> b -> In (user_id_eq b) theirs ->
  run_statement now st db = Ok (db', cur) ->
  List.filter (matches theirs) (movies db') = List.filter (matches theirs) (movies db) /\
  users db' = users db.
Proof.
  intros Hw Hab Hb H. apply run_statement_step in H. destruct H as [_ H].
  destruct st; simpl in Hw; try contradiction; simpl in H.
  - destruct (new_rowid _ _); [|discriminate].
    inversion H; subst; simpl. split; [|reflexivity].
    rewrite List.filter_app. simpl.
    rewrite (matches_other_owner theirs b) by (auto; simpl; congruence).
    apply app_nil_r.
  - destruct (update_rows _ _ _) as [rows|] eqn:Hu; [|discriminate].
    inversion H; subst; simpl. split; [|reflexivity].
    exact (update_rows_other_owner _ _ _ a b _ _ Hw Hb Hab Hu).
  - inversion H; subst; simpl. split; [|reflexivity].
    exact (delete_rows_other_owner _ _ a b _ Hw Hb Hab).
Qed.

Lemma commits_only_other_owner {A : Type} (m : M A) (a : Z) (other : User) (w : world) :
  commits_only (writes_for a) m -> a <> user_ident other ->
  fst (get_movies other (snd (m w))) = fst (get_movies other w) /\
  forall movie_id,
    fst (get_movie movie_id other (snd (m w))) = fst (get_movie movie_id other w).
Proof.
  intros Hm Hne. destruct (Hm w) as [_ [Hd|(st & cur & Hst & Hrun)]].
  - rewrite !get_movies_run. cbv zeta.
    split; [destruct (in_int64 _); cbn [fst]; rewrite ?Hd; reflexivity|].
    intros movie_id. rewrite !get_movie_run. cbv zeta.
    destruct (in_int64 movie_id && in_int64 (user_ident other)); cbn [fst];
      rewrite ?Hd; reflexivity.
  - split.
    + rewrite !get_movies_run. cbv zeta.
      destruct (in_int64 _); cbn [fst]; [|reflexivity].
      destruct (writes_for_other_owner _ a (user_ident other) _ _ _ _
                  [user_id_eq (user_ident other)] Hst Hne (or_introl eq_refl) Hrun)
        as [-> _]. reflexivity.
    + intros movie_id. rewrite !get_movie_run. cbv zeta.
      destruct (in_int64 movie_id && in_int64 (user_ident other)); cbn [fst];
        [|reflexivity].
      destruct (writes_for_other_owner _ a (user_ident other) _ _ _ _
                  [id_eq movie_id; user_id_eq (user_ident other)] Hst Hne
                  (or_intror (or_introl eq_refl)) Hrun)
        as [-> _]. reflexivity.
Qed.

(** X1. Whatever one user creates, updates or deletes, with whatever id and
    whatever request, every other user's list of movies and every other
    user's [get_movie] answer the same before and after. *)
Theorem writes_do_not_interfere (writer other : User) (w w' : world)
    (movie : MovieCreate) (movie_id : Z) (movie_update : MovieUpdate) :
  user_ident writer <> user_ident other ->
  w' = snd (create_movie movie writer w) \/
  w' = snd (update_movie movie_id movie_update writer w) \/
  w' = snd (delete_movie movie_id writer w) ->
  fst (get_movies other w') = fst (get_movies other w) /\
  forall j, fst (get_movie j other w') = fst (get_movie j other w).
Proof.
  intros Hne [-> | [-> | ->]]; apply (commits_only_other_owner _ (user_ident writer));
    try exact Hne.
  - eapply commits_only_weaken; [|apply create_movie_footprint].
    intros st ->. reflexivity.
  - eapply commits_only_weaken; [|apply update_movie_footprint].
    intros st ->. right; left; reflexivity.
  - eapply commits_only_weaken; [|apply delete_movie_footprint].
    intros st ->. right; left; reflexivity.
Qed.

Lemma writes_do_not_interfere_witness :
  user_ident alice <> user_ident bob /\
  fst (get_movies bob (snd (delete_movie 1 alice two_users_world))) =
    fst (get_movies bob two_users_world) /\
  forall j,
    fst (get_movie j bob (snd (delete_movie 1 alice two_users_world))) =
    fst (get_movie j bob two_users_world).
Proof.
  assert (Hne : user_ident alice <> user_ident bob) by (simpl; lia).
  split; [exact Hne|].
  exact (writes_do_not_interfere alice bob two_users_world _
           {| mc_title := "Dune"; mc_director := None; mc_year := None;
              mc_genre := None; mc_rating := None; mc_description := None |}
           1 no_fields Hne (or_intror (or_intror eq_refl))).
Defined.

(** ** The owner's own movies *)

Lemma absent_no_rows (db : database) (movie_id uid : Z) :
  absent db movie_id ->
  List.filter (matches [id_eq movie_id; user_id_eq uid]) (movies db) = [].
Proof.
  intros Habs. apply filter_none. intros x Hx.
  destruct (matches _ x) eqn:E; [|reflexivity].
  apply matches_owned in E. exfalso. exact (Habs x Hx (proj1 E)).
Qed.

(** X2. The owner of a movie gets it (the ids being integers the tables can
    hold): [get_movie] on its id returns its record, and [get_movies]
    returns exactly the records of the caller's rows, that one among
    them. *)
Theorem owner_sees_own (w : world) (r : movie_row) (caller : User) :
  movies_pk (w_db w) ->
  In r (movies (w_db w)) ->
  m_user_id r = user_ident caller ->
  in_int64 (m_id r) = true ->
  in_int64 (user_ident caller) = true ->
  fst (get_movie (m_id r) caller w) = Ok (dict r) /\
  exists l,
    fst (get_movies caller w) = Ok l /\
    In (dict r) l /\
    forall m, In m l <->
              exists x, In x (movies (w_db w)) /\
                        m_user_id x = user_ident caller /\ dict x = m.
Proof.
  intros Hpk Hr Hown Hid Hu. split.
  - rewrite get_movie_run, Hid, Hu. cbn [andb fst]. rewrite <- Hown.
    rewrite (pk_select_owned _ _ Hpk Hr). reflexivity.
  - eexists. rewrite get_movies_run, Hu. split; [reflexivity|].
    assert (Hchar : forall m,
               In m (map dict (List.filter (matches [user_id_eq (user_ident caller)])
                                 (movies (w_db w)))) <->
               exists x, In x (movies (w_db w)) /\
                         m_user_id x = user_ident caller /\ dict x = m).
    { intros m. rewrite in_map_iff. split.
      - intros (x & Hx & Hin). apply filter_In in Hin. destruct Hin as [Hin Hm].
        apply matches_owner in Hm. exists x. auto.
      - intros (x & Hin & Hu' & Hx). exists x. split; [exact Hx|].
        apply filter_In. split; [exact Hin|]. apply matches_owner. exact Hu'. }
    split; [|exact Hchar]. apply Hchar. exists r. auto.
Qed.

Lemma owner_sees_own_witness :
  movies_pk (w_db two_users_world) /\
  In dune (movies (w_db two_users_world)) /\
  m_user_id dune = user_ident alice /\
  in_int64 (m_id dune) = true /\
  in_int64 (user_ident alice) = true /\
  fst (get_movie 1 alice two_users_world) = Ok (dict dune) /\
  exists l,
    fst (get_movies alice two_users_world) = Ok l /\
    In (dict dune) l /\
    forall m, In m l <->
              exists x, In x [dune] /\ m_user_id x = 1 /\ dict x = m.
Proof.
  assert (Hin : In dune (movies (w_db two_users_world))) by (left; reflexivity).
  split; [exact two_users_pk|]. split; [exact Hin|]. split; [reflexivity|].
  split; [reflexivity|]. split; [reflexivity|].
  exact (owner_sees_own two_users_world dune alice two_users_pk Hin eq_refl
           eq_refl eq_refl).
Defined.

(** ** Deleting *)

Lemma pk_delete_rows (rows : list movie_row) (r : movie_row) :
  NoDup (map m_id rows) -> In r rows ->
  List.filter (fun x => negb (matches [id_eq (m_id r); user_id_eq (m_user_id r)] x)) rows
  = List.filter (fun x => negb (Z.eqb (m_id x) (m_id r))) rows.
Proof.
  intros Hnd Hr. apply filter_ext_in. intros x Hx. f_equal.
  destruct (Z.eqb_spec (m_id x) (m_id r)) as [E|E].
  - assert (x = r) by (apply (pk_same_row rows); auto). subst x.
    apply matches_owned. auto.
  - destruct (matches _ x) eqn:Em; [|reflexivity].
    apply matches_owned in Em. tauto.
Qed.

(** X3. When its owner deletes a movie, in a database that is not locked
    (the ids being integers the tables can hold), [delete_movie] returns
    normally, the table loses that row and no other, the users are
    untouched, the lock is free again, and from then on [get_movie],
    [update_movie] and [delete_movie] on that id raise 404 for every
    caller. *)
Theorem delete_then_gone (w : world) (r : movie_row) (caller : User) :
  movies_pk (w_db w) ->
  In r (movies (w_db w)) ->
  m_user_id r = user_ident caller ->
  in_int64 (m_id r) = true ->
  in_int64 (user_ident caller) = true ->
  w_locked w = false ->
  exists w',
    delete_movie (m_id r) caller w = (Ok tt, w') /\
    movies (w_db w') =
      List.filter (fun x => negb (Z.eqb (m_id x) (m_id r))) (movies (w_db w)) /\
    users (w_db w') = users (w_db w) /\
    movies_seq (w_db w') = movies_seq (w_db w) /\
    w_locked w' = false /\
    forall anyone movie_update,
      in_int64 (user_ident anyone) = true ->
      fst (get_movie (m_id r) anyone w') = Raise (HTTPException 404 "Movie not found") /\
      fst (update_movie (m_id r) movie_update anyone w') =
        Raise (HTTPException 404 "Movie not found") /\
      fst (delete_movie (m_id r) anyone w') = Raise (HTTPException 404 "Movie not found").
Proof.
  intros Hpk Hr Hown Hid Hu Hl.
  destruct (owned_select_some _ _ _ Hr Hown) as [r0 Hsome].
  destruct (delete_movie_some _ _ _ _ Hid Hu Hl Hsome) as (w' & Hrun & Hdb & _ & Hl' & _).
  exists w'. split; [exact Hrun|]. rewrite Hdb. cbn [movies users movies_seq].
  rewrite <- Hown. rewrite (pk_delete_rows _ _ Hpk Hr).
  split; [reflexivity|]. split; [reflexivity|]. split; [reflexivity|].
  split; [exact Hl'|].
  intros anyone movie_update Hany.
  assert (Hnil : List.filter (matches [id_eq (m_id r); user_id_eq (user_ident anyone)])
                   (movies (w_db w')) = []).
  { apply absent_no_rows. intros x Hx. rewrite Hdb in Hx. cbn [movies] in Hx.
    rewrite <- Hown in Hx. rewrite (pk_delete_rows _ _ Hpk Hr) in Hx.
    apply filter_In in Hx. destruct Hx as [_ Hx].
    apply negb_true_iff, Z.eqb_neq in Hx. exact Hx. }
  rewrite get_movie_run, Hid, Hany, Hnil,
    (update_movie_none _ _ _ _ Hid Hany Hnil),
    (delete_movie_none _ _ _ Hid Hany Hl' Hnil). repeat split.
Qed.

Lemma delete_then_gone_witness :
  movies_pk (w_db two_users_world) /\
  In dune (movies (w_db two_users_world)) /\
  m_user_id dune = user_ident alice /\
  w_locked two_users_world = false /\
  exists w',
    delete_movie 1 alice two_users_world = (Ok tt, w') /\
    movies (w_db w') = [] /\
    users (w_db w') = users two_users /\
    movies_seq (w_db w') = 1 /\
    w_locked w' = false /\
    forall anyone movie_update,
      in_int64 (user_ident anyone) = true ->
      fst (get_movie 1 anyone w') = Raise (HTTPException 404 "Movie not found") /\
      fst (update_movie 1 movie_update anyone w') =
        Raise (HTTPException 404 "Movie not found") /\
      fst (delete_movie 1 anyone w') = Raise (HTTPException 404 "Movie not found").
Proof.
  assert (Hin : In dune (movies (w_db two_users_world))) by (left; reflexivity).
  split; [exact two_users_pk|]. split; [exact Hin|]. split; [reflexivity|].
  split; [reflexivity|].
  exact (delete_then_gone two_users_world dune alice two_users_pk Hin eq_refl
           eq_refl eq_refl eq_refl).
Defined.

(** ** Updates, one after the other *)

Lemma replaced_id (movie_update : MovieUpdate) (r x : movie_row) :
  m_id (replaced movie_update r x) = m_id x.
Proof.
  unfold replaced. destruct (Z.eqb_spec (m_id x) (m_id r)) as [E|E]; [|reflexivity].
  simpl. symmetry. exact E.
Qed.

Lemma replaced_self (movie_update : MovieUpdate) (r : movie_row) :
  replaced movie_update r r = patched movie_update r.
Proof. unfold replaced. rewrite Z.eqb_refl. reflexivity. Qed.

Lemma stored_real_twice (f g : float) :
  stored_real f = Some g -> stored_real g = Some g.
Proof.
  unfold stored_real. destruct (PrimFloat.is_nan f) eqn:Hnan; [discriminate|].
  destruct (PrimFloat.eqb f PrimFloat.zero) eqn:Hz; intros H; inversion H; subst.
  - reflexivity.
  - rewrite Hnan, Hz. reflexivity.
Qed.

Lemma stored_twice (v : option float) : stored (stored v) = stored v.
Proof.
  destruct v as [f|]; [|reflexivity].
  change (stored (Some f)) with (stored_real f).
  destruct (stored_real f) as [g|] eqn:E; [|reflexivity].
  exact (stored_real_twice f g E).
Qed.

Lemma patched_twice (movie_update : MovieUpdate) (r : movie_row) :
  patched movie_update (patched movie_update r) = patched movie_update r.
Proof.
  destruct movie_update as [t d y g ra de], r.
  destruct t as [|[s|]], d, y, g, ra, de; unfold patched; simpl;
    rewrite ?stored_twice; reflexivity.
Qed.

(** X4. Updates by the owner compose field by field: after a request [u1],
    a request [u2] (neither setting [title] to null nor [year] to an integer
    SQLite cannot hold, the database not being locked) returns the record in
    which each field has the value [u2] sent, else the one [u1] sent, else
    the old one, a rating as the table keeps it.  Sending the same request
    twice returns the same record twice, and the second time leaves the
    database as the first left it. *)
Theorem updates_compose (w : world) (r : movie_row) (caller : User)
    (u1 u2 : MovieUpdate) :
  movies_pk (w_db w) ->
  In r (movies (w_db w)) ->
  m_user_id r = user_ident caller ->
  in_int64 (m_id r) = true ->
  in_int64 (user_ident caller) = true ->
  w_locked w = false ->
  mu_title u1 <> given None ->
  mu_title u2 <> given None ->
  fits (default_None (mu_year u1)) = true ->
  fits (default_None (mu_year u2)) = true ->
  exists w' w'',
    update_movie (m_id r) u1 caller w = (Ok (dict (patched u1 r)), w') /\
    update_movie (m_id r) u2 caller w' = (Ok (dict (patched u2 (patched u1 r))), w'') /\
    (u2 = u1 ->
       dict (patched u2 (patched u1 r)) = dict (patched u1 r) /\
       w_db w'' = w_db w').
Proof.
  intros Hpk Hr Hown Hid Hu Hl Ht1 Ht2 Hy1 Hy2.
  destruct (update_movie_rewrites w r caller u1 Hpk Hr Hown Hid Hu Ht1 Hy1 (or_introl Hl))
    as (w' & Hrun1 & Hdb1 & _ & Hl1 & _).
  assert (Hm1 : movies (w_db w') = map (replaced u1 r) (movies (w_db w)))
    by (rewrite Hdb1; reflexivity).
  assert (Hpk' : movies_pk (w_db w')).
  { unfold movies_pk. rewrite Hm1, map_map.
    rewrite (map_ext _ m_id) by (intros; apply replaced_id). exact Hpk. }
  assert (Hr' : In (patched u1 r) (movies (w_db w'))).
  { rewrite Hm1, <- (replaced_self u1 r). apply in_map. exact Hr. }
  assert (Hl' : w_locked w' = false) by congruence.
  destruct (update_movie_rewrites w' (patched u1 r) caller u2 Hpk' Hr' Hown Hid Hu
              Ht2 Hy2 (or_introl Hl'))
    as (w'' & Hrun2 & Hdb2 & _).
  exists w', w''. split; [exact Hrun1|]. split; [exact Hrun2|].
  intros ->. rewrite patched_twice. split; [reflexivity|].
  rewrite Hdb2. rewrite Hm1 at 1.
  assert (Hrows : map (replaced u1 (patched u1 r)) (map (replaced u1 r) (movies (w_db w)))
                  = movies (w_db w')).
  { rewrite Hm1, map_map. apply map_ext. intros x.
    destruct (Z.eqb_spec (m_id x) (m_id r)) as [E|E].
    - assert (Hx : replaced u1 r x = patched u1 r)
        by (unfold replaced; rewrite (proj2 (Z.eqb_eq _ _) E); reflexivity).
      rewrite Hx, replaced_self. apply patched_twice.
    - assert (Hx : replaced u1 r x = x)
        by (unfold replaced; rewrite (proj2 (Z.eqb_neq _ _) E); reflexivity).
      rewrite Hx. unfold replaced. simpl m_id.
      rewrite (proj2 (Z.eqb_neq _ _) E). reflexivity. }
  rewrite Hrows. destruct (w_db w'); reflexivity.
Qed.

Lemma updates_compose_witness :
  let set_genre_only :=
    {| mu_title := unset; mu_director := unset; mu_year := unset;
       mu_genre := given None; mu_rating := unset; mu_description := unset |} in
  movies_pk (w_db two_users_world) /\
  In dune (movies (w_db two_users_world)) /\
  m_user_id dune = user_ident alice /\
  w_locked two_users_world = false /\
  exists w' w'',
    update_movie 1 (only_rating 9.5%float) alice two_users_world =
      (Ok {| id := 1; title := "Dune"; director := Some "Denis Villeneuve";
             year := Some 2021; genre := Some "Sci-Fi"; rating := Some 9.5%float;
             description := None; user_id := 1 |}, w') /\
    update_movie 1 set_genre_only alice w' =
      (Ok {| id := 1; title := "Dune"; director := Some "Denis Villeneuve";
             year := Some 2021; genre := None; rating := Some 9.5%float;
             description := None; user_id := 1 |}, w'') /\
    (set_genre_only = only_rating 9.5%float ->
       dict (patched set_genre_only (patched (only_rating 9.5%float) dune)) =
         dict (patched (only_rating 9.5%float) dune) /\
       w_db w'' = w_db w').
Proof.
  intros set_genre_only.
  assert (Hin : In dune (movies (w_db two_users_world))) by (left; reflexivity).
  split; [exact two_users_pk|]. split; [exact Hin|]. split; [reflexivity|].
  split; [reflexivity|].
  assert (H1 : mu_title (only_rating 9.5%float) <> given None) by discriminate.
  assert (H2 : mu_title set_genre_only <> given None) by discriminate.
  exact (updates_compose two_users_world dune alice (only_rating 9.5%float)
           set_genre_only two_users_pk Hin eq_refl eq_refl eq_refl eq_refl H1 H2
           eq_refl eq_refl).
Defined.

(** ** A connection left open *)

(** X17. An UPDATE that the table refuses leaves the database locked.  When
    the owner of a movie sends a request that sets [title] to null,
    [update_movie] raises the [IntegrityError] without closing its
    connection, which holds the write lock.  From then on [create_movie] and
    [delete_movie] of any caller raise "database is locked", while
    [get_movies] answers as before; the lock is free again once the
    interpreter has reclaimed the connection. *)
Theorem refused_update_locks (w : world) (r : movie_row) (caller : User)
    (movie_update : MovieUpdate) :
  In r (movies (w_db w)) ->
  m_user_id r = user_ident caller ->
  in_int64 (m_id r) = true ->
  in_int64 (user_ident caller) = true ->
  mu_title movie_update = given None ->
  fits (default_None (mu_year movie_update)) = true ->
  w_locked w = false ->
  exists w',
    update_movie (m_id r) movie_update caller w =
      (Raise (IntegrityError "NOT NULL constraint failed: movies.title"), w') /\
    w_db w' = w_db w /\
    w_locked w' = true /\
    ~ In ev_close (skipn (length (w_trace w)) (w_trace w')) /\
    (forall movie u,
        fits (mc_year movie) = true -> in_int64 (user_ident u) = true ->
        fst (create_movie movie u w') = Raise (OperationalError "database is locked")) /\
    (forall movie_id u,
        in_int64 movie_id = true -> in_int64 (user_ident u) = true ->
        fst (delete_movie movie_id u w') = Raise (OperationalError "database is locked")) /\
    (forall u, fst (get_movies u w') = fst (get_movies u w)) /\
    (forall env, w_locked (at_ env w') = negb (finalized env)).
Proof.
  intros Hr Hown Hid Hu Ht Hy Hl.
  destruct (update_movie_null_title w r caller movie_update Hr Hown Hid Hu Ht Hy Hl)
    as (w' & Hrun & Hdb & _ & Hl' & Htrace).
  exists w'. split; [exact Hrun|]. split; [exact Hdb|]. split; [exact Hl'|].
  split; [|split; [|split; [|split]]].
  - rewrite Htrace, skipn_app, Nat.sub_diag, skipn_all. simpl.
    intros [H|[H|[H|[]]]]; discriminate H.
  - intros movie u Hfits Hfit. rewrite (create_movie_locked movie u w' Hfits Hfit Hl').
    reflexivity.
  - intros movie_id u Hfits Hfit. rewrite (delete_movie_locked _ _ _ Hfits Hfit Hl').
    reflexivity.
  - intros u. rewrite !get_movies_run. cbv zeta.
    destruct (in_int64 (user_ident u)); cbn [fst]; rewrite ?Hdb; reflexivity.
  - intros env. simpl. rewrite Hl'. reflexivity.
Qed.

Lemma refused_update_locks_witness :
  In dune (movies (w_db two_users_world)) /\
  mu_title null_title = given None /\
  w_locked two_users_world = false /\
  exists w',
    update_movie 1 null_title alice two_users_world =
      (Raise (IntegrityError "NOT NULL constraint failed: movies.title"), w') /\
    w_locked w' = true /\
    fst (delete_movie 1 alice w') = Raise (OperationalError "database is locked") /\
    fst (get_movies alice w') = Ok [dict dune] /\
    w_locked (at_ {| clock := 30; entropy := 0; finalized := true |} w') = false.
Proof.
  assert (Hin : In dune (movies (w_db two_users_world))) by (left; reflexivity).
  split; [exact Hin|]. split; [reflexivity|]. split; [reflexivity|].
  destruct (refused_update_locks two_users_world dune alice null_title
              Hin eq_refl eq_refl eq_refl eq_refl eq_refl eq_refl)
    as (w' & Hrun & _ & Hl & _ & _ & Hdel & Hget & Hfree).
  exists w'. split; [exact Hrun|]. split; [exact Hl|].
  split; [exact (Hdel 1 alice eq_refl eq_refl)|].
  split; [rewrite Hget; reflexivity|exact (Hfree _)].
Defined.

(** ** What statements keep, continued *)

Lemma run_statement_retired (now : Z) (st : statement) (db db' : database)
    (cur : cursor) (movie_id : Z) :
  run_statement now st db = Ok (db', cur) -> retired db movie_id -> retired db' movie_id.
Proof.
  intros H [Hseq Hnone]. unfold retired.
  apply run_statement_step in H. destruct H as [_ H]. destruct st; simpl in H.
  - inversion H; subst. split; assumption.
  - destruct (existsb _ _); [discriminate|].
    destruct (new_rowid _ _); [|discriminate]. inversion H; subst. split; assumption.
  - inversion H; subst. split; assumption.
  - destruct (new_rowid _ _) as [rowid|] eqn:Hnew; [|discriminate].
    apply new_rowid_is in Hnew. destruct Hnew as [-> _].
    inversion H; subst; simpl. clear H.
    destruct (next_rowid_above (movies_seq db) (map m_id (movies db))) as [Hnew _].
    split; [lia|]. intros r Hr. apply in_app_or in Hr. destruct Hr as [Hr|[<-|[]]].
    + apply Hnone. exact Hr.
    + simpl. lia.
  - destruct (update_rows _ _ _) as [rows|] eqn:Hu; [|discriminate].
    inversion H; subst; simpl. split; [exact Hseq|]. intros r Hr.
    apply update_rows_keeps in Hu.
    destruct (Forall2_keeps_in _ _ _ Hu Hr) as (r0 & Hr0 & Hid & _).
    rewrite <- Hid. apply Hnone. exact Hr0.
  - inversion H; subst; simpl. split; [exact Hseq|]. intros r Hr.
    apply filter_In in Hr. apply Hnone. tauto.
Qed.

Lemma run_statement_users_pk (now : Z) (st : statement) (db db' : database)
    (cur : cursor) :
  run_statement now st db = Ok (db', cur) -> users_pk db -> users_pk db'.
Proof.
  intros H [Hnd Hbound]. unfold users_pk.
  apply run_statement_step in H. destruct H as [_ H]. destruct st; simpl in H.
  - inversion H; subst. auto.
  - destruct (existsb _ _); [discriminate|].
    destruct (new_rowid _ _) as [rowid|] eqn:Hnew; [|discriminate].
    apply new_rowid_is in Hnew. destruct Hnew as [-> _].
    inversion H; subst; simpl. clear H.
    destruct (next_rowid_above (users_seq db) (map u_id (users db))) as [Hseq Hids].
    split.
    + rewrite map_app. simpl. apply NoDup_snoc; [exact Hnd|].
      intros Hin. specialize (Hids _ Hin). lia.
    + intros u Hu. apply in_app_or in Hu. destruct Hu as [Hu|[<-|[]]].
      * specialize (Hbound u Hu). lia.
      * simpl. lia.
  - inversion H; subst. auto.
  - destruct (new_rowid _ _); [|discriminate]. inversion H; subst. auto.
  - destruct (update_rows _ _ _); [|discriminate]. inversion H; subst. auto.
  - inversion H; subst. auto.
Qed.

Lemma run_statement_owners_exist (now : Z) (st : statement) (db db' : database)
    (cur : cursor) :
  run_statement now st db = Ok (db', cur) ->
  (forall v owner, st = INSERT_movies v owner ->
                   exists u, In u (users db) /\ u_id u = owner) ->
  owners_exist db -> owners_exist db'.
Proof.
  intros H Hins Hown. unfold owners_exist in *.
  apply run_statement_step in H. destruct H as [_ H]. destruct st; simpl in H.
  - inversion H; subst. exact Hown.
  - destruct (existsb _ _); [discriminate|].
    destruct (new_rowid _ _); [|discriminate]. inversion H; subst; simpl.
    intros r Hr. destruct (Hown r Hr) as (u & Hu & Hid).
    exists u. split; [apply in_or_app; left; exact Hu|exact Hid].
  - inversion H; subst. exact Hown.
  - destruct (new_rowid _ _); [|discriminate].
    inversion H; subst; simpl. intros r Hr. apply in_app_or in Hr.
    destruct Hr as [Hr|[<-|[]]]; [exact (Hown r Hr)|].
    simpl. exact (Hins _ _ eq_refl).
  - destruct (update_rows _ _ _) as [rows|] eqn:Hu; [|discriminate].
    inversion H; subst; simpl. intros r Hr. apply update_rows_keeps in Hu.
    destruct (Forall2_keeps_in _ _ _ Hu Hr) as (r0 & Hr0 & _ & Hsame).
    rewrite <- Hsame. exact (Hown r0 Hr0).
  - inversion H; subst; simpl. intros r Hr. apply filter_In in Hr.
    apply Hown. tauto.
Qed.

(** ** Routes, continued *)

Section MoreRoutes.

Variable decode_access_token : Z -> string -> option TokenData.
Variable verify_password : string -> string -> bool.
Variable get_password_hash : Z -> string -> string.
Variable create_access_token : Z -> list (string * string) -> Z -> string.
Variable ACCESS_TOKEN_EXPIRE_MINUTES : Z.

Local Abbreviation an_app :=
  (app decode_access_token verify_password get_password_hash create_access_token
     ACCESS_TOKEN_EXPIRE_MINUTES).
Local Abbreviation a_serve :=
  (serve decode_access_token verify_password get_password_hash create_access_token
     ACCESS_TOKEN_EXPIRE_MINUTES).
Local Abbreviation a_serve_all :=
  (serve_all decode_access_token verify_password get_password_hash create_access_token
     ACCESS_TOKEN_EXPIRE_MINUTES).
Local Abbreviation a_register :=
  (register get_password_hash create_access_token ACCESS_TOKEN_EXPIRE_MINUTES).
Local Abbreviation a_login :=
  (login verify_password create_access_token ACCESS_TOKEN_EXPIRE_MINUTES).
Local Abbreviation a_current_user_of := (current_user_of decode_access_token).

(** *** The caller *)

Lemma get_current_user_run (c : HTTPAuthorizationCredentials) (w : world)
    (username : string) :
  decode_access_token (clock (w_env w)) (credentials c)
    = Some {| td_username := Some username |} ->
  get_current_user decode_access_token c w =
  (match head (List.filter (has_username username) (users (w_db w))) with
   | None => Raise (HTTPException 404 "User not found")
   | Some row => Ok {| user_ident := u_id row; user_username := u_username row |}
   end,
   emits [ev_connect; ev_execute (SELECT_users "id, username" username); ev_close] w).
Proof.
  intros Hdec. unfold get_current_user. run_handler. rewrite Hdec. simpl.
  destruct (head _); reflexivity.
Qed.

(** X5. A token that decodes to a username resolves to the row of that user:
    [get_current_user] returns its id and username after one SELECT.  When
    no row has that username the caller gets 404 "User not found", not 401.
    Either way nothing is written. *)
Theorem current_user_resolves (c : HTTPAuthorizationCredentials) (w : world)
    (username : string) :
  decode_access_token (clock (w_env w)) (credentials c)
    = Some {| td_username := Some username |} ->
  users_unique (w_db w) ->
  let queried :=
    emits [ev_connect; ev_execute (SELECT_users "id, username" username); ev_close] w in
  (forall row, In row (users (w_db w)) -> u_username row = username ->
     get_current_user decode_access_token c w =
       (Ok {| user_ident := u_id row; user_username := username |}, queried)) /\
  ((forall r, In r (users (w_db w)) -> u_username r <> username) ->
     get_current_user decode_access_token c w =
       (Raise (HTTPException 404 "User not found"), queried)) /\
  w_db queried = w_db w.
Proof.
  intros Hdec Huniq queried. subst queried.
  rewrite (get_current_user_run c w username Hdec). split; [|split].
  - intros row Hrow Hname. subst username.
    rewrite (unique_select_user _ _ Huniq Hrow). reflexivity.
  - intros Hfree. rewrite filter_none; [reflexivity|].
    intros x Hx. destruct (has_username _ x) eqn:E; [|reflexivity].
    apply has_username_iff in E. exfalso. exact (Hfree x Hx E).
  - apply w_db_emits.
Qed.

Lemma current_user_raises (authorization : option string) (w w1 : world) (e : exn) :
  a_current_user_of authorization w = (Raise e, w1) ->
  w_db w1 = w_db w /\
  exists detail, e = HTTPException 401 detail \/ e = HTTPException 404 detail.
Proof.
  intros H. split.
  { destruct (current_user_of_reads decode_access_token authorization w) as (_ & Hd & _).
    rewrite H in Hd. exact Hd. }
  revert H. unfold current_user_of, security, get_current_user. run_handler.
  destruct authorization as [token|]; simpl.
  - destruct (decode_access_token _ _) as [[[username|]]|]; simpl.
    + destruct (head _); intros H; inversion H; subst. eexists; right; reflexivity.
    + intros H; inversion H; subst. eexists; left; reflexivity.
    + intros H; inversion H; subst. eexists; left; reflexivity.
  - intros H; inversion H; subst. eexists; left; reflexivity.
Qed.

(** *** The statement a route commits *)

Lemma protected_footprint {A : Type} (P : User -> statement -> Prop)
    (authorization : option string) (k : User -> M A) (w : world) :
  (forall u, commits_only (P u) (k u)) ->
  w_env (snd ((a_current_user_of authorization ≫= k) w)) = w_env w /\
  (w_db (snd ((a_current_user_of authorization ≫= k) w)) = w_db w \/
   exists st cur u,
     fst (a_current_user_of authorization w) = Ok u /\ P u st /\
     run_statement (clock (w_env w)) st (w_db w)
       = Ok (w_db (snd ((a_current_user_of authorization ≫= k) w)), cur)).
Proof.
  intros Hk. unfold mbind, M_bind.
  destruct (a_current_user_of authorization w) as [[u|e] w1] eqn:Hcur.
  - destruct (current_user_registered decode_access_token verify_password get_password_hash
                create_access_token ACCESS_TOKEN_EXPIRE_MINUTES _ _ _ _ Hcur)
      as (Hd & He & _).
    destruct (Hk u w1) as [He1 Hd1]. rewrite He, Hd in *.
    split; [exact He1|]. destruct Hd1 as [Hd1|(st & cur & HP & Hrun)].
    + left. exact Hd1.
    + right. exists st, cur, u. auto.
  - destruct (current_user_of_reads decode_access_token authorization w) as (He & Hd & _).
    rewrite Hcur in He, Hd. simpl in *. split; [exact He|left; exact Hd].
Qed.

Lemma app_footprint (req : request) (w : world) :
  let w' := snd (an_app req w) in
  w_env w' = w_env w /\
  (w_db w' = w_db w \/
   exists st cur,
     footprint req (caller_of decode_access_token req w) st /\
     run_statement (clock (w_env w)) st (w_db w) = Ok (w_db w', cur)).
Proof.
  destruct req as [user|user|a|a body|a movie_id|a movie_id body|a movie_id]; simpl.
  - destruct (commits_only_then_read _ _ (fun t => mret (token_response t))
                (register_footprint get_password_hash create_access_token
                   ACCESS_TOKEN_EXPIRE_MINUTES user) (fun _ => reads_only_ret _) w)
      as [He [Hd|(st & cur & [h ->] & Hrun)]].
    + split; [exact He|left; exact Hd].
    + split; [exact He|right]. exists (INSERT_users (uc_username user) h), cur.
      split; [reflexivity|exact Hrun].
  - assert (Hr : reads_only (a_login user ≫= fun t => mret (token_response t)))
      by (apply reads_only_bind; [apply login_reads|intros; apply reads_only_ret]).
    destruct (Hr w) as (He & Hd & _). split; [exact He|left; exact Hd].
  - assert (Hr : reads_only (a_current_user_of a ≫= fun current_user =>
                               get_movies current_user ≫= fun l =>
                               mret (movies_response l))).
    { apply reads_only_bind; [apply current_user_of_reads|]. intros u.
      apply reads_only_bind; [apply get_movies_reads|intros; apply reads_only_ret]. }
    destruct (Hr w) as (He & Hd & _). split; [exact He|left; exact Hd].
  - destruct (protected_footprint
                (fun u st => exists v, st = INSERT_movies v (user_ident u)) a
                (fun current_user =>
                   MovieCreate_validate body ≫= fun movie =>
                   create_movie movie current_user ≫= fun m =>
                   mret (movie_response HTTP_201_CREATED m)) w)
      as [He [Hd|(st & cur & u & Hcur & [v ->] & Hrun)]].
    + intros u. apply commits_only_after_read; [apply validate_reads|].
      intros movie.
      refine (commits_only_weaken _ _ _ _
                (commits_only_then_read _ _ _ (create_movie_footprint movie u)
                   (fun _ => reads_only_ret _))).
      intros st ->. eexists; reflexivity.
    + split; [exact He|left; exact Hd].
    + split; [exact He|right]. exists (INSERT_movies v (user_ident u)), cur.
      split; [|exact Hrun]. exists u. unfold caller_of. cbn [authorization_of].
      rewrite Hcur. auto.
  - assert (Hr : reads_only (a_current_user_of a ≫= fun current_user =>
                               get_movie movie_id current_user ≫= fun m =>
                               mret (movie_response 200 m))).
    { apply reads_only_bind; [apply current_user_of_reads|]. intros u.
      apply reads_only_bind; [apply get_movie_reads|intros; apply reads_only_ret]. }
    destruct (Hr w) as (He & Hd & _). split; [exact He|left; exact Hd].
  - destruct (protected_footprint
                (fun u st => st = UPDATE_movies (model_dump_exclude_unset body)
                                    [id_eq movie_id; user_id_eq (user_ident u)]) a
                (fun current_user =>
                   update_movie movie_id body current_user ≫= fun m =>
                   mret (movie_response 200 m)) w)
      as [He [Hd|(st & cur & u & Hcur & -> & Hrun)]].
    + intros u. apply commits_only_then_read;
        [apply update_movie_footprint|intros; apply reads_only_ret].
    + split; [exact He|left; exact Hd].
    + split; [exact He|right]. eexists. exists cur.
      split; [|exact Hrun]. split; [reflexivity|]. exists u.
      unfold caller_of. cbn [authorization_of]. rewrite Hcur. auto.
  - destruct (protected_footprint
                (fun u st => st = DELETE_movies
                                    [id_eq movie_id; user_id_eq (user_ident u)]) a
                (fun current_user =>
                   delete_movie movie_id current_user ≫= fun _ =>
                   mret (empty_response HTTP_204_NO_CONTENT)) w)
      as [He [Hd|(st & cur & u & Hcur & -> & Hrun)]].
    + intros u. apply commits_only_then_read;
        [apply delete_movie_footprint|intros; apply reads_only_ret].
    + split; [exact He|left; exact Hd].
    + split; [exact He|right]. eexists. exists cur.
      split; [|exact Hrun]. exists u.
      unfold caller_of. cbn [authorization_of]. rewrite Hcur. auto.
Qed.

(** X6. Every route commits at most the effect of one statement, and that
    statement is of the route's own kind and bound to the caller, the user
    the token of the request resolves to: [register] may only insert a user
    of the username it was given; creating, updating and deleting a movie
    may only insert a movie owned by the caller, or update or delete under
    the WHERE clause [id = ? AND user_id = ?] bound to the id of the
    request and the id of the caller; [login] and the two GET routes commit
    nothing. *)
Theorem route_footprint (req : request) (w : world) :
  let w' := snd (an_app req w) in
  w_env w' = w_env w /\
  (w_db w' = w_db w \/
   exists st cur,
     footprint req (caller_of decode_access_token req w) st /\
     run_statement (clock (w_env w)) st (w_db w) = Ok (w_db w', cur)).
Proof. exact (app_footprint req w). Qed.

Lemma serve_footprint (env : environment) (req : request) (w : world) :
  let db' := w_db (snd (a_serve env req w)) in
  db' = w_db w \/
  exists st cur,
    footprint req (caller_of decode_access_token req (at_ env w)) st /\
    run_statement (clock env) st (w_db w) = Ok (db', cur).
Proof.
  unfold serve. destruct (app_footprint req (at_ env w)) as [_ H]. exact H.
Qed.

(** *** The states the routes can reach *)

Lemma serve_consistent (env : environment) (req : request) (w : world) :
  well_formed (w_db w) /\ users_pk (w_db w) /\ owners_exist (w_db w) ->
  let db' := w_db (snd (a_serve env req w)) in
  well_formed db' /\ users_pk db' /\ owners_exist db'.
Proof.
  intros (Hwf & Hupk & Hown) db'. subst db'.
  destruct (serve_footprint env req w) as [->|(st & cur & Hfp & Hrun)]; [auto|].
  split; [exact (run_statement_well_formed _ _ _ _ _ Hrun Hwf)|].
  split; [exact (run_statement_users_pk _ _ _ _ _ Hrun Hupk)|].
  apply (run_statement_owners_exist _ _ _ _ _ Hrun); [|exact Hown].
  intros v owner ->. destruct req; simpl in Hfp; try contradiction.
  destruct Hfp as (u & Hcaller & ->).
  unfold caller_of in Hcaller. cbn [authorization_of] in Hcaller.
  destruct (a_current_user_of authorization (at_ env w)) as [[u'|e] w1] eqn:Hcur;
    cbn [fst] in Hcaller; [|discriminate].
  inversion Hcaller; subst u'.
  destruct (current_user_registered decode_access_token verify_password get_password_hash
                create_access_token ACCESS_TOKEN_EXPIRE_MINUTES _ _ _ _ Hcur)
    as (_ & _ & _ & row & Hrow & Hid & _).
  exists row. auto.
Qed.

(** X7. In every state that a history of requests reaches from the database
    [init_db] creates, the constraints of the schema hold (movie ids are
    distinct, usernames are distinct, user ids are distinct, no id is
    beyond its AUTOINCREMENT counter) and every movie is owned by a
    registered user, though nothing enforces the foreign key. *)
Theorem reachable_consistent (history : list (environment * request))
    (env : environment) (trace : list event) (locked : bool) :
  let db := w_db (a_serve_all history
                    {| w_db := init_db; w_env := env; w_trace := trace;
                       w_locked := locked |}) in
  movies_pk db /\ users_unique db /\ ids_bounded db /\ users_pk db /\ owners_exist db.
Proof.
  assert (Hgen : forall h w,
             well_formed (w_db w) /\ users_pk (w_db w) /\ owners_exist (w_db w) ->
             well_formed (w_db (a_serve_all h w)) /\ users_pk (w_db (a_serve_all h w)) /\
             owners_exist (w_db (a_serve_all h w))).
  { induction h as [|[e req] h IH]; intros w Hw; [exact Hw|].
    simpl. apply IH. apply serve_consistent. exact Hw. }
  destruct (Hgen history {| w_db := init_db; w_env := env; w_trace := trace;
                            w_locked := locked |})
    as ((Hpk & Huniq & Hbound) & Hupk & Hown).
  - split; [exact init_db_well_formed|]. split.
    + split; [apply NoDup_nil; exact I|intros u []].
    + intros r [].
  - simpl. tauto.
Qed.

(** X18. In every state that a history of requests reaches from the
    database [init_db] creates, the ids of the movies, their owners and the
    ids of the users are integers SQLite can hold: a rowid beyond the
    largest is never issued, and an owner that does not bind is never
    stored. *)
Theorem reachable_keys_fit (history : list (environment * request))
    (env : environment) (trace : list event) (locked : bool) :
  let db := w_db (a_serve_all history
                    {| w_db := init_db; w_env := env; w_trace := trace;
                       w_locked := locked |}) in
  (forall r, In r (movies db) ->
     in_int64 (m_id r) = true /\ in_int64 (m_user_id r) = true) /\
  (forall u, In u (users db) -> in_int64 (u_id u) = true).
Proof.
  apply (serve_all_keys_fit decode_access_token verify_password get_password_hash
           create_access_token ACCESS_TOKEN_EXPIRE_MINUTES history).
  split; intros x [].
Qed.

(** *** Requests that fail *)

Lemma register_fails_clean (user : UserCreate) : fails_clean (a_register user).
Proof.
  intros w e w' H.
  destruct (register_cases get_password_hash create_access_token
              ACCESS_TOKEN_EXPIRE_MINUTES user w)
    as [(e1 & w1 & Hrun & Hd & _)|(Hfree & Hl & Hroom)].
  - rewrite Hrun in H. inversion H; subst. exact Hd.
  - destruct (register_free get_password_hash create_access_token
                ACCESS_TOKEN_EXPIRE_MINUTES user w Hfree Hl Hroom) as (w1 & Hrun & _).
    rewrite Hrun in H. discriminate H.
Qed.

Lemma app_fails_clean (req : request) : fails_clean (an_app req).
Proof.
  destruct req as [user|user|a|a body|a movie_id|a movie_id body|a movie_id]; simpl.
  - apply fails_clean_then_ret, register_fails_clean.
  - apply reads_only_fails_clean, reads_only_bind;
      [apply login_reads|intros; apply reads_only_ret].
  - apply fails_clean_after_read; [apply current_user_of_reads|]. intros u.
    apply reads_only_fails_clean, reads_only_bind;
      [apply get_movies_reads|intros; apply reads_only_ret].
  - apply fails_clean_after_read; [apply current_user_of_reads|]. intros u.
    apply fails_clean_after_read; [apply validate_reads|]. intros movie.
    apply fails_clean_then_ret, create_movie_fails_clean.
  - apply fails_clean_after_read; [apply current_user_of_reads|]. intros u.
    apply reads_only_fails_clean, reads_only_bind;
      [apply get_movie_reads|intros; apply reads_only_ret].
  - apply fails_clean_after_read; [apply current_user_of_reads|]. intros u.
    apply fails_clean_then_ret, update_movie_fails_clean.
  - apply fails_clean_after_read; [apply current_user_of_reads|]. intros u.
    apply (fails_clean_then_ret (delete_movie movie_id u)
             (fun _ => empty_response HTTP_204_NO_CONTENT)).
    apply delete_movie_fails_clean.
Qed.

Lemma then_ret_raises {A B : Type} (m : M A) (f : A -> B) (w w' : world) (e : exn) :
  (m ≫= fun a => mret (f a)) w = (Raise e, w') -> m w = (Raise e, w').
Proof.
  unfold mbind, M_bind. destruct (m w) as [[a|e1] w1]; intros H.
  - discriminate H.
  - inversion H; subst. reflexivity.
Qed.

(** A protected route raises what [get_current_user] raises, or what its
    handler raises for the user the token resolved to. *)
Lemma protected_raises {A : Type} (req : request) (a : option string) (k : User -> M A)
    (w w' : world) (e : exn) :
  authorization_of req = Some a ->
  (a_current_user_of a ≫= k) w = (Raise e, w') ->
  expected req w e \/
  exists u w1 row,
    w_db w1 = w_db w /\ w_locked w1 = w_locked w /\
    In row (users (w_db w)) /\ u_id row = user_ident u /\
    k u w1 = (Raise e, w').
Proof.
  intros Ha H. unfold mbind, M_bind in H.
  destruct (a_current_user_of a w) as [[u|e1] w1] eqn:Hcur.
  - right.
    destruct (current_user_registered decode_access_token verify_password
                get_password_hash create_access_token ACCESS_TOKEN_EXPIRE_MINUTES
                _ _ _ _ Hcur) as (Hd & _ & Hl & row & Hrow & Hid & _).
    exists u, w1, row. auto.
  - left. inversion H; subst.
    destruct (current_user_raises _ _ _ _ Hcur) as [_ [d [-> | ->]]]; simpl.
    + right. exists a. exact Ha.
    + exists a. exact Ha.
Qed.

Lemma app_raises_expected (req : request) (w w' : world) (e : exn) :
  users_fit (w_db w) -> an_app req w = (Raise e, w') -> expected req w e.
Proof.
  intros Hfit.
  destruct req as [user|user|a|a body|a movie_id|a movie_id body|a movie_id]; simpl;
    intros H.
  - apply then_ret_raises in H.
    destruct (register_cases get_password_hash create_access_token
                ACCESS_TOKEN_EXPIRE_MINUTES user w)
      as [(e1 & w1 & Hrun & _ & _ & Hcase)|(Hfree & Hl & Hroom)].
    + rewrite Hrun in H. inversion H; subst.
      destruct Hcase as [[-> _]|[[-> Hl]|[-> [Hl Hfull]]]]; simpl.
      * split; [reflexivity|]. exists user. reflexivity.
      * left. auto.
      * right. split; [reflexivity|]. left. split; [exists user; reflexivity|exact Hfull].
    + destruct (register_free get_password_hash create_access_token
                  ACCESS_TOKEN_EXPIRE_MINUTES user w Hfree Hl Hroom) as (w1 & Hrun & _).
      rewrite Hrun in H. discriminate H.
  - apply then_ret_raises in H. rewrite login_run in H.
    destruct (head _) as [row|]; [destruct (negb _)|];
      inversion H; subst; simpl; left; (split; [reflexivity|exists user; reflexivity]).
  - destruct (protected_raises (GET_movies a) a _ w w' e eq_refl H)
      as [Hexp|(u & w1 & row & Hd & Hl & Hrow & Hid & Hk)]; [exact Hexp|].
    apply then_ret_raises in Hk. rewrite get_movies_run in Hk. cbv zeta in Hk.
    rewrite <- Hid, (Hfit row Hrow) in Hk. discriminate Hk.
  - destruct (protected_raises (POST_movies a body) a _ w w' e eq_refl H)
      as [Hexp|(u & w1 & row & Hd & Hl & Hrow & Hid & Hk)]; [exact Hexp|].
    unfold mbind, M_bind, MovieCreate_validate in Hk.
    destruct (body_title body) as [|[t|]] eqn:Ht.
    + inversion Hk; subst. simpl. exists a, body. auto.
    + unfold mret, M_ret in Hk. cbv beta iota in Hk.
      match type of Hk with
      | context [create_movie ?m u w1] =>
          destruct (create_movie_cases m u w1)
            as [(e1 & w2 & Hrun & _ & _ & Hcase)|(Hy & Hu & Hl1 & Hroom)];
          [|destruct (create_movie_run m u w1 Hy Hu Hl1 Hroom) as (w2 & Hrun & _)]
      end; rewrite Hrun in Hk; [|discriminate Hk].
      inversion Hk; subst.
      destruct Hcase as [[-> Hb]|[[-> Hl1]|[-> [Hl1 Hfull]]]]; simpl.
      * cbn [mc_year] in Hb. rewrite <- Hid, (Hfit row Hrow), andb_true_r in Hb.
        exact Hb.
      * left. rewrite <- Hl. auto.
      * right. split; [reflexivity|]. right. split; [exists a, body; reflexivity|].
        rewrite <- Hd. exact Hfull.
    + inversion Hk; subst. simpl. exists a, body. auto.
  - destruct (protected_raises (GET_movie a movie_id) a _ w w' e eq_refl H)
      as [Hexp|(u & w1 & row & Hd & Hl & Hrow & Hid & Hk)]; [exact Hexp|].
    apply then_ret_raises in Hk. rewrite get_movie_run in Hk. cbv zeta in Hk.
    rewrite <- Hid, (Hfit row Hrow), andb_true_r in Hk.
    destruct (in_int64 movie_id) eqn:Hmid.
    + destruct (head _); inversion Hk; subst. simpl. exists a. reflexivity.
    + inversion Hk; subst. simpl. exact Hmid.
  - destruct (protected_raises (PUT_movie a movie_id body) a _ w w' e eq_refl H)
      as [Hexp|(u & w1 & row & Hd & Hl & Hrow & Hid & Hk)]; [exact Hexp|].
    apply then_ret_raises in Hk.
    destruct (update_movie_cases movie_id body u w1)
      as [(e1 & w2 & Hrun & _ & _ & Hcase)|(m & w2 & Hrun & _)];
      rewrite Hrun in Hk; [|discriminate Hk].
    inversion Hk; subst.
    destruct Hcase as [[-> Hb]|[[-> _]|[[-> Hl1]|[-> [Ht _]]]]]; simpl.
    + rewrite <- Hid, (Hfit row Hrow), andb_true_r in Hb. exact Hb.
    + exists a. reflexivity.
    + left. rewrite <- Hl. auto.
    + split; [reflexivity|]. exists a, movie_id, body. auto.
  - destruct (protected_raises (DELETE_movie a movie_id) a _ w w' e eq_refl H)
      as [Hexp|(u & w1 & row & Hd & Hl & Hrow & Hid & Hk)]; [exact Hexp|].
    apply (then_ret_raises (delete_movie movie_id u)
             (fun _ => empty_response HTTP_204_NO_CONTENT)) in Hk.
    destruct (delete_movie_cases movie_id u w1)
      as [[Hb Hrun]|[[Hl1 Hrun]|[[_ Hrun]|(_ & _ & _ & r0 & w2 & _ & Hrun & _)]]];
      rewrite Hrun in Hk; inversion Hk; subst; simpl.
    + rewrite <- Hid, (Hfit row Hrow), andb_true_r in Hb. exact Hb.
    + left. rewrite <- Hl. auto.
    + exists a. reflexivity.
Qed.

(** X8. Whatever a route raises, it has committed nothing: a request that
    fails leaves the database as it was.  And, the user ids being integers
    the table can hold, the only exceptions that reach the transport are
    400 (register, username taken), 401 (login, or a protected route), 404 (a
    protected route), a validation error ([POST /api/movies] without a
    string title), the NOT NULL [IntegrityError] of a [PUT] that sets
    [title] to null, [OverflowError] for a request that carries an integer
    SQLite cannot hold, and [OperationalError] for a write in a database
    that is locked or whose table is full.  In particular [register] never
    trips the UNIQUE constraint and [update_movie] never applies [dict] to
    [None]. *)
Theorem failures_are_clean_and_expected (req : request) (w w' : world) (e : exn) :
  users_fit (w_db w) ->
  an_app req w = (Raise e, w') ->
  w_db w' = w_db w /\ expected req w e.
Proof.
  intros Hfit H. split.
  - exact (app_fails_clean req w e w' H).
  - exact (app_raises_expected req w w' e Hfit H).
Qed.

(** *** Logging in after registering *)

(** X9. Provided the password hash verifies what it hashed, a user who
    registered can log in with the same password after any history of
    requests: [login] returns the token made from the claims
    [{"sub": username}] and writes nothing. *)
Theorem login_after_register (env1 env2 : environment) (user : UserCreate)
    (history : list (environment * request)) (w w1 : world) (resp : response) :
  (forall salt password,
      verify_password password (get_password_hash salt password) = true) ->
  well_formed (w_db w) ->
  a_serve env1 (POST_register user) w = (Ok resp, w1) ->
  let later := a_serve_all history w1 in
  exists w2,
    a_serve env2 (POST_login user) later =
      (Ok (token_response
             {| access_token :=
                  create_access_token (clock env2) [("sub", uc_username user)]
                    (timedelta_minutes ACCESS_TOKEN_EXPIRE_MINUTES);
                token_type := "bearer" |}), w2) /\
    w_db w2 = w_db later.
Proof.
  intros Hverify Hwf Hfirst later.
  assert (Hw1 : w1 = snd (a_serve env1 (POST_register user) w))
    by (rewrite Hfirst; reflexivity).
  assert (Hwf_later : well_formed (w_db later)).
  { subst later. rewrite Hw1.
    exact (serve_all_well_formed decode_access_token verify_password get_password_hash
             create_access_token ACCESS_TOKEN_EXPIRE_MINUTES
             ((env1, POST_register user) :: history) w Hwf). }
  assert (Hrow : exists row, In row (users (w_db w1)) /\
                             u_username row = uc_username user /\
                             u_hashed_password row =
                               get_password_hash (entropy env1) (uc_password user)).
  { unfold serve in Hfirst. simpl in Hfirst. unfold mbind, M_bind in Hfirst.
    destruct (a_register user (at_ env1 w)) as [[t|e] w0] eqn:Hrun;
      [|discriminate Hfirst].
    destruct (register_returned _ _ _ _ _ _ _ Hrun) as (_ & row & Hrow).
    inversion Hfirst; subst. exists row. exact Hrow. }
  destruct Hrow as (row & Hrow & Hname & Hhash).
  pose proof (serve_all_users decode_access_token verify_password get_password_hash
                create_access_token ACCESS_TOKEN_EXPIRE_MINUTES history w1 row Hrow)
    as Hstill.
  fold later in Hstill. destruct Hwf_later as (_ & Huniq & _).
  eexists. unfold serve. simpl. unfold mbind, M_bind.
  rewrite login_run. cbn [w_db at_].
  pose proof (unique_select_user _ _ Huniq Hstill) as Hsel. rewrite Hname in Hsel.
  rewrite Hsel. change (head [row]) with (Some row). cbv beta iota.
  rewrite Hhash, Hverify. simpl.
  split; reflexivity.
Qed.

(** *** Ids that were deleted *)

Lemma serve_all_retired (history : list (environment * request)) (w : world)
    (movie_id : Z) :
  retired (w_db w) movie_id -> retired (w_db (a_serve_all history w)) movie_id.
Proof.
  revert w. induction history as [|[env req] history IH]; intros w Hret; [exact Hret|].
  simpl. apply IH.
  destruct (serve_step decode_access_token verify_password get_password_hash
              create_access_token ACCESS_TOKEN_EXPIRE_MINUTES env req w)
    as [->|(st & cur & Hst)]; [exact Hret|].
  exact (run_statement_retired _ _ _ _ _ _ Hst Hret).
Qed.

(** X10. The id of a movie its owner deleted is gone for good: after any
    history of requests [get_movie] on that id raises 404 for every caller
    (whose id the users table can hold), and no later [create_movie] that
    returns is given that id. *)
Theorem deleted_id_never_returns (w w0 : world) (r : movie_row) (caller : User)
    (history : list (environment * request)) (anyone creator : User)
    (movie : MovieCreate) :
  movies_pk (w_db w) ->
  ids_bounded (w_db w) ->
  In r (movies (w_db w)) ->
  m_user_id r = user_ident caller ->
  delete_movie (m_id r) caller w = (Ok tt, w0) ->
  in_int64 (user_ident anyone) = true ->
  let later := a_serve_all history w0 in
  fst (get_movie (m_id r) anyone later) = Raise (HTTPException 404 "Movie not found") /\
  forall created w2,
    create_movie movie creator later = (Ok created, w2) -> id created <> m_id r.
Proof.
  intros Hpk Hbound Hr Hown Hdel Hany later.
  destruct (delete_movie_cases (m_id r) caller w)
    as [[_ Hrun]|[[_ Hrun]|[[_ Hrun]|(Hid & Hu & Hl & r0 & w' & _ & Hrun & Hdb & _)]]];
    rewrite Hrun in Hdel; try discriminate Hdel.
  inversion Hdel; subst w'.
  assert (Hret : retired (w_db later) (m_id r)).
  { subst later. apply serve_all_retired.
    rewrite Hdb. split; simpl.
    - apply Hbound. exact Hr.
    - intros x Hx. rewrite <- Hown in Hx. rewrite (pk_delete_rows _ _ Hpk Hr) in Hx.
      apply filter_In in Hx. destruct Hx as [_ Hx].
      apply negb_true_iff, Z.eqb_neq in Hx. exact Hx. }
  destruct Hret as [Hseq Hnone]. split.
  - rewrite get_movie_run, Hid, Hany. rewrite (absent_no_rows _ _ _ Hnone). reflexivity.
  - intros created w2 Hcreated.
    destruct (create_movie_returned movie creator later created w2 Hcreated)
      as (Hy & Hc & Hl' & Hroom).
    destruct (create_movie_run movie creator later Hy Hc Hl' Hroom) as (w3 & Hrun' & _).
    rewrite Hrun' in Hcreated. inversion Hcreated; subst. simpl.
    destruct (next_rowid_above (movies_seq (w_db later)) (map m_id (movies (w_db later))))
      as [Hnew _]. lia.
Qed.

End MoreRoutes.

(** ** The further statements on the example worlds *)

Lemma current_user_resolves_witness :
  let known := {| credentials := "token:alice" |} in
  let unknown := {| credentials := "token:carol" |} in
  demo_decode_access_token 20 "token:carol" = Some {| td_username := Some "carol" |} /\
  users_unique two_users /\
  fst (get_current_user demo_decode_access_token known two_users_world) = Ok alice /\
  fst (get_current_user demo_decode_access_token unknown two_users_world) =
    Raise (HTTPException 404 "User not found").
Proof.
  intros known unknown.
  assert (Hknown : demo_decode_access_token (clock (w_env two_users_world))
                     (credentials known) = Some {| td_username := Some "alice" |})
    by reflexivity.
  assert (Hunknown : demo_decode_access_token (clock (w_env two_users_world))
                       (credentials unknown) = Some {| td_username := Some "carol" |})
    by reflexivity.
  split; [exact Hunknown|]. split; [exact two_users_unique|].
  destruct (current_user_resolves demo_decode_access_token known two_users_world
              "alice" Hknown two_users_unique) as (Hfound & _ & _).
  destruct (current_user_resolves demo_decode_access_token unknown two_users_world
              "carol" Hunknown two_users_unique) as (_ & Hmissing & _).
  split.
  - rewrite (Hfound {| u_id := 1; u_username := "alice";
                       u_hashed_password := "hash:pw1"; u_created_at := 1 |}
               (or_introl eq_refl) eq_refl). reflexivity.
  - rewrite Hmissing; [reflexivity|].
    intros r [<-|[<-|[]]]; simpl; discriminate.
Defined.

Lemma failures_are_clean_and_expected_witness :
  let req := PUT_movie (Some "token:alice") 1 null_title in
  let fault := IntegrityError "NOT NULL constraint failed: movies.title" in
  let again := DELETE_movie (Some "token:alice") 1 in
  let left_locked := snd (demo_app req two_users_world) in
  users_fit two_users /\
  demo_app req two_users_world = (Raise fault, left_locked) /\
  w_db left_locked = two_users /\
  expected req two_users_world fault /\
  fst (demo_app again left_locked) = Raise (OperationalError "database is locked") /\
  w_db (snd (demo_app again left_locked)) = two_users /\
  expected again left_locked (OperationalError "database is locked").
Proof.
  intros req fault again left_locked.
  assert (H : demo_app req two_users_world = (Raise fault, left_locked)) by reflexivity.
  assert (H' : demo_app again left_locked
               = (Raise (OperationalError "database is locked"),
                  snd (demo_app again left_locked))) by reflexivity.
  split; [exact (proj2 two_users_fit)|]. split; [exact H|].
  destruct (failures_are_clean_and_expected demo_decode_access_token demo_verify_password
              demo_get_password_hash demo_create_access_token 30
              req two_users_world _ fault (proj2 two_users_fit) H) as [Hdb Hexp].
  split; [exact Hdb|]. split; [exact Hexp|]. split; [rewrite H'; reflexivity|].
  apply (failures_are_clean_and_expected demo_decode_access_token demo_verify_password
           demo_get_password_hash demo_create_access_token 30
           again left_locked _ _ (proj2 two_users_fit) H').
Defined.

Lemma demo_hash_verifies (salt : Z) (password : string) :
  demo_verify_password password (demo_get_password_hash salt password) = true.
Proof. unfold demo_verify_password, demo_get_password_hash. apply String.eqb_refl. Defined.

Lemma login_after_register_witness :
  let env := {| clock := 5; entropy := 7; finalized := false |} in
  let later := {| clock := 9; entropy := 8; finalized := false |} in
  let carol := {| uc_username := "carol"; uc_password := "pw3" |} in
  let history := [(later, DELETE_movie (Some "token:alice") 1);
                  (later, POST_register {| uc_username := "dave"; uc_password := "x" |})] in
  let w1 := snd (demo_serve env (POST_register carol) two_users_world) in
  well_formed two_users /\
  demo_serve env (POST_register carol) two_users_world =
    (Ok (token_response {| access_token := "token:carol"; token_type := "bearer" |}), w1) /\
  exists w2,
    demo_serve later (POST_login carol) (demo_serve_all history w1) =
      (Ok (token_response {| access_token := "token:carol"; token_type := "bearer" |}), w2) /\
    w_db w2 = w_db (demo_serve_all history w1).
Proof.
  intros env later carol history w1.
  assert (Hwf : well_formed (w_db two_users_world))
    by (split; [exact two_users_pk|split; [exact two_users_unique|exact two_users_bounded]]).
  assert (Hfirst : demo_serve env (POST_register carol) two_users_world
                   = (Ok (token_response
                            {| access_token := "token:carol"; token_type := "bearer" |}), w1))
    by reflexivity.
  split; [exact Hwf|]. split; [exact Hfirst|].
  exact (login_after_register demo_decode_access_token demo_verify_password
           demo_get_password_hash demo_create_access_token 30
           env later carol history two_users_world w1 _
           demo_hash_verifies Hwf Hfirst).
Defined.

Lemma deleted_id_never_returns_witness :
  let later := {| clock := 9; entropy := 8; finalized := false |} in
  let history := [(later, POST_register {| uc_username := "carol"; uc_password := "pw3" |})] in
  let w0 := snd (delete_movie 1 alice two_users_world) in
  let after := demo_serve_all history w0 in
  let again := {| mc_title := "Dune"; mc_director := None; mc_year := None;
                  mc_genre := None; mc_rating := None; mc_description := None |} in
  movies_pk two_users /\ ids_bounded two_users /\
  delete_movie 1 alice two_users_world = (Ok tt, w0) /\
  fst (get_movie 1 bob after) = Raise (HTTPException 404 "Movie not found") /\
  fst (create_movie again alice after) =
    Ok {| id := 2; title := "Dune"; director := None; year := None; genre := None;
          rating := None; description := None; user_id := 1 |} /\
  forall created w2, create_movie again alice after = (Ok created, w2) -> id created <> 1.
Proof.
  intros later history w0 after again.
  assert (Hdel : delete_movie 1 alice two_users_world = (Ok tt, w0)) by reflexivity.
  split; [exact two_users_pk|]. split; [exact two_users_bounded|].
  split; [exact Hdel|].
  destruct (deleted_id_never_returns demo_decode_access_token demo_verify_password
              demo_get_password_hash demo_create_access_token 30
              two_users_world w0 dune alice history bob alice again
              two_users_pk two_users_bounded (or_introl eq_refl) eq_refl Hdel eq_refl)
    as [Hget Hnew].
  split; [exact Hget|]. split; [reflexivity|exact Hnew].
Defined.

(** X11. A movie the caller creates is the last of the caller's list: after
    a [create_movie] that succeeds (the year and the caller's id bind, the
    database is not locked, the table can issue a rowid), [get_movies]
    returns what it returned before followed by the created record, its
    rating as the table keeps it. *)
Theorem created_movie_is_listed_last (movie : MovieCreate) (caller : User) (w : world) :
  fits (mc_year movie) = true ->
  in_int64 (user_ident caller) = true ->
  w_locked w = false ->
  room_for_movie (w_db w) ->
  exists created w' l,
    create_movie movie caller w = (Ok created, w') /\
    fst (get_movies caller w) = Ok l /\
    fst (get_movies caller w') =
      Ok (l ++ [{| id := id created; title := title created;
                   director := director created; year := year created;
                   genre := genre created; rating := stored (rating created);
                   description := description created;
                   user_id := user_id created |}]).
Proof.
  intros Hy Hu Hl Hroom.
  destruct (create_movie_run movie caller w Hy Hu Hl Hroom) as (w' & Hrun & Hdb & _).
  eexists. exists w'. eexists. split; [exact Hrun|].
  rewrite !get_movies_run, Hu. split; [reflexivity|]. cbn [fst].
  rewrite Hdb. cbn [movies]. rewrite List.filter_app, map_app. simpl.
  replace (matches [user_id_eq (user_ident caller)] _) with true
    by (symmetry; apply matches_owner; reflexivity).
  reflexivity.
Qed.

Lemma created_movie_is_listed_last_witness :
  fits (mc_year (full_movie PrimFloat.nan)) = true /\
  in_int64 (user_ident alice) = true /\
  w_locked two_users_world = false /\
  room_for_movie (w_db two_users_world) /\
  exists created w' l,
    create_movie (full_movie PrimFloat.nan) alice two_users_world = (Ok created, w') /\
    fst (get_movies alice two_users_world) = Ok l /\
    fst (get_movies alice w') =
      Ok (l ++ [{| id := id created; title := title created;
                   director := director created; year := year created;
                   genre := genre created; rating := stored (rating created);
                   description := description created;
                   user_id := user_id created |}]).
Proof.
  split; [reflexivity|]. split; [reflexivity|]. split; [reflexivity|].
  split; [reflexivity|].
  exact (created_movie_is_listed_last (full_movie PrimFloat.nan) alice two_users_world
           eq_refl eq_refl eq_refl eq_refl).
Defined.

(** * The frontend against the routes *)

Lemma expected_status (req : request) (w : world) (status : Z) (detail : string) :
  expected req w (HTTPException status detail) ->
  status = 400 \/ status = 401 \/ status = 404.
Proof.
  intros H. destruct status as [|p|p]; simpl in H; try contradiction.
  repeat match goal with
         | q : positive |- _ => destruct q; simpl in H; try contradiction
         end; auto.
Qed.

Section Browser.

Variable decode_access_token : Z -> string -> option TokenData.
Variable verify_password : string -> string -> bool.
Variable get_password_hash : Z -> string -> string.
Variable create_access_token : Z -> list (string * string) -> Z -> string.
Variable ACCESS_TOKEN_EXPIRE_MINUTES : Z.
Variable dumps : frontend.json -> string.

Local Abbreviation backend :=
  (app decode_access_token verify_password get_password_hash create_access_token
     ACCESS_TOKEN_EXPIRE_MINUTES).
Local Abbreviation client_requests :=
  (frontend.requests decode_access_token verify_password get_password_hash
     create_access_token ACCESS_TOKEN_EXPIRE_MINUTES).
Local Abbreviation client_login :=
  (frontend.login decode_access_token verify_password get_password_hash
     create_access_token ACCESS_TOKEN_EXPIRE_MINUTES).
Local Abbreviation client_register :=
  (frontend.register decode_access_token verify_password get_password_hash
     create_access_token ACCESS_TOKEN_EXPIRE_MINUTES dumps).
Local Abbreviation client_get_movies :=
  (frontend.get_movies decode_access_token verify_password get_password_hash
     create_access_token ACCESS_TOKEN_EXPIRE_MINUTES).
Local Abbreviation client_create_movie :=
  (frontend.create_movie decode_access_token verify_password get_password_hash
     create_access_token ACCESS_TOKEN_EXPIRE_MINUTES).
Local Abbreviation client_update_movie :=
  (frontend.update_movie decode_access_token verify_password get_password_hash
     create_access_token ACCESS_TOKEN_EXPIRE_MINUTES).
Local Abbreviation client_delete_movie :=
  (frontend.delete_movie decode_access_token verify_password get_password_hash
     create_access_token ACCESS_TOKEN_EXPIRE_MINUTES).
Local Abbreviation login_page_run :=
  (frontend.show_login_page decode_access_token verify_password get_password_hash
     create_access_token ACCESS_TOKEN_EXPIRE_MINUTES dumps).
Local Abbreviation login_tab_run :=
  (frontend.login_tab decode_access_token verify_password get_password_hash
     create_access_token ACCESS_TOKEN_EXPIRE_MINUTES).
Local Abbreviation register_tab_run :=
  (frontend.register_tab decode_access_token verify_password get_password_hash
     create_access_token ACCESS_TOKEN_EXPIRE_MINUTES dumps).

Lemma requests_delivered (req : request) (b : frontend.browser) (w : world) :
  frontend.network b = None ->
  client_requests req (b, w) =
  (frontend.done (frontend.Delivered (frontend.respond (fst (backend req w)))),
   (b, snd (backend req w))).
Proof.
  intros Hnet. unfold frontend.requests. rewrite Hnet.
  destruct (backend req w) as [o w']. reflexivity.
Qed.

Lemma backend_ok_status (req : request) (w w' : world) (resp : response) :
  backend req w = (Ok resp, w') ->
  frontend.status_code (frontend.respond (Ok resp)) = success_status req.
Proof.
  destruct req as [user|user|a|a body|a movie_id|a movie_id body|a movie_id]; simpl;
    unfold mbind, M_bind, mret, M_ret.
  - destruct (register _ _ _ user w) as [[t|e] w1]; intros H; inversion H; reflexivity.
  - destruct (login _ _ _ user w) as [[t|e] w1]; intros H; inversion H; reflexivity.
  - destruct (current_user_of _ a w) as [[u|e] w1]; [|discriminate].
    destruct (get_movies u w1) as [[l|e] w2]; intros H; inversion H; reflexivity.
  - destruct (current_user_of _ a w) as [[u|e] w1]; [|discriminate].
    destruct (MovieCreate_validate body w1) as [[movie|e] w2]; [|discriminate].
    destruct (create_movie movie u w2) as [[m|e] w3]; intros H; inversion H; reflexivity.
  - destruct (current_user_of _ a w) as [[u|e] w1]; [|discriminate].
    destruct (get_movie movie_id u w1) as [[m|e] w2]; intros H; inversion H; reflexivity.
  - destruct (current_user_of _ a w) as [[u|e] w1]; [|discriminate].
    destruct (update_movie movie_id body u w1) as [[m|e] w2]; intros H; inversion H;
      reflexivity.
  - destruct (current_user_of _ a w) as [[u|e] w1]; [|discriminate].
    destruct (delete_movie movie_id u w1) as [[m|e] w2]; intros H; inversion H;
      reflexivity.
Qed.

Lemma backend_raise_status (req : request) (w w' : world) (e : exn) :
  users_fit (w_db w) ->
  backend req w = (Raise e, w') ->
  let status := frontend.status_code (frontend.respond (Raise e)) in
  status = 400 \/ status = 401 \/ status = 404 \/ status = 422 \/ status = 500.
Proof.
  intros Hfit H. pose proof (app_raises_expected decode_access_token verify_password
                               get_password_hash create_access_token
                               ACCESS_TOKEN_EXPIRE_MINUTES req w w' e Hfit H) as Hexp.
  destruct e as [status detail|loc type_|msg|msg|msg|msg]; simpl.
  - destruct (expected_status _ _ _ _ Hexp) as [-> | [-> | ->]]; auto.
  - auto.
  - auto 6.
  - auto 6.
  - auto 6.
  - auto 6.
Qed.

(** The status of the answer tells whether the route returned. *)
Lemma status_is_success (req : request) (w : world) :
  users_fit (w_db w) ->
  (frontend.status_code (frontend.respond (fst (backend req w))) =? success_status req)
  = succeeded (fst (backend req w)).
Proof.
  intros Hfit.
  destruct (backend req w) as [[resp|e] w'] eqn:Hrun; cbn [fst succeeded].
  - rewrite (backend_ok_status _ _ _ _ Hrun). apply Z.eqb_refl.
  - apply Z.eqb_neq. pose proof (backend_raise_status _ _ _ _ Hfit Hrun) as Hs.
    cbv zeta in Hs. destruct req; simpl success_status; lia.
Qed.

Lemma failed_changes_nothing (req : request) (w : world) :
  succeeded (fst (backend req w)) = false -> w_db (snd (backend req w)) = w_db w.
Proof.
  destruct (backend req w) as [[resp|e] w'] eqn:Hrun; simpl; [discriminate|].
  intros _. exact (app_fails_clean decode_access_token verify_password
                     get_password_hash create_access_token
                     ACCESS_TOKEN_EXPIRE_MINUTES req w e w' Hrun).
Qed.

Lemma backend_rejects (req : request) (a : option string) (w : world) :
  authorization_of req = Some a ->
  token_rejected decode_access_token (clock (w_env w)) a = true ->
  exists detail, backend req w = (Raise (HTTPException 401 detail), w).
Proof.
  intros Hreq Hrej.
  destruct (current_user_rejected decode_access_token a w Hrej) as [detail Hcur].
  exists detail.
  destruct req; simpl in Hreq; inversion Hreq; subst;
    simpl; unfold mbind, M_bind; rewrite Hcur; reflexivity.
Qed.

(** X12. The boolean a client function returns tells whether the route
    returned (the user ids being integers the table can hold, and the
    ratings sent and answered numbers JSON can carry):
    [create_movie], [update_movie] and [delete_movie] of the frontend return
    [True] exactly when the backend route returned (201, 200, 204) and
    [False], showing nothing, when it raised; in a database that is not
    locked, [register] returns [True] when the user was created and
    otherwise [False], after showing "Username already exists" when the
    backend answered 400 and "Register failed: Internal Server Error" when
    it failed otherwise, which happens only when the users table is full.
    Whenever the route failed the database is as it was. *)
Theorem client_answers_truthfully (token : frontend.py) (b : frontend.browser)
    (w : world) (movie_data : MovieCreate_body) (movie_id : Z)
    (movie_update : MovieUpdate) (username password : string) :
  frontend.network b = None ->
  users_fit (w_db w) ->
  let created := backend (POST_movies (frontend.Authorization token) movie_data) w in
  let updated := backend (PUT_movie (frontend.Authorization token) movie_id movie_update) w in
  let deleted := backend (DELETE_movie (frontend.Authorization token) movie_id) w in
  let registered :=
    backend (POST_register {| uc_username := username; uc_password := password |}) w in
  (frontend.json_number (default_None (body_rating movie_data)) = true ->
   client_create_movie token movie_data (b, w)
     = (frontend.done (succeeded (fst created)), (b, snd created))) /\
  (frontend.json_number (default_None (mu_rating movie_update)) = true ->
   (forall m, fst updated = Ok (movie_response 200 m) ->
              frontend.json_number (rating m) = true) ->
   client_update_movie token movie_id movie_update (b, w)
     = (frontend.done (succeeded (fst updated)), (b, snd updated))) /\
  client_delete_movie token movie_id (b, w)
    = (frontend.done (succeeded (fst deleted)), (b, snd deleted)) /\
  (w_locked w = false ->
   client_register username password (b, w)
     = (frontend.done (succeeded (fst registered)),
        (match fst registered with
         | Ok _ => b
         | Raise (HTTPException _ _) =>
             frontend.shows [frontend.st_error "Username already exists"] b
         | Raise _ =>
             frontend.shows
               [frontend.st_error "Register failed: Internal Server Error"] b
         end,
         snd registered)) /\
   forall e, fst registered = Raise e ->
     e = HTTPException 400 "Username already registered" \/
     ~ room_for_user (w_db w)) /\
  (succeeded (fst created) = false -> w_db (snd created) = w_db w) /\
  (succeeded (fst updated) = false -> w_db (snd updated) = w_db w) /\
  (succeeded (fst deleted) = false -> w_db (snd deleted) = w_db w) /\
  (succeeded (fst registered) = false -> w_db (snd registered) = w_db w).
Proof.
  intros Hnet Hfit created updated deleted registered.
  subst created updated deleted registered.
  assert (Hreg : forall e w',
             backend (POST_register {| uc_username := username;
                                       uc_password := password |}) w = (Raise e, w') ->
             e = HTTPException 400 "Username already registered" \/
             (e = OperationalError "database is locked" /\ w_locked w = true) \/
             (e = OperationalError "database or disk is full" /\
              ~ room_for_user (w_db w))).
  { intros e w' Hrun.
    pose proof (app_raises_expected decode_access_token verify_password
                  get_password_hash create_access_token
                  ACCESS_TOKEN_EXPIRE_MINUTES _ w w' e Hfit Hrun) as Hexp.
    destruct e as [status detail|loc type_|msg|msg|msg|msg].
    - destruct (expected_status _ _ _ _ Hexp) as [-> | [-> | ->]]; simpl in Hexp.
      + destruct Hexp as [-> _]. left; reflexivity.
      + exfalso. destruct Hexp as [(_ & user & Hu)|(a & Ha)]; discriminate.
      + exfalso. destruct Hexp as (a & Ha). discriminate.
    - exfalso. simpl in Hexp. destruct Hexp as (a & body & Hb & _). discriminate.
    - exfalso. simpl in Hexp. destruct Hexp as (_ & a & i & body & Hb & _). discriminate.
    - simpl in Hexp. contradiction.
    - simpl in Hexp. destruct Hexp as [(-> & Hl & _)|(-> & [[_ Hfull]|[(a & body & Hb) _]])].
      + right; left. auto.
      + right; right. auto.
      + discriminate Hb.
    - contradiction. }
  split; [|split; [|split; [|split]]].
  - intros _. unfold frontend.create_movie, mbind, frontend.UI_bind.
    rewrite (requests_delivered _ _ _ Hnet). cbv beta iota.
    rewrite <- (status_is_success _ _ Hfit). reflexivity.
  - intros _ _. unfold frontend.update_movie, mbind, frontend.UI_bind.
    rewrite (requests_delivered _ _ _ Hnet). cbv beta iota.
    rewrite <- (status_is_success _ _ Hfit). reflexivity.
  - unfold frontend.delete_movie, mbind, frontend.UI_bind.
    rewrite (requests_delivered _ _ _ Hnet). cbv beta iota.
    rewrite <- (status_is_success _ _ Hfit). reflexivity.
  - intros Hfree. split.
    + unfold frontend.register, mbind, frontend.UI_bind.
      rewrite (requests_delivered _ _ _ Hnet). cbv beta iota.
      destruct (backend (POST_register _) w) as [[resp|e] w'] eqn:Hrun;
        cbn [fst snd succeeded].
      * rewrite (backend_ok_status _ _ _ _ Hrun). reflexivity.
      * destruct (Hreg e w' eq_refl) as [-> | [[-> _] | [-> _]]]; reflexivity.
    + intros e He.
      destruct (backend (POST_register _) w) as [[resp|e'] w'] eqn:Hrun; cbn [fst] in He;
        [discriminate He|]. inversion He; subst e'.
      destruct (Hreg e w' eq_refl) as [-> | [[_ Hl] | [_ Hfull]]]; auto.
      rewrite Hfree in Hl. discriminate Hl.
  - repeat split; apply failed_changes_nothing.
Qed.

Lemma rejected_token_silent (token : frontend.py) (b : frontend.browser) (w : world)
    (movie_data : MovieCreate_body) (movie_id : Z) (movie_update : MovieUpdate) :
  frontend.network b = None ->
  token_rejected decode_access_token (clock (w_env w)) (frontend.Authorization token)
    = true ->
  client_get_movies token (b, w) = (frontend.done (frontend.j_movies []), (b, w)) /\
  client_create_movie token movie_data (b, w) = (frontend.done false, (b, w)) /\
  client_update_movie token movie_id movie_update (b, w) = (frontend.done false, (b, w)) /\
  client_delete_movie token movie_id (b, w) = (frontend.done false, (b, w)).
Proof.
  intros Hnet Hrej.
  split; [|split; [|split]].
  - destruct (backend_rejects (GET_movies (frontend.Authorization token)) _ w eq_refl Hrej)
      as [detail Hrun].
    unfold frontend.get_movies, mbind, frontend.UI_bind.
    rewrite (requests_delivered _ _ _ Hnet), Hrun. reflexivity.
  - destruct (backend_rejects (POST_movies (frontend.Authorization token) movie_data)
                _ w eq_refl Hrej) as [detail Hrun].
    unfold frontend.create_movie, mbind, frontend.UI_bind.
    rewrite (requests_delivered _ _ _ Hnet), Hrun. reflexivity.
  - destruct (backend_rejects (PUT_movie (frontend.Authorization token) movie_id movie_update)
                _ w eq_refl Hrej) as [detail Hrun].
    unfold frontend.update_movie, mbind, frontend.UI_bind.
    rewrite (requests_delivered _ _ _ Hnet), Hrun. reflexivity.
  - destruct (backend_rejects (DELETE_movie (frontend.Authorization token) movie_id)
                _ w eq_refl Hrej) as [detail Hrun].
    unfold frontend.delete_movie, mbind, frontend.UI_bind.
    rewrite (requests_delivered _ _ _ Hnet), Hrun. reflexivity.
Qed.

(** X13. With a session token the backend rejects, every client call fails
    in silence: [get_movies] returns the empty list and [create_movie],
    [update_movie] and [delete_movie] return [False]; nothing is shown and
    no storage is touched. *)
Theorem rejected_token_fails_silently (token : frontend.py) (b : frontend.browser)
    (w : world) (movie_data : MovieCreate_body) (movie_id : Z)
    (movie_update : MovieUpdate) :
  frontend.network b = None ->
  token_rejected decode_access_token (clock (w_env w)) (frontend.Authorization token)
    = true ->
  client_get_movies token (b, w) = (frontend.done (frontend.j_movies []), (b, w)) /\
  client_create_movie token movie_data (b, w) = (frontend.done false, (b, w)) /\
  client_update_movie token movie_id movie_update (b, w) = (frontend.done false, (b, w)) /\
  client_delete_movie token movie_id (b, w) = (frontend.done false, (b, w)).
Proof. exact (rejected_token_silent token b w movie_data movie_id movie_update). Qed.

Lemma client_login_run (username password : string) (b : frontend.browser) (w : world) :
  frontend.network b = None ->
  let answer :=
    login verify_password create_access_token ACCESS_TOKEN_EXPIRE_MINUTES
      {| uc_username := username; uc_password := password |} w in
  client_login username password (b, w) =
  (frontend.done (match fst answer with
                  | Ok t => Some (access_token t)
                  | Raise _ => None
                  end),
   (b, snd answer)).
Proof.
  intros Hnet answer. subst answer.
  assert (Hb : backend (POST_login {| uc_username := username; uc_password := password |}) w
               = (match fst (login verify_password create_access_token
                               ACCESS_TOKEN_EXPIRE_MINUTES
                               {| uc_username := username; uc_password := password |} w) with
                  | Ok t => Ok (token_response t)
                  | Raise e => Raise e
                  end,
                  snd (login verify_password create_access_token
                         ACCESS_TOKEN_EXPIRE_MINUTES
                         {| uc_username := username; uc_password := password |} w))).
  { simpl. unfold mbind, M_bind. destruct (login _ _ _ _ w) as [[t|e] w1]; reflexivity. }
  unfold frontend.login, mbind, frontend.UI_bind.
  rewrite (requests_delivered _ _ _ Hnet), Hb. cbn [fst snd]. rewrite login_run.
  cbn [fst snd].
  destruct (head _) as [row|]; [destruct (negb _)|]; reflexivity.
Qed.

Ltac run_page :=
  unfold mbind, frontend.UI_bind, mret, frontend.UI_ret, frontend.show,
    frontend.set_session, frontend.st_rerun; cbn beta iota.

(** The page is its heading followed by its two tabs. *)
Lemma show_login_page_run (page : frontend.login_page) (b : frontend.browser) (w : world) :
  login_page_run page (b, w) =
  match login_tab_run page
          (frontend.shows [frontend.st_tabs ["Login"; "Register"]]
             (frontend.shows [frontend.st_title "Movie Manager"] b), w) with
  | (frontend.done _, s) => register_tab_run page s
  | (frontend.rerun, s) => (frontend.rerun, s)
  end.
Proof. reflexivity. Qed.

Lemma login_tab_skipped (page : frontend.login_page) (b : frontend.browser) (w : world) :
  frontend.login_clicked page = false \/
  frontend.nonempty (frontend.login_username page) = false \/
  frontend.nonempty (frontend.login_password page) = false ->
  exists b',
    login_tab_run page (b, w) = (frontend.done tt, (b', w)) /\
    frontend.session_state b' = frontend.session_state b /\
    frontend.network b' = frontend.network b.
Proof.
  intros H. unfold frontend.login_tab. run_page.
  destruct (frontend.login_clicked page);
    [|eexists; split; [reflexivity|split; reflexivity]].
  destruct (frontend.nonempty (frontend.login_username page));
    [|eexists; split; [reflexivity|split; reflexivity]].
  destruct (frontend.nonempty (frontend.login_password page));
    [|eexists; split; [reflexivity|split; reflexivity]].
  exfalso. destruct H as [H|[H|H]]; discriminate H.
Qed.

Lemma register_tab_skipped (page : frontend.login_page) (b : frontend.browser)
    (w : world) :
  frontend.register_clicked page = false \/
  frontend.nonempty (frontend.reg_username page) = false \/
  frontend.nonempty (frontend.reg_password page) = false \/
  frontend.nonempty (frontend.reg_password_confirm page) = false \/
  frontend.reg_password page <> frontend.reg_password_confirm page \/
  frontend.len (frontend.reg_password page) < 4 ->
  exists b',
    register_tab_run page (b, w) = (frontend.done tt, (b', w)) /\
    frontend.session_state b' = frontend.session_state b /\
    frontend.network b' = frontend.network b /\
    forall x, In x (frontend.screen b) -> In x (frontend.screen b').
Proof.
  intros H. unfold frontend.register_tab. run_page.
  assert (Hkeep : forall (x : frontend.shown) (l : list frontend.shown) (extra : list frontend.shown),
             In x l -> In x (l ++ extra)) by (intros; apply in_or_app; left; assumption).
  destruct (frontend.register_clicked page);
    [|eexists; split; [reflexivity|split; [reflexivity|split; [reflexivity|]]];
      cbn [frontend.screen]; intros x Hx; repeat apply Hkeep; exact Hx].
  destruct (frontend.nonempty (frontend.reg_username page));
    [|eexists; split; [reflexivity|split; [reflexivity|split; [reflexivity|]]];
      cbn [frontend.screen]; intros x Hx; repeat apply Hkeep; exact Hx].
  destruct (frontend.nonempty (frontend.reg_password page));
    [|eexists; split; [reflexivity|split; [reflexivity|split; [reflexivity|]]];
      cbn [frontend.screen]; intros x Hx; repeat apply Hkeep; exact Hx].
  destruct (frontend.nonempty (frontend.reg_password_confirm page));
    [|eexists; split; [reflexivity|split; [reflexivity|split; [reflexivity|]]];
      cbn [frontend.screen]; intros x Hx; repeat apply Hkeep; exact Hx].
  cbn [andb].
  destruct (String.eqb_spec (frontend.reg_password page)
              (frontend.reg_password_confirm page)) as [Heq|Hne]; cbn [negb];
    [|eexists; split; [reflexivity|split; [reflexivity|split; [reflexivity|]]];
      cbn [frontend.screen]; intros x Hx; repeat apply Hkeep; exact Hx].
  destruct (Z.ltb_spec (frontend.len (frontend.reg_password page)) 4) as [Hlt|Hge];
    [eexists; split; [reflexivity|split; [reflexivity|split; [reflexivity|]]];
     cbn [frontend.screen]; intros x Hx; repeat apply Hkeep; exact Hx|].
  exfalso. destruct H as [H|[H|[H|[H|[H|H]]]]];
    try discriminate H; try contradiction; lia.
Qed.

Lemma login_tab_submitted (page : frontend.login_page) (b : frontend.browser) (w : world) :
  frontend.login_clicked page = true ->
  frontend.nonempty (frontend.login_username page) = true ->
  frontend.nonempty (frontend.login_password page) = true ->
  frontend.network b = None ->
  let answer :=
    login verify_password create_access_token ACCESS_TOKEN_EXPIRE_MINUTES
      {| uc_username := frontend.login_username page;
         uc_password := frontend.login_password page |} w in
  let accepted :=
    match fst answer with
    | Ok t => frontend.nonempty (access_token t)
    | Raise _ => false
    end in
  exists b',
    frontend.network b' = None /\
    if accepted then
      login_tab_run page (b, w) = (frontend.rerun, (b', snd answer)) /\
      (forall t, fst answer = Ok t ->
         frontend.ss_token (frontend.session_state b')
           = Some (frontend.py_str (access_token t))) /\
      frontend.ss_username (frontend.session_state b')
        = Some (frontend.py_str (frontend.login_username page)) /\
      In (frontend.st_success "Logged in successfully!") (frontend.screen b')
    else
      login_tab_run page (b, w) = (frontend.done tt, (b', snd answer)) /\
      frontend.session_state b' = frontend.session_state b /\
      In (frontend.st_error "Invalid username or password") (frontend.screen b').
Proof.
  intros Hlc Hu Hp Hnet answer accepted. subst accepted answer.
  unfold frontend.login_tab. run_page. rewrite Hlc, Hu, Hp. cbn [andb].
  rewrite client_login_run by exact Hnet. cbn beta iota zeta.
  destruct (login _ _ _ _ w) as [[t|e] w1]; cbn [fst snd].
  - destruct (frontend.nonempty (access_token t)) eqn:Hne; cbn beta iota zeta.
    + eexists. split; [|split; [reflexivity|split; [|split]]].
      * exact Hnet.
      * intros t' Ht'. inversion Ht'; subst. reflexivity.
      * reflexivity.
      * cbn [frontend.screen]. apply in_or_app. right. left. reflexivity.
    + eexists. split; [|split; [reflexivity|split]].
      * exact Hnet.
      * reflexivity.
      * cbn [frontend.screen]. apply in_or_app. right. left. reflexivity.
  - eexists. split; [|split; [reflexivity|split]].
    + exact Hnet.
    + reflexivity.
    + cbn [frontend.screen]. apply in_or_app. right. left. reflexivity.
Qed.

(** X14. Logging in through the page, with both fields filled in: when the
    backend [login] returns a token (that is not empty), the page stores
    that token and the username in the session, shows "Logged in
    successfully!" and reruns; when the backend refuses, it shows "Invalid
    username or password" and leaves the session as it was.  The database
    is untouched either way. *)
Theorem page_login (page : frontend.login_page) (b : frontend.browser) (w : world) :
  frontend.login_clicked page = true ->
  frontend.register_clicked page = false ->
  frontend.nonempty (frontend.login_username page) = true ->
  frontend.nonempty (frontend.login_password page) = true ->
  frontend.network b = None ->
  let answer :=
    login verify_password create_access_token ACCESS_TOKEN_EXPIRE_MINUTES
      {| uc_username := frontend.login_username page;
         uc_password := frontend.login_password page |} w in
  let accepted :=
    match fst answer with
    | Ok t => frontend.nonempty (access_token t)
    | Raise _ => false
    end in
  w_db (snd answer) = w_db w /\
  exists b',
    frontend.network b' = None /\
    if accepted then
      login_page_run page (b, w) = (frontend.rerun, (b', snd answer)) /\
      (forall t, fst answer = Ok t ->
         frontend.ss_token (frontend.session_state b')
           = Some (frontend.py_str (access_token t))) /\
      frontend.ss_username (frontend.session_state b')
        = Some (frontend.py_str (frontend.login_username page)) /\
      In (frontend.st_success "Logged in successfully!") (frontend.screen b')
    else
      login_page_run page (b, w) = (frontend.done tt, (b', snd answer)) /\
      frontend.session_state b' = frontend.session_state b /\
      In (frontend.st_error "Invalid username or password") (frontend.screen b').
Proof.
  intros Hlc Hrc Hu Hp Hnet answer accepted.
  split; [apply login_reads|].
  rewrite show_login_page_run.
  destruct (login_tab_submitted page
              (frontend.shows [frontend.st_tabs ["Login"; "Register"]]
                 (frontend.shows [frontend.st_title "Movie Manager"] b)) w
              Hlc Hu Hp Hnet) as (b1 & Hnet1 & Htab).
  fold answer in Htab. fold accepted in Htab.
  destruct accepted.
  - destruct Htab as (Hrun & Htok & Hname & Hshown).
    exists b1. rewrite Hrun. auto.
  - destruct Htab as (Hrun & Hsess & Hshown). rewrite Hrun.
    destruct (register_tab_skipped page b1 (snd answer) (or_introl Hrc))
      as (b2 & Hrun2 & Hsess2 & Hnet2 & Hkeep).
    exists b2. rewrite Hrun2. split; [congruence|]. split; [reflexivity|].
    split; [rewrite Hsess2; exact Hsess|]. apply Hkeep. exact Hshown.
Qed.

Lemma client_register_free (username password : string) (b : frontend.browser)
    (w : world) :
  frontend.network b = None ->
  (forall r, In r (users (w_db w)) -> u_username r <> username) ->
  w_locked w = false ->
  room_for_user (w_db w) ->
  exists w',
    client_register username password (b, w) = (frontend.done true, (b, w')) /\
    w_env w' = w_env w /\
    exists row, In row (users (w_db w')) /\ u_username row = username /\
                u_hashed_password row = get_password_hash (entropy (w_env w)) password.
Proof.
  intros Hnet Hfree Hl Hroom.
  destruct (register_free get_password_hash create_access_token
              ACCESS_TOKEN_EXPIRE_MINUTES
              {| uc_username := username; uc_password := password |} w Hfree Hl Hroom)
    as (w' & Hrun & Henv & _ & Hdb).
  exists w'.
  assert (Hb : backend (POST_register {| uc_username := username;
                                         uc_password := password |}) w
               = (Ok (token_response
                        {| access_token :=
                             create_access_token (clock (w_env w)) [("sub", username)]
                               (timedelta_minutes ACCESS_TOKEN_EXPIRE_MINUTES);
                           token_type := "bearer" |}), w')).
  { simpl. unfold mbind, M_bind. rewrite Hrun. reflexivity. }
  split; [|split; [exact Henv|]].
  - unfold frontend.register, mbind, frontend.UI_bind.
    rewrite (requests_delivered _ _ _ Hnet), Hb. reflexivity.
  - eexists. split; [rewrite Hdb; simpl; apply in_or_app; right; left; reflexivity|].
    split; reflexivity.
Qed.

Lemma register_tab_submitted (page : frontend.login_page) (b : frontend.browser)
    (w : world) :
  frontend.register_clicked page = true ->
  frontend.nonempty (frontend.reg_username page) = true ->
  frontend.nonempty (frontend.reg_password page) = true ->
  frontend.nonempty (frontend.reg_password_confirm page) = true ->
  frontend.reg_password page = frontend.reg_password_confirm page ->
  4 <= frontend.len (frontend.reg_password page) ->
  frontend.network b = None ->
  (forall r, In r (users (w_db w)) -> u_username r <> frontend.reg_username page) ->
  w_locked w = false ->
  room_for_user (w_db w) ->
  exists b' w',
    register_tab_run page (b, w) = (frontend.rerun, (b', w')) /\
    frontend.network b' = None /\
    frontend.ss_token (frontend.session_state b') = Some (frontend.py_bool true) /\
    frontend.ss_username (frontend.session_state b')
      = Some (frontend.py_str (frontend.reg_username page)) /\
    exists row, In row (users (w_db w')) /\ u_username row = frontend.reg_username page.
Proof.
  intros Hrc Hu Hp Hc Hsame Hlen Hnet Hfree Hl Hroom.
  unfold frontend.register_tab. run_page. rewrite Hrc, Hu, Hp, Hc. cbn [andb].
  rewrite <- Hsame, String.eqb_refl. cbn [negb].
  replace (frontend.len (frontend.reg_password page) <? 4) with false
    by (symmetry; apply Z.ltb_ge; exact Hlen).
  cbn beta iota zeta.
  match goal with
  | |- context [frontend.register _ _ _ _ _ _ _ _ (?b0, w)] =>
      destruct (client_register_free (frontend.reg_username page)
                  (frontend.reg_password page) b0 w Hnet Hfree Hl Hroom)
        as (w' & Hrun & Henv & row & Hrow & Hname & _)
  end.
  rewrite Hrun. cbn beta iota zeta.
  eexists. exists w'. split; [reflexivity|].
  split; [exact Hnet|]. split; [reflexivity|]. split; [reflexivity|].
  exists row. auto.
Qed.

(** X15. Registering through the page, with the three fields filled in, the
    two passwords equal and at least 4 characters long, and a username that
    is free, in a database that is not locked and whose users table can
    issue a rowid: the user is created, and the session token the page stores is
    the boolean [True] that the client [register] returned, not the token
    the backend issued.  The header sent from then on is "Bearer True"; if
    the backend does not decode that, [get_movies] of the session returns
    the empty list. *)
Theorem page_register_keeps_flag (page : frontend.login_page) (b : frontend.browser)
    (w : world) :
  frontend.login_clicked page = false ->
  frontend.register_clicked page = true ->
  frontend.nonempty (frontend.reg_username page) = true ->
  frontend.nonempty (frontend.reg_password page) = true ->
  frontend.nonempty (frontend.reg_password_confirm page) = true ->
  frontend.reg_password page = frontend.reg_password_confirm page ->
  4 <= frontend.len (frontend.reg_password page) ->
  frontend.network b = None ->
  (forall r, In r (users (w_db w)) -> u_username r <> frontend.reg_username page) ->
  w_locked w = false ->
  room_for_user (w_db w) ->
  exists b' w',
    login_page_run page (b, w) = (frontend.rerun, (b', w')) /\
    frontend.ss_token (frontend.session_state b') = Some (frontend.py_bool true) /\
    frontend.ss_username (frontend.session_state b')
      = Some (frontend.py_str (frontend.reg_username page)) /\
    (exists row, In row (users (w_db w')) /\
                 u_username row = frontend.reg_username page) /\
    frontend.Authorization (frontend.py_bool true) = Some "True" /\
    (decode_access_token (clock (w_env w')) "True" = None ->
     client_get_movies (frontend.py_bool true) (b', w')
       = (frontend.done (frontend.j_movies []), (b', w'))).
Proof.
  intros Hlc Hrc Hu Hp Hc Hsame Hlen Hnet Hfree Hl Hroom.
  rewrite show_login_page_run.
  destruct (login_tab_skipped page
              (frontend.shows [frontend.st_tabs ["Login"; "Register"]]
                 (frontend.shows [frontend.st_title "Movie Manager"] b)) w
              (or_introl Hlc)) as (b1 & Hrun1 & _ & Hnet1).
  rewrite Hrun1.
  assert (Hnet1' : frontend.network b1 = None) by (rewrite Hnet1; exact Hnet).
  destruct (register_tab_submitted page b1 w Hrc Hu Hp Hc Hsame Hlen Hnet1' Hfree
              Hl Hroom)
    as (b2 & w' & Hrun2 & Hnet2 & Htok & Hname & Hrow).
  exists b2, w'. split; [exact Hrun2|]. split; [exact Htok|]. split; [exact Hname|].
  split; [exact Hrow|]. split; [reflexivity|].
  intros Hdec.
  apply (rejected_token_silent (frontend.py_bool true) b2 w' empty_title_body 0 no_fields).
  - exact Hnet2.
  - unfold token_rejected. simpl. rewrite Hdec. reflexivity.
Qed.

(** X16. The login page sends nothing unless its checks pass: if the Login
    button was not pressed or a login field is empty, and the Register
    button was not pressed or a register field is empty or the passwords
    differ or the password is shorter than 4 characters, then the script
    run ends without a request (the world is untouched) and with the session
    as it was. *)
Theorem login_page_gates (page : frontend.login_page) (b : frontend.browser) (w : world) :
  frontend.login_clicked page = false \/
  frontend.nonempty (frontend.login_username page) = false \/
  frontend.nonempty (frontend.login_password page) = false ->
  frontend.register_clicked page = false \/
  frontend.nonempty (frontend.reg_username page) = false \/
  frontend.nonempty (frontend.reg_password page) = false \/
  frontend.nonempty (frontend.reg_password_confirm page) = false \/
  frontend.reg_password page <> frontend.reg_password_confirm page \/
  frontend.len (frontend.reg_password page) < 4 ->
  exists b',
    login_page_run page (b, w) = (frontend.done tt, (b', w)) /\
    frontend.session_state b' = frontend.session_state b /\
    frontend.network b' = frontend.network b.
Proof.
  intros Hlogin Hreg. rewrite show_login_page_run.
  destruct (login_tab_skipped page
              (frontend.shows [frontend.st_tabs ["Login"; "Register"]]
                 (frontend.shows [frontend.st_title "Movie Manager"] b)) w Hlogin)
    as (b1 & Hrun1 & Hsess1 & Hnet1).
  rewrite Hrun1.
  destruct (register_tab_skipped page b1 w Hreg) as (b2 & Hrun2 & Hsess2 & Hnet2 & _).
  exists b2. split; [exact Hrun2|]. split; [rewrite Hsess2; exact Hsess1|].
  rewrite Hnet2. exact Hnet1.
Qed.

End Browser.

(** ** The frontend statements on the example worlds *)

Lemma client_answers_truthfully_witness :
  frontend.network demo_browser = None /\
  users_fit two_users /\
  demo_client_delete_movie (frontend.py_str "token:bob") 1 (demo_browser, two_users_world)
    = (frontend.done false,
       (demo_browser,
        snd (demo_app (DELETE_movie (Some "token:bob") 1) two_users_world))) /\
  w_db (snd (demo_app (DELETE_movie (Some "token:bob") 1) two_users_world)) = two_users /\
  demo_client_delete_movie (frontend.py_str "token:alice") 1 (demo_browser, locked_world)
    = (frontend.done false,
       (demo_browser,
        snd (demo_app (DELETE_movie (Some "token:alice") 1) locked_world))) /\
  frontend.json_number (default_None (body_rating empty_title_body)) = true /\
  fst (frontend.create_movie demo_decode_access_token demo_verify_password
         demo_get_password_hash demo_create_access_token 30
         (frontend.py_str "token:bob") empty_title_body (demo_browser, two_users_world))
    = frontend.done true /\
  w_locked two_users_world = false /\
  fst (demo_client_register "alice" "pw9" (demo_browser, two_users_world))
    = frontend.done false /\
  frontend.screen (fst (snd (demo_client_register "alice" "pw9"
                               (demo_browser, two_users_world))))
    = [frontend.st_error "Username already exists"].
Proof.
  assert (Hnet : frontend.network demo_browser = None) by reflexivity.
  split; [exact Hnet|]. split; [exact (proj2 two_users_fit)|].
  destruct (client_answers_truthfully demo_decode_access_token demo_verify_password
              demo_get_password_hash demo_create_access_token 30 demo_dumps
              (frontend.py_str "token:bob") demo_browser two_users_world
              empty_title_body 1 no_fields "alice" "pw9" Hnet (proj2 two_users_fit))
    as (Hnew & _ & Hdel & Hreg & _ & _ & Hkept & _).
  destruct (client_answers_truthfully demo_decode_access_token demo_verify_password
              demo_get_password_hash demo_create_access_token 30 demo_dumps
              (frontend.py_str "token:alice") demo_browser locked_world
              empty_title_body 1 no_fields "carol" "pw9" Hnet (proj2 two_users_fit))
    as (_ & _ & Hdel' & _).
  destruct (Hreg eq_refl) as [Hshown _].
  split; [exact Hdel|]. split; [exact (Hkept eq_refl)|]. split; [exact Hdel'|].
  split; [reflexivity|]. split; [rewrite (Hnew eq_refl); reflexivity|].
  split; [reflexivity|].
  unfold demo_client_register. rewrite Hshown. split; reflexivity.
Defined.

Lemma rejected_token_fails_silently_witness :
  frontend.network demo_browser = None /\
  token_rejected demo_decode_access_token (clock (w_env two_users_world))
    (frontend.Authorization (frontend.py_bool true)) = true /\
  demo_client_get_movies (frontend.py_bool true) (demo_browser, two_users_world)
    = (frontend.done (frontend.j_movies []), (demo_browser, two_users_world)) /\
  demo_client_delete_movie (frontend.py_bool true) 1 (demo_browser, two_users_world)
    = (frontend.done false, (demo_browser, two_users_world)).
Proof.
  assert (Hnet : frontend.network demo_browser = None) by reflexivity.
  assert (Hrej : token_rejected demo_decode_access_token (clock (w_env two_users_world))
                   (frontend.Authorization (frontend.py_bool true)) = true)
    by reflexivity.
  split; [exact Hnet|]. split; [exact Hrej|].
  destruct (rejected_token_fails_silently demo_decode_access_token demo_verify_password
              demo_get_password_hash demo_create_access_token 30
              (frontend.py_bool true) demo_browser two_users_world
              empty_title_body 1 no_fields Hnet Hrej)
    as (Hget & _ & _ & Hdel).
  split; [exact Hget|exact Hdel].
Defined.

Lemma page_login_witness :
  let page := login_as "alice" "pw1" in
  frontend.login_clicked page = true /\
  frontend.register_clicked page = false /\
  frontend.nonempty (frontend.login_username page) = true /\
  frontend.nonempty (frontend.login_password page) = true /\
  frontend.network demo_browser = None /\
  exists b',
    fst (demo_login_page page (demo_browser, two_users_world)) = frontend.rerun /\
    fst (snd (demo_login_page page (demo_browser, two_users_world))) = b' /\
    frontend.ss_token (frontend.session_state b')
      = Some (frontend.py_str "token:alice") /\
    frontend.ss_username (frontend.session_state b') = Some (frontend.py_str "alice").
Proof.
  intros page.
  assert (Hnet : frontend.network demo_browser = None) by reflexivity.
  repeat (split; [reflexivity|]).
  destruct (page_login demo_decode_access_token demo_verify_password
              demo_get_password_hash demo_create_access_token 30 demo_dumps
              page demo_browser two_users_world eq_refl eq_refl eq_refl eq_refl Hnet)
    as (_ & b' & _ & Hpage).
  change (match fst (login demo_verify_password demo_create_access_token 30
                       {| uc_username := "alice"; uc_password := "pw1" |}
                       two_users_world) with
          | Ok t => frontend.nonempty (access_token t)
          | Raise _ => false
          end) with true in Hpage.
  cbv iota in Hpage. destruct Hpage as (Hrun & Htok & Hname & _).
  exists b'. unfold demo_login_page. rewrite Hrun.
  split; [reflexivity|]. split; [reflexivity|]. split; [|exact Hname].
  apply (Htok {| access_token := "token:alice"; token_type := "bearer" |}).
  reflexivity.
Defined.

Lemma page_register_keeps_flag_witness :
  let page := register_as "carol" "pw34" "pw34" in
  frontend.nonempty (frontend.reg_username page) = true /\
  frontend.reg_password page = frontend.reg_password_confirm page /\
  4 <= frontend.len (frontend.reg_password page) /\
  (forall r, In r (users two_users) -> u_username r <> "carol") /\
  w_locked two_users_world = false /\
  room_for_user two_users /\
  exists b' w',
    demo_login_page page (demo_browser, two_users_world) = (frontend.rerun, (b', w')) /\
    frontend.ss_token (frontend.session_state b') = Some (frontend.py_bool true) /\
    (exists row, In row (users (w_db w')) /\ u_username row = "carol") /\
    (demo_decode_access_token (clock (w_env w')) "True" = None ->
     demo_client_get_movies (frontend.py_bool true) (b', w')
       = (frontend.done (frontend.j_movies []), (b', w'))).
Proof.
  intros page.
  assert (Hlen : 4 <= frontend.len (frontend.reg_password page)) by (vm_compute; discriminate).
  assert (Hfree : forall r, In r (users (w_db two_users_world)) ->
                            u_username r <> frontend.reg_username page).
  { intros r [<-|[<-|[]]]; simpl; discriminate. }
  assert (Hroom : room_for_user (w_db two_users_world)) by reflexivity.
  split; [reflexivity|]. split; [reflexivity|]. split; [exact Hlen|].
  split; [exact Hfree|]. split; [reflexivity|]. split; [exact Hroom|].
  destruct (page_register_keeps_flag demo_decode_access_token demo_verify_password
              demo_get_password_hash demo_create_access_token 30 demo_dumps
              page demo_browser two_users_world
              eq_refl eq_refl eq_refl eq_refl eq_refl eq_refl Hlen eq_refl Hfree
              eq_refl Hroom)
    as (b' & w' & Hrun & Htok & _ & Hrow & _ & Hlist).
  exists b', w'. split; [exact Hrun|]. split; [exact Htok|].
  split; [exact Hrow|exact Hlist].
Defined.

Lemma login_page_gates_witness :
  let page := register_as "carol" "abc" "abc" in
  frontend.login_clicked page = false /\
  frontend.len (frontend.reg_password page) < 4 /\
  exists b',
    demo_login_page page (demo_browser, two_users_world)
      = (frontend.done tt, (b', two_users_world)) /\
    frontend.session_state b' = frontend.session_state demo_browser /\
    frontend.network b' = frontend.network demo_browser.
Proof.
  intros page.
  assert (Hlen : frontend.len (frontend.reg_password page) < 4) by (vm_compute; reflexivity).
  split; [reflexivity|]. split; [exact Hlen|].
  exact (login_page_gates demo_decode_access_token demo_verify_password
           demo_get_password_hash demo_create_access_token 30 demo_dumps
           page demo_browser two_users_world (or_introl eq_refl)
           (or_intror (or_intror (or_intror (or_intror (or_intror Hlen)))))).
Defined.
